(** * eachare: a shallow embedding of the peer-to-peer node [eachare.py]

    The development follows the source file top-down:

    - [Py]      the Python primitives the program relies on (whitespace
                splitting, [strip], [int], [str], insertion-ordered dicts);
    - [Base64]  the transfer encoding used by the [FILE] reply
                ([base64.b64encode] / [base64.b64decode]);
    - [Eachare] the program itself: the global state, the state-and-exception
                monad in which its functions run, the inbound server
                ([handle_client]), the outbound messenger ([send_message]) and
                the discovery/transfer commands.

    Text is modelled as [string] over 8-bit characters.  On ASCII text
    [encode]/[decode] are the identity, whitespace is Python's
    [str.isspace] and the digits of [int] are the decimal digits; the
    theorems that depend on how text is read state that the text is ASCII
    ([ascii_text]).  Integers are unbounded, as Python's. *)

From Stdlib Require Import ZArith NArith List String Ascii Bool Lia.
From Stdlib Require Import Sorting.Permutation Sorting.Sorted.
From Stdlib Require Import Strings.Byte.
From Stdlib Require Import Decimal DecimalString DecimalPos DecimalZ.
Import ListNotations.

Local Open Scope string_scope.
Local Open Scope list_scope.

(* ===================================================================== *)
(** ** Python primitives *)
(* ===================================================================== *)

Module Py.

(** The characters for which [str.isspace] holds, in ASCII: tab, newline,
    vertical tab, form feed, carriage return, the four separators
    [0x1c]..[0x1f] and the space. *)
Definition is_space (c : ascii) : bool :=
  let n := nat_of_ascii c in
  ((9 <=? n)%nat && (n <=? 13)%nat) || ((28 <=? n)%nat && (n <=? 32)%nat).

Definition nl : string := String "010"%char "".
Definition dquote : string := String "034"%char "".

Definition is_empty (s : string) : bool :=
  match s with "" => true | _ => false end.

(** [s.lstrip()], [s.rstrip()] and [s.strip()]. *)
Fixpoint lstrip (s : string) : string :=
  match s with
  | "" => ""
  | String c s' => if is_space c then lstrip s' else s
  end.

Fixpoint rstrip (s : string) : string :=
  match s with
  | "" => ""
  | String c s' =>
      let r := rstrip s' in
      if is_space c && is_empty r then "" else String c r
  end.

Definition strip (s : string) : string := rstrip (lstrip s).

(** [s.split()]: maximal runs of non-whitespace characters.  [cur] is the
    token being read. *)
Fixpoint split_aux (cur : string) (s : string) : list string :=
  match s with
  | "" => if is_empty cur then [] else [cur]
  | String c s' =>
      if is_space c
      then (if is_empty cur then split_aux "" s' else cur :: split_aux "" s')
      else split_aux (cur ++ String c "") s'
  end.

Definition split (s : string) : list string := split_aux "" s.

(** [s.split(sep)] for a one-character separator: empty fields are kept and
    the result is never empty. *)
Fixpoint split_on_aux (sep : ascii) (cur : string) (s : string) : list string :=
  match s with
  | "" => [cur]
  | String c s' =>
      if Ascii.eqb c sep then cur :: split_on_aux sep "" s'
      else split_on_aux sep (cur ++ String c "") s'
  end.

Definition split_on (sep : ascii) (s : string) : list string :=
  split_on_aux sep "" s.

(** [sep.join(l)]. *)
Definition join (sep : string) (l : list string) : string := String.concat sep l.

(** [l[a:a+n]] for [a], [n >= 0]. *)
Definition slice {A} (a n : nat) (l : list A) : list A := firstn n (skipn a l).

(** [str(n)] for an integer. *)
Definition str (z : Z) : string := NilZero.string_of_int (Z.to_int z).

(** [int(s)]: surrounding whitespace is ignored, an optional sign is
    followed by decimal digits, single underscores may separate digits.
    [None] stands for [ValueError].  The whitespace [int] skips around an
    ASCII literal is that of C ([Py_ISSPACE]): unlike [str.strip] it keeps
    the separators [0x1c]..[0x1f], so [int] rejects a literal that has
    one. *)
Definition is_int_space (c : ascii) : bool :=
  let n := nat_of_ascii c in
  ((9 <=? n)%nat && (n <=? 13)%nat) || (n =? 32)%nat.

Fixpoint int_lstrip (s : string) : string :=
  match s with
  | "" => ""
  | String c s' => if is_int_space c then int_lstrip s' else s
  end.

Fixpoint int_rstrip (s : string) : string :=
  match s with
  | "" => ""
  | String c s' =>
      let r := int_rstrip s' in
      if is_int_space c && is_empty r then "" else String c r
  end.

Definition digit_of (c : ascii) : option Z :=
  let n := nat_of_ascii c in
  if (48 <=? n)%nat && (n <=? 57)%nat then Some (Z.of_nat (n - 48)) else None.

Fixpoint int_digits (acc : Z) (s : string) : option Z :=
  match s with
  | "" => Some acc
  | String c s' =>
      match digit_of c with
      | Some d => int_digits (10 * acc + d) s'
      | None =>
          if Ascii.eqb c "_" then
            match s' with
            | String c' s'' =>
                match digit_of c' with
                | Some d => int_digits (10 * acc + d) s''
                | None => None
                end
            | "" => None
            end
          else None
      end
  end.

Definition int_unsigned (s : string) : option Z :=
  match s with
  | String c s' =>
      match digit_of c with
      | Some d => int_digits d s'
      | None => None
      end
  | "" => None
  end.

Definition int (s : string) : option Z :=
  match int_rstrip (int_lstrip s) with
  | String c s' =>
      if Ascii.eqb c "-" then option_map Z.opp (int_unsigned s')
      else if Ascii.eqb c "+" then int_unsigned s'
      else int_unsigned (String c s')
  | "" => None
  end.

(** Python dicts keep insertion order; assigning to an existing key keeps
    its position. *)
Definition dict (V : Type) : Type := list (string * V).

Fixpoint dict_get {V} (k : string) (d : dict V) : option V :=
  match d with
  | [] => None
  | (k', v) :: d' => if String.eqb k' k then Some v else dict_get k d'
  end.

Fixpoint dict_set {V} (k : string) (v : V) (d : dict V) : dict V :=
  match d with
  | [] => [(k, v)]
  | (k', v') :: d' =>
      if String.eqb k' k then (k', v) :: d' else (k', v') :: dict_set k v d'
  end.

Definition dict_mem {V} (k : string) (d : dict V) : bool :=
  match dict_get k d with Some _ => true | None => false end.

Definition keys {V} (d : dict V) : list string := map fst d.

End Py.

(* ===================================================================== *)
(** ** The transfer encoding *)
(* ===================================================================== *)

(** [base64.b64encode] and [base64.b64decode] with their default arguments,
    as the standard library implements them: the encoder maps three bytes
    to four characters of the alphabet and pads the last group with [=];
    the decoder is the non-strict one ([binascii.a2b_base64]): characters
    outside the alphabet are skipped, padding ends the input once the
    current group holds at least two characters, and an incomplete group
    at the end of the input is an error ([binascii.Error], a subclass of
    [ValueError]). *)
Module Base64.

Definition alphabet : string :=
  "ABCDEFGHIJKLMNOPQRSTUVWXYZabcdefghijklmnopqrstuvwxyz0123456789+/".

Definition table_b2a (i : N) : ascii :=
  match String.get (N.to_nat i) alphabet with
  | Some c => c
  | None => "="%char
  end.

Fixpoint index_of (c : ascii) (s : string) (i : N) : option N :=
  match s with
  | "" => None
  | String c' s' => if Ascii.eqb c' c then Some i else index_of c s' (N.succ i)
  end.

Definition table_a2b (c : ascii) : option N := index_of c alphabet 0.

Definition to_N (b : byte) : N := Byte.to_N b.

(** The low eight bits of [n], as a byte. *)
Definition of_N (n : N) : byte := byte_of_ascii (ascii_of_N n).

Definition sextet0 (b0 : byte) : N := N.shiftr (to_N b0) 2.
Definition sextet1 (b0 b1 : byte) : N :=
  N.lor (N.shiftl (N.land (to_N b0) 3) 4) (N.shiftr (to_N b1) 4).
Definition sextet2 (b1 b2 : byte) : N :=
  N.lor (N.shiftl (N.land (to_N b1) 15) 2) (N.shiftr (to_N b2) 6).
Definition sextet3 (b2 : byte) : N := N.land (to_N b2) 63.

Definition zero : byte := of_N 0.

Fixpoint b64encode (bs : list byte) : string :=
  match bs with
  | [] => ""
  | [b0] =>
      String (table_b2a (sextet0 b0))
        (String (table_b2a (sextet1 b0 zero)) "==")
  | [b0; b1] =>
      String (table_b2a (sextet0 b0))
        (String (table_b2a (sextet1 b0 b1))
           (String (table_b2a (sextet2 b1 zero)) "="))
  | b0 :: b1 :: b2 :: rest =>
      String (table_b2a (sextet0 b0))
        (String (table_b2a (sextet1 b0 b1))
           (String (table_b2a (sextet2 b1 b2))
              (String (table_b2a (sextet3 b2)) (b64encode rest))))
  end.

(** The decoding loop: [quad_pos] characters of the current group have
    been read, [leftchar] holds the bits not yet written out, [pads]
    counts the padding characters seen in a row. *)
Fixpoint a2b_base64 (quad_pos : nat) (leftchar : N) (pads : nat) (s : string)
  : option (list byte) :=
  match s with
  | "" => if (quad_pos =? 0)%nat then Some [] else None
  | String c s' =>
      if Ascii.eqb c "=" then
        if (2 <=? quad_pos)%nat && (4 <=? quad_pos + S pads)%nat then Some []
        else a2b_base64 quad_pos leftchar
               (if (2 <=? quad_pos)%nat then S pads else pads) s'
      else
        match table_a2b c with
        | None => a2b_base64 quad_pos leftchar pads s'
        | Some v =>
            match quad_pos with
            | 0%nat => a2b_base64 1 v 0 s'
            | 1%nat =>
                option_map
                  (cons (of_N (N.lor (N.shiftl leftchar 2) (N.shiftr v 4))))
                  (a2b_base64 2 (N.land v 15) 0 s')
            | 2%nat =>
                option_map
                  (cons (of_N (N.lor (N.shiftl leftchar 4) (N.shiftr v 2))))
                  (a2b_base64 3 (N.land v 3) 0 s')
            | _ =>
                option_map
                  (cons (of_N (N.lor (N.shiftl leftchar 6) v)))
                  (a2b_base64 0 0 0 s')
            end
        end
  end.

Fixpoint is_ascii (s : string) : bool :=
  match s with
  | "" => true
  | String c s' => (nat_of_ascii c <? 128)%nat && is_ascii s'
  end.

(** [None] stands for the [ValueError] raised on text that is not ASCII or
    is not a complete encoding. *)
Definition b64decode (s : string) : option (list byte) :=
  if is_ascii s then a2b_base64 0 0 0 s else None.

End Base64.

(* ===================================================================== *)
(** ** The program *)
(* ===================================================================== *)

Module Eachare.
Import Py.
Local Open Scope string_scope.

(** *** Global state *)

(** A value of the [peers] dict: [{"status": ..., "clock": ...}].  The
    status is whatever text was stored; the program writes ["ONLINE"] and
    ["OFFLINE"] itself and copies the status field of a [PEER_LIST] entry
    as received. *)
Record PeerInfo := mkPeer { status : string; clock : Z }.

(** What the node puts on the network: the text handed to [sendall] on the
    connection with [dest], and the closing of that connection. *)
Inductive net_event :=
| Send (dest data : string)
| Close (dest : string).

(** The module-level variables [server_id], [global_clock] and [peers];
    the content of the directory [shared_dir] (regular files by name, in
    [os.listdir] order); what was printed; the number of sockets
    [send_message] has opened so far; and the network trace. *)
Record World := mkWorld {
  server_id : string;
  global_clock : Z;
  peers : dict PeerInfo;
  shared_dir : dict (list byte);
  stdout : list string;
  sockets : nat;
  wire : list net_event
}.

Definition set_clock (c : Z) (w : World) : World :=
  mkWorld (server_id w) c (peers w) (shared_dir w) (stdout w) (sockets w) (wire w).
Definition set_peers (p : dict PeerInfo) (w : World) : World :=
  mkWorld (server_id w) (global_clock w) p (shared_dir w) (stdout w) (sockets w) (wire w).
Definition set_shared_dir (d : dict (list byte)) (w : World) : World :=
  mkWorld (server_id w) (global_clock w) (peers w) d (stdout w) (sockets w) (wire w).
Definition add_stdout (line : string) (w : World) : World :=
  mkWorld (server_id w) (global_clock w) (peers w) (shared_dir w)
          (stdout w ++ [line])%list (sockets w) (wire w).
Definition incr_sockets (w : World) : World :=
  mkWorld (server_id w) (global_clock w) (peers w) (shared_dir w) (stdout w)
          (S (sockets w)) (wire w).
Definition add_wire (e : net_event) (w : World) : World :=
  mkWorld (server_id w) (global_clock w) (peers w) (shared_dir w) (stdout w)
          (sockets w) (wire w ++ [e])%list.

(** *** Exceptions and the monad *)

Inductive exn_class :=
| ValueError | IndexError | KeyError | OverflowError
| SocketTimeout | ConnectionRefusedError | OSError | SystemExit.

(** An exception and the text [str(e)] prints for it. *)
Inductive exn := Exn (cls : exn_class) (text : string).

Definition exn_text (e : exn) : string := let 'Exn _ t := e in t.

(** [except Exception] catches everything the program can raise but
    [SystemExit]. *)
Definition is_Exception (e : exn) : bool :=
  match e with Exn SystemExit _ => false | _ => true end.

Definition is_ValueError (e : exn) : bool :=
  match e with Exn ValueError _ => true | _ => false end.

(** A computation reads and writes the globals and either returns or
    raises; what it did before raising stays done. *)
Definition M (A : Type) : Type := World -> (exn + A) * World.

Definition ret {A} (a : A) : M A := fun w => (inr a, w).

Definition bind {A B} (m : M A) (f : A -> M B) : M B :=
  fun w => match m w with
           | (inr a, w') => f a w'
           | (inl e, w') => (inl e, w')
           end.

Definition raise {A} (e : exn) : M A := fun w => (inl e, w).

Definition gets {A} (f : World -> A) : M A := fun w => (inr (f w), w).

Definition modify (f : World -> World) : M unit := fun w => (inr tt, f w).

(** [try: m] with the outcome handed to the [except] clauses. *)
Definition try {A} (m : M A) : M (exn + A) :=
  fun w => let (r, w') := m w in (inr r, w').

(** [try: m finally: fin], where [fin] does not raise. *)
Definition finally {A} (m : M A) (fin : World -> World) : M A :=
  fun w => let (r, w') := m w in (r, fin w').

Notation "x <- c1 ;; c2" := (bind c1 (fun x => c2))
  (at level 100, c1 at next level, right associativity).
Notation "c1 ;; c2" := (bind c1 (fun _ => c2))
  (at level 100, right associativity).

Fixpoint for_each {A} (l : list A) (body : A -> M unit) : M unit :=
  match l with
  | [] => ret tt
  | x :: l' => body x ;; for_each l' body
  end.

Definition print (line : string) : M unit := modify (add_stdout line).

Definition py_int (s : string) : M Z :=
  match int s with
  | Some z => ret z
  | None => raise (Exn ValueError ("invalid literal for int() with base 10: " ++ s))
  end.

(** *** The logical clock *)

Definition update_clock : M Z :=
  modify (fun w => set_clock (global_clock w + 1) w) ;;
  c <- gets global_clock ;;
  print ("=> Atualizando relogio para " ++ str c) ;;
  ret c.

(** *** The peer registry *)

(** [if peers[peer]["status"] != new_status: peers[peer]["status"] =
    new_status; print(...)], the update every caller of [send_message]
    applies to the peer it contacted.  [peers[peer]] raises [KeyError] on a
    missing key. *)
Definition set_status (peer new_status : string) : M unit :=
  ps <- gets peers ;;
  match dict_get peer ps with
  | None => raise (Exn KeyError peer)
  | Some info =>
      if negb (status info =? new_status) then
        modify (set_peers (dict_set peer (mkPeer new_status (clock info)) ps)) ;;
        print ("Atualizando peer " ++ peer ++ " status " ++ new_status)
      else ret tt
  end.

(** The body of the [HELLO] branch of [handle_client]. *)
Definition upsert_online (origem : string) (msg_clock : Z) : M unit :=
  ps <- gets peers ;;
  (match dict_get origem ps with
   | Some info =>
       if negb (status info =? "ONLINE")
       then modify (set_peers (dict_set origem (mkPeer "ONLINE" msg_clock) ps))
       else modify (set_peers (dict_set origem (mkPeer (status info) msg_clock) ps))
   | None => modify (set_peers (dict_set origem (mkPeer "ONLINE" msg_clock) ps))
   end) ;;
  print ("Atualizando peer " ++ origem ++ " status ONLINE e relógio para " ++ str msg_clock).

(** The body of the [BYE] branch of [handle_client]. *)
Definition mark_offline (origem : string) : M unit :=
  ps <- gets peers ;;
  match dict_get origem ps with
  | Some info =>
      if negb (status info =? "OFFLINE") then
        modify (set_peers (dict_set origem (mkPeer "OFFLINE" (clock info)) ps)) ;;
        print ("Atualizando peer " ++ origem ++ " status OFFLINE")
      else ret tt
  | None => ret tt
  end.

(** The registry update of [command_get_peers] for one listed peer. *)
Definition merge (peer_id st : string) (ck : Z) : M unit :=
  ps <- gets peers ;;
  match dict_get peer_id ps with
  | Some info =>
      if negb (status info =? st) || negb (clock info =? ck)%Z then
        modify (set_peers (dict_set peer_id (mkPeer st ck) ps)) ;;
        print ("Atualizando peer " ++ peer_id ++ " status " ++ st
               ++ " e relógio para " ++ str ck)
      else ret tt
  | None =>
      modify (set_peers (dict_set peer_id (mkPeer st ck) ps)) ;;
      print ("Adicionando novo peer " ++ peer_id ++ " status " ++ st
             ++ " e relógio para " ++ str ck)
  end.

(** *** The inbound server *)

(** An accepted connection: the printed form of [addr], the text the peer
    wrote, and whether the peer still reads ([sendall] raises otherwise). *)
Record Conn := mkConn {
  conn_addr : string;
  conn_data : string;
  conn_open : bool
}.

(** [sock.recv(n).decode()] on ASCII text: at most [n] bytes of what the
    other side wrote.  On bytes outside ASCII [decode] can raise and
    Python's whitespace and digits are wider than those of [Py]; the
    statements about received text take it to be ASCII. *)
Definition recv (n : nat) (written : string) : string := substring 0 n written.

Definition conn_sendall (conn : Conn) (data : string) : M unit :=
  if conn_open conn then modify (add_wire (Send (conn_addr conn) data))
  else raise (Exn OSError "[Errno 32] Broken pipe").

Definition peer_entry (e : string * PeerInfo) : string :=
  fst e ++ ":" ++ status (snd e) ++ ":" ++ str (clock (snd e)).

Definition file_entry (e : string * list byte) : string :=
  fst e ++ ":" ++ str (Z.of_nat (List.length (snd e))).

Definition handle_hello (origem : string) (msg_clock : Z) : M unit :=
  upsert_online origem msg_clock.

Definition handle_get_peers (conn : Conn) (origem : string) : M unit :=
  ps <- gets peers ;;
  let lista_peers :=
    map peer_entry (filter (fun e => negb (fst e =? origem)) ps) in
  let total := List.length lista_peers in
  sid <- gets server_id ;;
  c <- update_clock ;;
  let reply_msg := sid ++ " " ++ str c ++ " PEER_LIST " ++ str (Z.of_nat total) in
  let reply_msg :=
    if (0 <? total)%nat then reply_msg ++ " " ++ join " " lista_peers
    else reply_msg in
  let reply_msg := reply_msg ++ nl in
  r <- try (conn_sendall conn reply_msg) ;;
  match r with
  | inr _ => ret tt
  | inl e =>
      if is_Exception e
      then print ("Erro ao enviar resposta para " ++ origem ++ ": " ++ exn_text e)
      else raise e
  end.

Definition handle_ls (conn : Conn) (origem : string) : M unit :=
  r <- try (
    files <- gets shared_dir ;;
    let files_info := map file_entry files in
    let total_files := List.length files_info in
    sid <- gets server_id ;;
    c <- update_clock ;;
    let reply_msg :=
      sid ++ " " ++ str c ++ " LS_LIST " ++ str (Z.of_nat total_files) in
    let reply_msg :=
      if (0 <? total_files)%nat then reply_msg ++ " " ++ join " " files_info
      else reply_msg in
    conn_sendall conn (reply_msg ++ nl)) ;;
  match r with
  | inr _ => ret tt
  | inl e =>
      if is_Exception e
      then print ("Erro ao enviar resposta LS_LIST para " ++ origem ++ ": "
                  ++ exn_text e)
      else raise e
  end.

(** [args] is [parts[3:]].  The test
    [os.path.isfile(os.path.join(shared_dir, nome_arquivo))] is the lookup
    of the name in the directory, which it is for a name without [/]. *)
Definition handle_dl (conn : Conn) (args : list string) : M unit :=
  match args with
  | nome_arquivo :: _ =>
      files <- gets shared_dir ;;
      match dict_get nome_arquivo files with
      | Some conteudo_binario =>
          let conteudo_base64 := Base64.b64encode conteudo_binario in
          sid <- gets server_id ;;
          c <- update_clock ;;
          conn_sendall conn
            (sid ++ " " ++ str c ++ " FILE " ++ nome_arquivo ++ " 0 0 "
             ++ conteudo_base64 ++ nl)
      | None => print ("Arquivo " ++ nome_arquivo ++ " não encontrado.")
      end
  | [] => ret tt
  end.

(** The [if]/[elif] chain on [msg_type]. *)
Definition dispatch (conn : Conn) (origem : string) (msg_clock : Z)
    (msg_type : string) (args : list string) : M unit :=
  if msg_type =? "HELLO" then handle_hello origem msg_clock
  else if msg_type =? "GET_PEERS" then handle_get_peers conn origem
  else if msg_type =? "BYE" then mark_offline origem
  else if msg_type =? "LS" then handle_ls conn origem
  else if msg_type =? "DL" then handle_dl conn args
  else ret tt.

(** The receive-side clock update. *)
Definition observe (msg_clock : Z) : M unit :=
  modify (fun w => set_clock (Z.max (global_clock w) msg_clock + 1) w) ;;
  c <- gets global_clock ;;
  print ("=> Atualizando relogio para " ++ str c).

(** The [try] block of [handle_client]. *)
Definition handle_client_body (conn : Conn) : M unit :=
  let data := recv 4096 (conn_data conn) in
  if is_empty data then ret tt
  else
    let data := strip data in
    print ("Mensagem recebida: " ++ dquote ++ data ++ dquote) ;;
    match split data with
    | origem :: p1 :: msg_type :: args =>
        msg_clock <- py_int p1 ;;
        observe msg_clock ;;
        dispatch conn origem msg_clock msg_type args
    | _ => ret tt
    end.

Definition handle_client (conn : Conn) : M unit :=
  finally
    (r <- try (handle_client_body conn) ;;
     match r with
     | inr _ => ret tt
     | inl e =>
         if is_Exception e
         then print ("Erro no tratamento da conexão de " ++ conn_addr conn
                     ++ ": " ++ exn_text e)
         else raise e
     end)
    (add_wire (Close (conn_addr conn))).

(** *** The outbound messenger *)

(** What the network does to one connection attempt of [send_message]. *)
Inductive net_error :=
| Timeout
| Refused
| Broken (text : string).

Inductive attempt_outcome :=
| ConnectFails (e : net_error)
| SendFails (e : net_error)
| RecvFails (e : net_error)
| PeerReplies (data : string).

Definition exn_of (e : net_error) : exn :=
  match e with
  | Timeout => Exn SocketTimeout "timed out"
  | Refused => Exn ConnectionRefusedError "[Errno 111] Connection refused"
  | Broken t => Exn OSError t
  end.

(** The three values [send_message] returns: the reply text, [True], or
    [None]. *)
Inductive send_result :=
| Str (reply : string)
| PyTrue
| PyNone.

(** [if reply:] *)
Definition truthy (r : send_result) : bool :=
  match r with
  | Str s => negb (is_empty s)
  | PyTrue => true
  | PyNone => false
  end.

Section Network.

(** The outcome of the [k]-th socket the node opens. *)
Variable net : nat -> attempt_outcome.

Definition sock_connect (port : Z) (o : attempt_outcome) : M unit :=
  if (port <? 0)%Z || (65535 <? port)%Z
  then raise (Exn OverflowError "connect(): port must be 0-65535.")
  else match o with
       | ConnectFails e => raise (exn_of e)
       | _ => ret tt
       end.

Definition sock_sendall (peer_addr data : string) (o : attempt_outcome) : M unit :=
  match o with
  | SendFails e => raise (exn_of e)
  | _ => modify (add_wire (Send peer_addr data))
  end.

Definition sock_recv (o : attempt_outcome) : M string :=
  match o with
  | RecvFails e => raise (exn_of e)
  | PeerReplies data => ret (recv 4096 data)
  | _ => ret ""
  end.

(** The [with socket.socket(...) as sock:] block of one attempt. *)
Definition attempt (peer_addr : string) (port : Z) (message : string)
    (expect_reply : bool) : M send_result :=
  k <- gets sockets ;;
  modify incr_sockets ;;
  finally
    (sock_connect port (net k) ;;
     msg_clock <- update_clock ;;
     sid <- gets server_id ;;
     let formatted_message :=
       sid ++ " " ++ str msg_clock ++ " " ++ strip message ++ nl in
     print ("Encaminhando mensagem " ++ dquote ++ strip formatted_message
            ++ dquote ++ " para " ++ peer_addr) ;;
     sock_sendall peer_addr formatted_message (net k) ;;
     if expect_reply then
       reply <- sock_recv (net k) ;;
       ret (Str reply)
     else ret PyTrue)
    (add_wire (Close peer_addr)).

(** [for attempt in range(max_retries): try: ... except ...], then
    [return None]. *)
Fixpoint send_loop (peer_addr : string) (port : Z) (message : string)
    (expect_reply : bool) (max_retries : Z) (attempts : list nat)
  : M send_result :=
  match attempts with
  | [] => ret PyNone
  | attempt_no :: rest =>
      r <- try (attempt peer_addr port message expect_reply) ;;
      match r with
      | inr v => ret v
      | inl (Exn SocketTimeout _) =>
          print ("Timeout ao conectar com " ++ peer_addr ++ " (tentativa "
                 ++ str (Z.of_nat attempt_no + 1) ++ "/" ++ str max_retries ++ ")") ;;
          send_loop peer_addr port message expect_reply max_retries rest
      | inl (Exn ConnectionRefusedError _) =>
          print ("Conexão recusada por " ++ peer_addr) ;;
          ret PyNone
      | inl e =>
          if is_Exception e then
            print ("Erro ao enviar mensagem para " ++ peer_addr ++ ": " ++ exn_text e) ;;
            send_loop peer_addr port message expect_reply max_retries rest
          else raise e
      end
  end.

(** [send_message(peer_addr, message, expect_reply, timeout, max_retries)].
    The timeout is the network's to enforce and is part of [net]. *)
Definition send_message (peer_addr message : string) (expect_reply : bool)
    (max_retries : Z) : M send_result :=
  match split_on ":" peer_addr with
  | [ip; port_str] =>
      port <- py_int port_str ;;
      send_loop peer_addr port message expect_reply max_retries
                (seq 0 (Z.to_nat max_retries))
  | _ :: _ :: _ :: _ =>
      raise (Exn ValueError "too many values to unpack (expected 2)")
  | _ =>
      raise (Exn ValueError "not enough values to unpack (expected 2, got 1)")
  end.

(** *** Discovery and transfer *)

(** The body of [for peer_info in new_peers:] in [command_get_peers]. *)
Definition process_peer_info (peer_info : string) : M unit :=
  r <- try (
    match split_on ":" peer_info with
    | p0 :: p1 :: p2 :: rest =>
        let peer_id := p0 ++ ":" ++ p1 in
        let st := p2 in
        ck <- match rest with
              | p3 :: _ => py_int p3
              | [] => raise (Exn IndexError "list index out of range")
              end ;;
        sid <- gets server_id ;;
        if peer_id =? sid then ret tt
        else merge peer_id st ck
    | _ => ret tt
    end) ;;
  match r with
  | inr _ => ret tt
  | inl e =>
      if is_Exception e
      then print ("Erro ao processar peer " ++ peer_info ++ ": " ++ exn_text e)
      else raise e
  end.

(** The [try] block of [command_get_peers] on a reply. *)
Definition ingest_peer_list (peer_addr reply : string) : M unit :=
  let parts := split (strip reply) in
  match parts with
  | _ :: _ :: p2 :: p3 :: _ =>
      if p2 =? "PEER_LIST" then
        total <- py_int p3 ;;
        let new_peers :=
          if (0 <? total)%Z then slice 4 (Z.to_nat total) parts else [] in
        (if negb (Z.of_nat (List.length new_peers) =? total)%Z then
           print ("Aviso: número de peers recebidos ("
                  ++ str (Z.of_nat (List.length new_peers))
                  ++ ") difere do total informado (" ++ str total ++ ")")
         else ret tt) ;;
        for_each new_peers process_peer_info ;;
        set_status peer_addr "ONLINE"
      else print ("Resposta inválida de " ++ peer_addr ++ ": " ++ reply)
  | _ => print ("Resposta inválida de " ++ peer_addr ++ ": " ++ reply)
  end.

(** The body of [for peer_addr in current_peers:] in [command_get_peers]. *)
Definition get_peers_from (peer_addr : string) : M unit :=
  msg_clock <- update_clock ;;
  reply <- send_message peer_addr "GET_PEERS" true 2 ;;
  if truthy reply then
    match reply with
    | Str reply =>
        r <- try (ingest_peer_list peer_addr reply) ;;
        match r with
        | inr _ => ret tt
        | inl e =>
            if is_Exception e
            then print ("Erro ao processar resposta de " ++ peer_addr ++ ": "
                        ++ exn_text e)
            else raise e
        end
    | _ => ret tt
    end
  else set_status peer_addr "OFFLINE".

Definition command_get_peers : M unit :=
  current_peers <- gets (fun w => keys (peers w)) ;;
  for_each current_peers get_peers_from.

(** The files found so far: [(nome, tamanho, peer)]. *)
Definition found := (string * Z * string)%type.

(** [for arquivo_info in arquivos:] of [command_search_files]; the entries
    read before a malformed one stay in the list. *)
Fixpoint parse_files (peer_addr : string) (arquivos : list string)
    (acc : list found) : list found * option exn :=
  match arquivos with
  | [] => (acc, None)
  | arquivo_info :: rest =>
      match split_on ":" arquivo_info with
      | [nome; tamanho] =>
          match int tamanho with
          | Some t => parse_files peer_addr rest (acc ++ [(nome, t, peer_addr)])%list
          | None =>
              (acc, Some (Exn ValueError
                            ("invalid literal for int() with base 10: " ++ tamanho)))
          end
      | _ :: _ :: _ :: _ =>
          (acc, Some (Exn ValueError "too many values to unpack (expected 2)"))
      | _ =>
          (acc, Some (Exn ValueError
                        "not enough values to unpack (expected 2, got 1)"))
      end
  end.

(** The [try] block of the LS fan-out on a reply. *)
Definition ingest_ls_list (peer_addr reply : string) (acc : list found)
  : M (list found) :=
  let parts := split (strip reply) in
  match parts with
  | _ :: _ :: p2 :: p3 :: _ =>
      if p2 =? "LS_LIST" then
        match int p3 with
        | None =>
            print ("Erro ao processar resposta de " ++ peer_addr ++ ": "
                   ++ "invalid literal for int() with base 10: " ++ p3) ;;
            ret acc
        | Some total =>
            let arquivos :=
              if (0 <? total)%Z then slice 4 (Z.to_nat total) parts else [] in
            match parse_files peer_addr arquivos acc with
            | (acc', Some e) =>
                print ("Erro ao processar resposta de " ++ peer_addr ++ ": "
                       ++ exn_text e) ;;
                ret acc'
            | (acc', None) =>
                r <- try (set_status peer_addr "ONLINE") ;;
                match r with
                | inr _ => ret acc'
                | inl e =>
                    if is_Exception e then
                      print ("Erro ao processar resposta de " ++ peer_addr ++ ": "
                             ++ exn_text e) ;;
                      ret acc'
                    else raise e
                end
            end
        end
      else
        print ("Resposta inválida de " ++ peer_addr ++ ": " ++ reply) ;;
        ret acc
  | _ =>
      print ("Resposta inválida de " ++ peer_addr ++ ": " ++ reply) ;;
      ret acc
  end.

(** The body of [for peer_addr in online_peers:] in
    [command_search_files]. *)
Definition ls_from (peer_addr : string) (acc : list found) : M (list found) :=
  reply <- send_message peer_addr "LS" true 2 ;;
  if truthy reply then
    match reply with
    | Str reply => ingest_ls_list peer_addr reply acc
    | _ => ret acc
    end
  else
    set_status peer_addr "OFFLINE" ;;
    ret acc.

Fixpoint ls_fanout (online_peers : list string) (acc : list found)
  : M (list found) :=
  match online_peers with
  | [] => ret acc
  | peer_addr :: rest =>
      acc' <- ls_from peer_addr acc ;;
      ls_fanout rest acc'
  end.

Fixpoint print_found (idx : Z) (l : list found) : M unit :=
  match l with
  | [] => ret tt
  | (nome, tamanho, peer) :: l' =>
      print ("[" ++ str idx ++ "] " ++ nome ++ " | " ++ str tamanho ++ " | " ++ peer) ;;
      print_found (idx + 1) l'
  end.

(** The download of the chosen entry: [message = f"DL {nome_arquivo} 0 0"]
    and what follows inside the [try] of [command_search_files]. *)
Definition download (nome_arquivo peer_addr : string) : M unit :=
  let message := "DL " ++ nome_arquivo ++ " 0 0" in
  reply <- send_message peer_addr message true 2 ;;
  if truthy reply then
    match reply with
    | Str reply =>
        print ("Resposta recebida: " ++ dquote ++ reply ++ dquote) ;;
        let parts := split (strip reply) in
        match parts with
        | _ :: _ :: p2 :: p3 :: _ :: p5 :: _ =>
            if p2 =? "FILE" then
              let nome_arquivo := p3 in
              let conteudo_base64 := p5 in
              if negb (is_empty conteudo_base64) then
                match Base64.b64decode conteudo_base64 with
                | Some conteudo_binario =>
                    modify (fun w =>
                      set_shared_dir
                        (dict_set nome_arquivo conteudo_binario (shared_dir w)) w) ;;
                    print ("Download do arquivo " ++ nome_arquivo ++ " finalizado.")
                | None => raise (Exn ValueError "Incorrect padding")
                end
              else print ("Conteúdo do arquivo " ++ nome_arquivo ++ " está vazio.")
            else print ("Resposta inválida de " ++ peer_addr ++ ": " ++ reply)
        | _ => print ("Resposta inválida de " ++ peer_addr ++ ": " ++ reply)
        end
    | _ => ret tt
    end
  else print ("Falha ao baixar o arquivo de " ++ peer_addr).

(** The part of [command_search_files] that follows the listing, on the
    operator's answer [escolha]. *)
Definition choose_and_download (arquivos_disponiveis : list found)
    (escolha : string) : M unit :=
  r <- try (
    n <- py_int (strip escolha) ;;
    let idx := (n - 1)%Z in
    if (idx <? 0)%Z || (Z.of_nat (List.length arquivos_disponiveis) <=? idx)%Z
    then print "Opção inválida!"
    else
      match nth_error arquivos_disponiveis (Z.to_nat idx) with
      | Some (nome_arquivo, _, peer_addr) => download nome_arquivo peer_addr
      | None => ret tt
      end) ;;
  match r with
  | inr _ => ret tt
  | inl e =>
      if is_ValueError e then print "Digite um número válido2!"
      else raise e
  end.

Definition is_online (e : string * PeerInfo) : bool := status (snd e) =? "ONLINE".

Definition command_search_files (escolha : string) : M unit :=
  online_peers <- gets (fun w => keys (filter is_online (peers w))) ;;
  arquivos_disponiveis <- ls_fanout online_peers [] ;;
  print (nl ++ "Arquivos encontrados na rede:") ;;
  print "Nome | Tamanho | Peer" ;;
  print "[ 0] <Cancelar> | |" ;;
  print_found 1 arquivos_disponiveis ;;
  print "Digite o numero do arquivo para fazer o download: " ;;
  choose_and_download arquivos_disponiveis escolha.

(** The probe of [command_list_peers] for the chosen peer. *)
Definition hello_probe (peer_addr : string) : M unit :=
  reply <- send_message peer_addr "HELLO" false 2 ;;
  let new_status :=
    match reply with PyNone => "OFFLINE" | _ => "ONLINE" end in
  set_status peer_addr new_status.

(** [for idx, (peer, info) in enumerate(peers_list, start=1): print(...)]
    of [command_list_peers]. *)
Fixpoint print_peers (idx : Z) (l : dict PeerInfo) : M unit :=
  match l with
  | [] => ret tt
  | (peer, info) :: l' =>
      print ("[" ++ str idx ++ "] " ++ peer ++ " " ++ status info ++ " "
             ++ str (clock info)) ;;
      print_peers (idx + 1) l'
  end.

(** What [command_list_peers] does with the line [escolha] that [input]
    returns, [peers_list] being the list it has just shown; the result
    tells whether the [while True:] goes on. *)
Definition probe_choice (peers_list : dict PeerInfo) (escolha : string) : M bool :=
  let escolha := strip escolha in
  if escolha =? "0" then ret false
  else
    r <- try (
      n <- py_int escolha ;;
      let idx := (n - 1)%Z in
      if (idx <? 0)%Z || (Z.of_nat (List.length peers_list) <=? idx)%Z
      then print "Opção inválida!"
      else
        match nth_error peers_list (Z.to_nat idx) with
        | Some (peer_addr, _) => hello_probe peer_addr
        | None => ret tt
        end) ;;
    match r with
    | inr _ => ret true
    | inl e =>
        if is_ValueError e
        then (print "Digite um número válido1!" ;; ret true)
        else raise e
    end.

(** One turn of the [while True:] of [command_list_peers]. *)
Definition list_peers_round (escolha : string) : M bool :=
  peers_list <- gets peers ;;
  match peers_list with
  | [] => print "Nenhum peer conhecido." ;; ret false
  | _ :: _ =>
      print (nl ++ "Lista de peers:") ;;
      print "[0] Voltar para o menu anterior" ;;
      print_peers 1 peers_list ;;
      print "> " ;;
      probe_choice peers_list escolha
  end.

(** The notification loop of [command_exit]. *)
Definition bye_fanout : M unit :=
  online_peers <- gets (fun w => keys (filter is_online (peers w))) ;;
  for_each online_peers (fun peer_addr =>
    _ <- send_message peer_addr "BYE" false 2 ;; ret tt).

End Network.

(** [load_neighbors(neighbors_file)]; [content] is the lines the file
    reads as, [None] when there is no such file. *)
Definition load_neighbors (neighbors_file : string)
    (content : option (list string)) : M unit :=
  match content with
  | None =>
      print ("Arquivo de vizinhos " ++ neighbors_file ++ " não existe.") ;;
      raise (Exn SystemExit "1")
  | Some lines =>
      for_each lines (fun line =>
        let line := strip line in
        sid <- gets server_id ;;
        if negb (is_empty line) && negb (line =? sid) then
          ps <- gets peers ;;
          if dict_mem line ps then ret tt
          else
            modify (set_peers (dict_set line (mkPeer "OFFLINE" 0) ps)) ;;
            print ("Adicionando novo peer " ++ line ++ " status OFFLINE e relógio 0")
        else ret tt)
  end.

End Eachare.

(* ===================================================================== *)
(** ** Notions used in the statements *)
(* ===================================================================== *)

Import Py Eachare.
Local Open Scope string_scope.

(** *** Worlds and frames *)

(** A node that has just started: identity and registry given, clock [0],
    nothing shared, printed or sent. *)
Definition node (sid : string) (ps : dict PeerInfo) : World :=
  mkWorld sid 0 ps [] [] 0 [].

(** [P] holds after [m] whenever it held before, whether [m] returns or
    raises. *)
Definition preserves {A} (P : World -> Prop) (m : M A) : Prop :=
  forall w, P w -> P (snd (m w)).

(** A property of the identity and the registry alone. *)
Definition registry_pred (P : World -> Prop) : Prop :=
  forall w w', server_id w' = server_id w -> peers w' = peers w -> P w -> P w'.

(** A property of the clock and the network trace alone. *)
Definition traffic_pred (P : World -> Prop) : Prop :=
  forall w w', global_clock w' = global_clock w -> wire w' = wire w -> P w -> P w'.

(** *** Text *)

(** Text in which every character is ASCII.  On such text [decode] and
    [encode] are the identity, [str.isspace] is [is_space] and the digits
    [int] accepts are those of [Py.int]; the statements that depend on how
    text is read are about such text. *)
Definition ascii_text (s : string) : Prop := Base64.is_ascii s = true.

(** *** Fields of a line *)

(** Text without whitespace, and a field as [split] yields them. *)
Fixpoint no_space (s : string) : bool :=
  match s with
  | "" => true
  | String c s' => negb (is_space c) && no_space s'
  end.

Definition is_token (s : string) : bool := negb (is_empty s) && no_space s.

(** *** The transfer encoding *)

(** The 256 bytes. *)
Definition all_bytes : list byte :=
  map (fun n => Base64.of_N (N.of_nat n)) (seq 0 256).

(** The facts about pairs of bytes on which decoding an encoded group
    rests: the sextets are below 64 and recombine into the bytes. *)
Definition recombines (b0 b1 : byte) : bool :=
  let s0 := Base64.sextet0 b0 in
  let s1 := Base64.sextet1 b0 b1 in
  let s2 := Base64.sextet2 b0 b1 in
  let s3 := Base64.sextet3 b1 in
  (s0 <? 64)%N && (s1 <? 64)%N && (s2 <? 64)%N && (s3 <? 64)%N
  && Byte.eqb (Base64.of_N (N.lor (N.shiftl s0 2) (N.shiftr s1 4))) b0
  && (N.land s1 15 =? N.shiftr (Base64.to_N b1) 4)%N
  && (N.shiftr s2 2 =? N.land (Base64.to_N b0) 15)%N
  && Byte.eqb (Base64.of_N (N.lor (N.shiftl (N.shiftr (Base64.to_N b0) 4) 4)
                                  (N.land (Base64.to_N b0) 15))) b0
  && Byte.eqb (Base64.of_N (N.lor (N.shiftl (N.land s2 3) 6) s3)) b1.

(** A character of the alphabet decodes to its index and is neither
    padding nor whitespace nor outside ASCII. *)
Definition alphabet_ok (i : N) : bool :=
  let c := Base64.table_b2a i in
  match Base64.table_a2b c with
  | Some j => (j =? i)%N
  | None => false
  end
  && negb (Ascii.eqb c "=") && negb (is_space c) && (nat_of_ascii c <? 128)%nat.

(** *** The inbound server *)

(** The world in which the handlers of a decoded message start: the
    message has been printed and the clock has been advanced past the
    remote one. *)
Definition observed (conn : Conn) (R : Z) (w : World) : World :=
  let data := strip (recv 4096 (conn_data conn)) in
  let c := (Z.max (global_clock w) R + 1)%Z in
  add_stdout ("=> Atualizando relogio para " ++ str c)
    (set_clock c
       (add_stdout ("Mensagem recebida: " ++ dquote ++ data ++ dquote) w)).

(** The [except]/[finally] wrapper of [handle_client] around a block. *)
Definition guarded (conn : Conn) (block : M unit) : M unit :=
  finally
    (r <- try block ;;
     match r with
     | inr _ => ret tt
     | inl e =>
         if is_Exception e
         then print ("Erro no tratamento da conexão de " ++ conn_addr conn
                     ++ ": " ++ exn_text e)
         else raise e
     end)
    (add_wire (Close (conn_addr conn))).



(** The [PEER_LIST] line for the registry entries [snapshot], stamped with
    clock [c]. *)
Definition peer_list_reply (sid : string) (c : Z) (snapshot : dict PeerInfo) : string :=
  let lista_peers := map peer_entry snapshot in
  let total := List.length lista_peers in
  sid ++ " " ++ str c ++ " PEER_LIST " ++ str (Z.of_nat total)
  ++ (if (0 <? total)%nat then " " ++ join " " lista_peers else "") ++ nl.

(** The line the [HELLO] branch prints. *)
Definition hello_line (origem : string) (msg_clock : Z) : string :=
  "Atualizando peer " ++ origem ++ " status ONLINE e relógio para " ++ str msg_clock.

(** The [FILE] line of [handle_client] for a file [nome] holding [bs],
    stamped with clock [c]. *)
Definition file_reply (sid : string) (c : Z) (nome : string) (bs : list byte) : string :=
  sid ++ " " ++ str c ++ " FILE " ++ nome ++ " 0 0 " ++ Base64.b64encode bs ++ nl.

(** *** The registry *)





(** *** The outbound messenger *)

(** An address [send_message] can connect to: [ip:port] with a port number
    in range. *)
Definition valid_address (peer_addr : string) (port : Z) : Prop :=
  exists ip port_str,
    split_on ":" peer_addr = [ip; port_str]
    /\ int port_str = Some port /\ (0 <= port <= 65535)%Z.

(** The error an attempt with outcome [o] ends in, if any; a failing
    [recv] is only met when a reply is awaited. *)
Definition raised (expect_reply : bool) (o : attempt_outcome) : option net_error :=
  match o with
  | ConnectFails e => Some e
  | SendFails e => Some e
  | RecvFails e => if expect_reply then Some e else None
  | PeerReplies _ => None
  end.

(** Timeouts and the errors handled by [except Exception]. *)
Definition retried (e : option net_error) : Prop :=
  e = Some Timeout \/ exists text, e = Some (Broken text).

(** What [recv] hands back on an attempt that meets no error. *)
Definition sock_reply (o : attempt_outcome) : string :=
  match o with
  | PeerReplies data => recv 4096 data
  | _ => ""
  end.

(** The request line [send_message] writes when the clock reads [c]. *)
Definition request_line (sid : string) (c : Z) (message : string) : string :=
  sid ++ " " ++ str c ++ " " ++ strip message ++ nl.

(** The number of messages handed to [sendall] in a trace. *)
Fixpoint count_sends (l : list net_event) : nat :=
  match l with
  | [] => 0
  | Send _ _ :: l' => S (count_sends l')
  | Close _ :: l' => count_sends l'
  end.

(** The text of the first message in a trace. *)
Definition first_sent (l : list net_event) : string :=
  match l with
  | Send _ data :: _ => data
  | _ => ""
  end.

(** *** The local listing *)

(** [sorted(l)] for a list of [str]: by code points, which for UTF-8 text
    is the order of the bytes. *)
Fixpoint sorted_insert (x : string) (l : list string) : list string :=
  match l with
  | [] => [x]
  | y :: l' => if (x <=? y)%string then x :: l else y :: sorted_insert x l'
  end.

Definition sorted (l : list string) : list string := fold_right sorted_insert [] l.

(** [list_local_files()]; [os.listdir] gives the names of the directory. *)
Definition list_local_files : M unit :=
  r <- try (
    files <- gets (fun w => keys (shared_dir w)) ;;
    match files with
    | [] => print "Nenhum arquivo no diretório compartilhado."
    | _ :: _ => for_each (sorted files) print
    end) ;;
  match r with
  | inr _ => ret tt
  | inl e =>
      if is_Exception e then print ("Erro ao listar arquivos: " ++ exn_text e)
      else raise e
  end.

Definition command_list_local_files : M unit :=
  print (nl ++ "Arquivos no diretório compartilhado:") ;;
  list_local_files.


(** *** Histories *)

(** What a node can be made to do: serve a connection, send a message,
    refresh its peer list, search for files, probe a peer, say goodbye,
    load a neighbor file, take one answer at the peer list, list its own
    files. *)
Inductive operation :=
| Serve (conn : Conn)
| SendMessage (peer_addr message : string) (expect_reply : bool) (max_retries : Z)
| RefreshPeers
| SearchFiles (escolha : string)
| Probe (peer_addr : string)
| Farewell
| Load (neighbors_file : string) (content : option (list string))
| ListPeers (escolha : string)
| ListLocalFiles.

Definition perform (net : nat -> attempt_outcome) (op : operation) (w : World) : World :=
  match op with
  | Serve conn => snd (handle_client conn w)
  | SendMessage peer_addr message expect_reply max_retries =>
      snd (send_message net peer_addr message expect_reply max_retries w)
  | RefreshPeers => snd (command_get_peers net w)
  | SearchFiles escolha => snd (command_search_files net escolha w)
  | Probe peer_addr => snd (hello_probe net peer_addr w)
  | Farewell => snd (bye_fanout net w)
  | Load f content => snd (load_neighbors f content w)
  | ListPeers escolha => snd (list_peers_round net escolha w)
  | ListLocalFiles => snd (command_list_local_files w)
  end.

Fixpoint history (net : nat -> attempt_outcome) (ops : list operation) (w : World)
  : World :=
  match ops with
  | [] => w
  | op :: ops' => history net ops' (perform net op w)
  end.

Definition is_search (op : operation) : bool :=
  match op with SearchFiles _ => true | _ => false end.

(** The exceptions of [m] are all caught by [except Exception]. *)
Definition catchable {A} (m : M A) : Prop :=
  forall w, match fst (m w) with
            | inl e => is_Exception e = true
            | inr _ => True
            end.

(** At most one message, and to [dest]. *)
Definition at_most_one_to (dest : string) (l : list net_event) : Prop :=
  l = [] \/ exists data, l = [Send dest data].

(** [m] writes nothing to the network; [m] writes at most one message, to
    [dest]. *)
Definition silent {A} (m : M A) : Prop :=
  forall w, wire (snd (m w)) = wire w.

Definition emits {A} (dest : string) (m : M A) : Prop :=
  forall w, exists tr, wire (snd (m w)) = (wire w ++ tr)%list /\ at_most_one_to dest tr.

(** *** Entries of the list replies *)

Fixpoint no_colon (s : string) : bool :=
  match s with
  | "" => true
  | String c s' => negb (Ascii.eqb c ":") && no_colon s'
  end.

(** Text that can stand as one part of a list entry: no whitespace and no
    colon. *)
Definition plain (s : string) : bool := no_space s && no_colon s.

(** A registry entry whose key is [ip:port] and which a [PEER_LIST] line
    can carry. *)
Definition listable (e : string * PeerInfo) : Prop :=
  (exists ip port, fst e = ip ++ ":" ++ port /\ plain ip = true /\ plain port = true)
  /\ plain (status (snd e)) = true.

(** What [command_get_peers] does with one listed peer once the entry is
    parsed: skip the node itself, merge the others. *)
Definition gossip_merge (e : string * PeerInfo) : M unit :=
  sid <- gets server_id ;;
  if fst e =? sid then ret tt
  else merge (fst e) (status (snd e)) (clock (snd e)).

(** The [LS_LIST] line for the files [files], stamped with clock [c]. *)
Definition ls_list_reply (sid : string) (c : Z) (files : dict (list byte)) : string :=
  let files_info := map file_entry files in
  let total_files := List.length files_info in
  sid ++ " " ++ str c ++ " LS_LIST " ++ str (Z.of_nat total_files)
  ++ (if (0 <? total_files)%nat then " " ++ join " " files_info else "") ++ nl.

(** A file as the search lists it: name, size, and the peer that has it. *)
Definition tagged (peer_addr : string) (e : string * list byte) : found :=
  (fst e, Z.of_nat (List.length (snd e)), peer_addr).

(** A file name a [LS_LIST] line can carry. *)
Definition listable_file (e : string * list byte) : Prop := plain (fst e) = true.

(** A peer of the file search and the answer it gives: the identity it
    signs with, its stamp, and its files. *)
Definition answer := (string * (string * Z * dict (list byte)))%type.

(** From socket [k] on, each peer in turn takes the request and answers
    with its [LS_LIST] line, which is ASCII text and fits one read. *)
Fixpoint all_answer (net : nat -> attempt_outcome) (k : nat) (answers : list answer)
  : Prop :=
  match answers with
  | [] => True
  | (peer_addr, (sid, c, files)) :: rest =>
      (exists port, valid_address peer_addr port)
      /\ is_token sid = true
      /\ Forall listable_file files
      /\ (String.length (ls_list_reply sid c files) <= 4096)%nat
      /\ ascii_text (ls_list_reply sid c files)
      /\ net k = PeerReplies (ls_list_reply sid c files)
      /\ all_answer net (S k) rest
  end.

(** The files of all answers, each tagged with the peer that has it. *)
Definition all_found (answers : list answer) : list found :=
  flat_map (fun a : answer => map (tagged (fst a)) (snd (snd a))) answers.

(** A name without [/]: [os.path.join(shared_dir, name)] is then the
    entry [name] of the shared directory. *)
Fixpoint no_slash (s : string) : bool :=
  match s with
  | "" => true
  | String c s' => negb (Ascii.eqb c "/") && no_slash s'
  end.

(** *** Traffic *)

(** The connection an event belongs to. *)
Definition dest_of (e : net_event) : string :=
  match e with Send d _ => d | Close d => d end.

(** What one call of the messenger may add to the world: [n] sockets at
    most, on each of them at most one message and one tick, all traffic
    addressed to [peer_addr], registry, directory and identity
    untouched. *)
Definition within_budget (peer_addr : string) (n : nat) (w w' : World) : Prop :=
  (sockets w <= sockets w' <= sockets w + n)%nat
  /\ (exists tr, wire w' = (wire w ++ tr)%list
                 /\ Forall (fun e => dest_of e = peer_addr) tr
                 /\ (count_sends tr <= sockets w' - sockets w)%nat)
  /\ (global_clock w <= global_clock w' <= global_clock w + Z.of_nat (sockets w' - sockets w))%Z
  /\ peers w' = peers w /\ shared_dir w' = shared_dir w /\ server_id w' = server_id w.

(** *** Commands *)

(** A registry key [send_message] can split into address and port. *)
Definition parseable (k : string) : Prop :=
  exists ip port_str port, split_on ":" k = [ip; port_str] /\ int port_str = Some port.

(** A registry key on which [send_message] raises [ValueError]. *)
Definition unparseable (k : string) : Prop :=
  match split_on ":" k with
  | [_; port_str] => int port_str = None
  | _ => True
  end.

(** The peers the file search and the farewell contact. *)
Definition online_peers (w : World) : list string := keys (filter is_online (peers w)).


(** *** The neighbor file *)

(** The file names [k] as a neighbor of the node [sid]: some line is [k]
    once stripped, and [k] is neither blank nor the node itself. *)
Definition named_in (lines : list string) (sid k : string) : bool :=
  existsb (fun line => strip line =? k) lines && negb (is_empty k) && negb (k =? sid).

(** *** The operator's screen *)

(** [w'] differs from [w] by printed lines only. *)
Definition only_printed (w w' : World) : Prop :=
  server_id w' = server_id w /\ global_clock w' = global_clock w
  /\ peers w' = peers w /\ shared_dir w' = shared_dir w
  /\ sockets w' = sockets w /\ wire w' = wire w
  /\ exists out, stdout w' = (stdout w ++ out)%list.

(** *** Startup *)

Definition set_server_id (s : string) (w : World) : World :=
  mkWorld s (global_clock w) (peers w) (shared_dir w) (stdout w) (sockets w) (wire w).

(** [main] up to the start of the server thread.  [argv] is [sys.argv];
    [content] is the neighbor file as for [load_neighbors]; [is_dir] and
    [readable] are the answers of [os.path.isdir] and [os.access] for the
    directory argument.  [":" not in id_param] is [no_colon id_param]. *)
Definition startup (argv : list string) (content : option (list string))
    (is_dir readable : bool) : M unit :=
  match argv with
  | [_; id_param; neighbors_file; _] =>
      if no_colon id_param then
        print "Formato inválido para endereço:porta" ;;
        raise (Exn SystemExit "1")
      else
        match split_on ":" id_param with
        | [local_ip; port_str] =>
            r <- try (py_int port_str) ;;
            match r with
            | inl e =>
                if is_ValueError e
                then (print "Porta inválida" ;; raise (Exn SystemExit "1"))
                else raise e
            | inr local_port =>
                modify (set_server_id (local_ip ++ ":" ++ str local_port)) ;;
                load_neighbors neighbors_file content ;;
                if negb is_dir then
                  print "Diretório compartilhado não existe." ;;
                  raise (Exn SystemExit "1")
                else if negb readable then
                  print "Sem permissão de leitura no diretório compartilhado." ;;
                  raise (Exn SystemExit "1")
                else ret tt
            end
        | _ :: _ :: _ :: _ =>
            raise (Exn ValueError "too many values to unpack (expected 2)")
        | _ =>
            raise (Exn ValueError "not enough values to unpack (expected 2, got 1)")
        end
  | _ =>
      print "Uso: ./eachare <endereco:porta> <vizinhos.txt> <diretorio_compartilhado>" ;;
      raise (Exn SystemExit "1")
  end.
(* ===================================================================== *)
(** ** The primitives on concrete inputs *)
(* ===================================================================== *)

Example split_example :
  Py.split (Py.strip ("  127.0.0.1:9001 7  HELLO " ++ Py.nl)) = ["127.0.0.1:9001"; "7"; "HELLO"].
Proof. reflexivity. Qed.

Example split_on_example :
  Py.split_on ":" "10.0.0.2:9002:ONLINE:5" = ["10.0.0.2"; "9002"; "ONLINE"; "5"].
Proof. reflexivity. Qed.

Example int_examples :
  Py.int "42" = Some 42%Z /\ Py.int "-7" = Some (-7)%Z /\ Py.int "+1_000" = Some 1000%Z
  /\ Py.int "4x" = None /\ Py.int "" = None /\ Py.int "1__0" = None /\ Py.int "-" = None.
Proof. repeat split; reflexivity. Qed.

Example str_examples :
  Py.str 0 = "0" /\ Py.str 42 = "42" /\ Py.str (-7) = "-7".
Proof. repeat split; reflexivity. Qed.

Example b64_examples :
  Base64.b64encode [Base64.of_N 104; Base64.of_N 105] = "aGk="
  /\ Base64.b64decode "aGk=" = Some [Base64.of_N 104; Base64.of_N 105]
  /\ Base64.b64encode [Base64.of_N 77; Base64.of_N 97; Base64.of_N 110] = "TWFu"
  /\ Base64.b64decode "TQ==" = Some [Base64.of_N 77]
  /\ Base64.b64decode "0" = None
  /\ Base64.b64decode "" = Some [].
Proof. repeat split; reflexivity. Qed.

(* ===================================================================== *)
(** ** Facts about the primitives *)
(* ===================================================================== *)

Section DictFacts.

Context {V : Type}.
Implicit Types (d : dict V) (k : string) (v : V).

Lemma dict_get_set_same k v d : dict_get k (dict_set k v d) = Some v.
Proof.
  induction d as [|[k' v'] d IH]; simpl.
  - now rewrite String.eqb_refl.
  - destruct (String.eqb k' k) eqn:E; simpl; rewrite E; auto.
Qed.

Lemma dict_get_set_other k k' v d :
  k' <> k -> dict_get k' (dict_set k v d) = dict_get k' d.
Proof.
  intros Hne. induction d as [|[k0 v0] d IH]; simpl.
  - destruct (String.eqb_spec k k'); congruence.
  - destruct (String.eqb_spec k0 k) as [->|Hk]; simpl.
    + destruct (String.eqb_spec k k'); congruence.
    + destruct (String.eqb_spec k0 k'); auto.
Qed.

Lemma dict_set_unchanged k v d : dict_get k d = Some v -> dict_set k v d = d.
Proof.
  induction d as [|[k' v'] d IH]; simpl; [discriminate|].
  destruct (String.eqb k' k) eqn:E; intros H.
  - congruence.
  - now rewrite IH.
Qed.

Lemma dict_set_absent k v d :
  dict_get k d = None -> dict_set k v d = (d ++ [(k, v)])%list.
Proof.
  induction d as [|[k' v'] d IH]; simpl; auto.
  destruct (String.eqb k' k); [discriminate|].
  intros H. now rewrite IH.
Qed.

Lemma keys_dict_set_present k v v0 d :
  dict_get k d = Some v0 -> keys (dict_set k v d) = keys d.
Proof.
  unfold keys. induction d as [|[k' v'] d IH]; simpl; [discriminate|].
  destruct (String.eqb k' k) eqn:E; simpl; intros H; auto.
  now rewrite IH.
Qed.

End DictFacts.

Section StringFacts.

Implicit Types (s t u : string) (c : ascii).

Lemma append_assoc s t u : (s ++ t) ++ u = s ++ (t ++ u).
Proof. induction s as [|c s IH]; simpl; congruence. Qed.

Lemma append_nil_r s : s ++ "" = s.
Proof. induction s as [|c s IH]; simpl; congruence. Qed.

Lemma length_append s t : String.length (s ++ t) = (String.length s + String.length t)%nat.
Proof. induction s as [|c s IH]; simpl; congruence. Qed.

Lemma substring_all s n : (String.length s <= n)%nat -> substring 0 n s = s.
Proof.
  revert n. induction s as [|c s IH]; intros [|n] H; simpl in *; try reflexivity; try lia.
  rewrite IH by lia. reflexivity.
Qed.

End StringFacts.

(* ===================================================================== *)
(** ** The transfer encoding round-trips *)
(* ===================================================================== *)

Section Codec.

Import Base64.

Lemma in_all_bytes b : In b all_bytes.
Proof.
  assert (H : existsb (Byte.eqb b) all_bytes = true) by (destruct b; vm_compute; reflexivity).
  apply existsb_exists in H. destruct H as (x & Hin & Heq).
  apply Byte.byte_dec_bl in Heq. now subst.
Qed.

Lemma all_pairs_recombine :
  forallb (fun b0 => forallb (recombines b0) all_bytes) all_bytes = true.
Proof. vm_compute. reflexivity. Qed.

Lemma recombines_all b0 b1 : recombines b0 b1 = true.
Proof.
  pose proof all_pairs_recombine as H.
  rewrite forallb_forall in H. specialize (H b0 (in_all_bytes b0)).
  rewrite forallb_forall in H. exact (H b1 (in_all_bytes b1)).
Qed.

Lemma alphabet_ok_all i : (i < 64)%N -> alphabet_ok i = true.
Proof.
  intros Hi.
  assert (H : forallb alphabet_ok (map N.of_nat (seq 0 64)) = true)
    by (vm_compute; reflexivity).
  rewrite forallb_forall in H. apply H.
  apply in_map_iff. exists (N.to_nat i). split; [apply N2Nat.id|].
  apply in_seq. lia.
Qed.

(** What the decoder needs to know about the character of a sextet. *)
Lemma sextet_char i :
  (i < 64)%N ->
  Ascii.eqb (table_b2a i) "=" = false
  /\ table_a2b (table_b2a i) = Some i
  /\ is_space (table_b2a i) = false
  /\ (nat_of_ascii (table_b2a i) <? 128)%nat = true.
Proof.
  intros Hi. pose proof (alphabet_ok_all i Hi) as H. unfold alphabet_ok in H.
  repeat (apply andb_true_iff in H; destruct H as [H ?]).
  destruct (table_a2b (table_b2a i)) as [j|]; [|discriminate].
  apply N.eqb_eq in H. subst j.
  repeat split; auto; now apply negb_true_iff.
Qed.

Lemma sextets_small b0 b1 :
  (sextet0 b0 < 64 /\ sextet1 b0 b1 < 64 /\ sextet2 b0 b1 < 64 /\ sextet3 b1 < 64)%N.
Proof.
  pose proof (recombines_all b0 b1) as H. unfold recombines in H.
  repeat (apply andb_true_iff in H; destruct H as [H ?]).
  repeat split; now apply N.ltb_lt.
Qed.

Lemma first_byte b0 b1 :
  of_N (N.lor (N.shiftl (sextet0 b0) 2) (N.shiftr (sextet1 b0 b1) 4)) = b0.
Proof.
  pose proof (recombines_all b0 b1) as H. unfold recombines in H.
  repeat (apply andb_true_iff in H; destruct H as [H ?]).
  now apply Byte.byte_dec_bl.
Qed.

Lemma second_byte b0 b1 b2 :
  of_N (N.lor (N.shiftl (N.land (sextet1 b0 b1) 15) 4) (N.shiftr (sextet2 b1 b2) 2)) = b1.
Proof.
  pose proof (recombines_all b0 b1) as H. unfold recombines in H.
  repeat (apply andb_true_iff in H; destruct H as [H ?]).
  pose proof (recombines_all b1 b2) as H'. unfold recombines in H'.
  repeat (apply andb_true_iff in H'; destruct H' as [H' ?]).
  repeat match goal with E : (_ =? _)%N = true |- _ => apply N.eqb_eq in E end.
  match goal with E : N.land (sextet1 b0 b1) 15 = _ |- _ => rewrite E end.
  match goal with E : N.shiftr (sextet2 b1 b2) 2 = _ |- _ => rewrite E end.
  now apply Byte.byte_dec_bl.
Qed.

Lemma third_byte b1 b2 :
  of_N (N.lor (N.shiftl (N.land (sextet2 b1 b2) 3) 6) (sextet3 b2)) = b2.
Proof.
  pose proof (recombines_all b1 b2) as H. unfold recombines in H.
  repeat (apply andb_true_iff in H; destruct H as [H ?]).
  now apply Byte.byte_dec_bl.
Qed.

(** The decoder on a character of the alphabet. *)
Lemma a2b_data quad_pos leftchar pads i s :
  (i < 64)%N ->
  a2b_base64 quad_pos leftchar pads (String (table_b2a i) s)
  = match quad_pos with
    | 0%nat => a2b_base64 1 i 0 s
    | 1%nat =>
        option_map (cons (of_N (N.lor (N.shiftl leftchar 2) (N.shiftr i 4))))
                   (a2b_base64 2 (N.land i 15) 0 s)
    | 2%nat =>
        option_map (cons (of_N (N.lor (N.shiftl leftchar 4) (N.shiftr i 2))))
                   (a2b_base64 3 (N.land i 3) 0 s)
    | _ =>
        option_map (cons (of_N (N.lor (N.shiftl leftchar 6) i)))
                   (a2b_base64 0 0 0 s)
    end.
Proof.
  intros Hi. destruct (sextet_char i Hi) as (Hpad & Hdec & _).
  cbn [a2b_base64]. rewrite Hpad, Hdec. reflexivity.
Qed.

(** Three induction steps at a time. *)
Lemma list_ind3 {A} (P : list A -> Prop) :
  P [] -> (forall a, P [a]) -> (forall a b, P [a; b]) ->
  (forall a b c l, P l -> P (a :: b :: c :: l)) ->
  forall l, P l.
Proof.
  intros H0 H1 H2 H3 l.
  assert (H : P l /\ (forall a, P (a :: l)) /\ (forall a b, P (a :: b :: l))).
  { induction l as [|x l (IH0 & IH1 & IH2)]; auto. }
  apply H.
Qed.

Lemma a2b_encoded bs leftchar pads :
  a2b_base64 0 leftchar pads (b64encode bs) = Some bs.
Proof.
  revert leftchar pads. induction bs as [|b0|b0 b1|b0 b1 b2 rest IH] using list_ind3;
    intros leftchar pads.
  - reflexivity.
  - destruct (sextets_small b0 zero) as (H0 & H1 & _).
    cbn [b64encode]. rewrite !a2b_data by assumption.
    rewrite first_byte. reflexivity.
  - destruct (sextets_small b0 b1) as (H0 & H1 & _).
    destruct (sextets_small b1 zero) as (_ & _ & H2 & _).
    cbn [b64encode]. rewrite !a2b_data by assumption.
    rewrite first_byte, second_byte. reflexivity.
  - destruct (sextets_small b0 b1) as (H0 & H1 & _).
    destruct (sextets_small b1 b2) as (_ & _ & H2 & H3).
    cbn [b64encode]. rewrite !a2b_data by assumption.
    rewrite first_byte, second_byte, third_byte, IH. reflexivity.
Qed.

Lemma is_ascii_encoded bs : is_ascii (b64encode bs) = true.
Proof.
  induction bs as [|b0|b0 b1|b0 b1 b2 rest IH] using list_ind3.
  - reflexivity.
  - destruct (sextets_small b0 zero) as (H0 & H1 & _).
    cbn [b64encode is_ascii].
    now rewrite (proj2 (proj2 (proj2 (sextet_char _ H0)))),
                (proj2 (proj2 (proj2 (sextet_char _ H1)))).
  - destruct (sextets_small b0 b1) as (H0 & H1 & _).
    destruct (sextets_small b1 zero) as (_ & _ & H2 & _).
    cbn [b64encode is_ascii].
    now rewrite (proj2 (proj2 (proj2 (sextet_char _ H0)))),
                (proj2 (proj2 (proj2 (sextet_char _ H1)))),
                (proj2 (proj2 (proj2 (sextet_char _ H2)))).
  - destruct (sextets_small b0 b1) as (H0 & H1 & _).
    destruct (sextets_small b1 b2) as (_ & _ & H2 & H3).
    cbn [b64encode is_ascii].
    now rewrite (proj2 (proj2 (proj2 (sextet_char _ H0)))),
                (proj2 (proj2 (proj2 (sextet_char _ H1)))),
                (proj2 (proj2 (proj2 (sextet_char _ H2)))),
                (proj2 (proj2 (proj2 (sextet_char _ H3)))), IH.
Qed.

(** Decoding what was encoded gives the bytes back, for every sequence of
    bytes, the empty one included. *)
Lemma b64decode_b64encode bs : b64decode (b64encode bs) = Some bs.
Proof.
  unfold b64decode. rewrite is_ascii_encoded. apply a2b_encoded.
Qed.

End Codec.

(* ===================================================================== *)
(** ** Splitting a line into its fields *)
(* ===================================================================== *)

Section Tokens.

Implicit Types (s t cur : string) (c : ascii).

Lemma split_aux_no_space cur t s :
  no_space t = true -> split_aux cur (t ++ s) = split_aux (cur ++ t) s.
Proof.
  revert cur. induction t as [|c t IH]; intros cur H; simpl in *.
  - now rewrite append_nil_r.
  - apply andb_true_iff in H. destruct H as [Hc Ht].
    apply negb_true_iff in Hc. rewrite Hc, IH by assumption.
    now rewrite append_assoc.
Qed.

(** A field followed by a whitespace character is the first field. *)
Lemma split_field t c s :
  is_token t = true -> is_space c = true ->
  split (t ++ String c s) = t :: split s.
Proof.
  intros Ht Hc. unfold is_token in Ht. apply andb_true_iff in Ht.
  destruct Ht as [Hne Hns]. unfold split.
  rewrite split_aux_no_space by assumption. simpl. rewrite Hc.
  destruct t; [discriminate | reflexivity].
Qed.

Lemma split_leading_space c s : is_space c = true -> split (String c s) = split s.
Proof. intros Hc. unfold split. simpl. now rewrite Hc. Qed.

Lemma split_lstrip s : split (lstrip s) = split s.
Proof.
  induction s as [|c s IH]; simpl; [reflexivity|].
  destruct (is_space c) eqn:Hc; [|reflexivity].
  now rewrite split_leading_space.
Qed.

Lemma split_aux_cons cur c s :
  split_aux cur (String c s)
  = if is_space c
    then (if is_empty cur then split_aux "" s else cur :: split_aux "" s)
    else split_aux (cur ++ String c "") s.
Proof. reflexivity. Qed.

Lemma split_aux_rstrip cur s : split_aux cur (rstrip s) = split_aux cur s.
Proof.
  revert cur. induction s as [|c s IH]; intros cur; [reflexivity|].
  cbn [rstrip]. destruct (is_space c) eqn:Hc; cbn [andb].
  - destruct (rstrip s) as [|a r] eqn:Hr; cbn [is_empty].
    + rewrite (split_aux_cons cur c s), Hc, <- (IH ""). reflexivity.
    + rewrite !(split_aux_cons cur c), Hc, (IH ""). reflexivity.
  - rewrite !(split_aux_cons cur c), Hc. apply IH.
Qed.

(** [s.strip().split()] is [s.split()]. *)
Lemma split_strip s : split (strip s) = split s.
Proof. unfold strip, split. now rewrite split_aux_rstrip, split_lstrip. Qed.

Lemma no_space_uint d : no_space (NilEmpty.string_of_uint d) = true.
Proof. induction d; simpl; auto. Qed.

(** [str(n)] is a single field. *)
Lemma str_is_token z : is_token (str z) = true.
Proof.
  unfold str. destruct (Z.to_int z) as [d|d].
  - destruct d; [reflexivity | exact (no_space_uint _) ..].
  - destruct d; [reflexivity | exact (no_space_uint _) ..].
Qed.

Lemma no_space_app s t : no_space (s ++ t) = no_space s && no_space t.
Proof.
  induction s as [|c s IH]; simpl; [reflexivity|].
  now rewrite IH, andb_assoc.
Qed.

Lemma split_aux_tokens cur s :
  no_space cur = true -> Forall (fun t => is_token t = true) (split_aux cur s).
Proof.
  revert cur. induction s as [|c s IH]; intros cur Hcur.
  - simpl. destruct cur as [|a cur]; constructor; auto.
  - rewrite split_aux_cons. destruct (is_space c) eqn:Hc.
    + destruct cur as [|a cur]; simpl.
      * now apply IH.
      * constructor; [exact Hcur | now apply IH].
    + apply IH. rewrite no_space_app, Hcur. simpl. now rewrite Hc.
Qed.

(** Every field [split] yields is non-empty and free of whitespace. *)
Lemma split_tokens s : Forall (fun t => is_token t = true) (split s).
Proof. now apply split_aux_tokens. Qed.

(** Six fields and what follows them. *)
Lemma split_six_fields t0 t1 t2 t3 t4 t5 s :
  is_token t0 = true -> is_token t1 = true -> is_token t2 = true ->
  is_token t3 = true -> is_token t4 = true -> is_token t5 = true ->
  split (t0 ++ " " ++ t1 ++ " " ++ t2 ++ " " ++ t3 ++ " " ++ t4 ++ " " ++ t5 ++ " " ++ s)
  = t0 :: t1 :: t2 :: t3 :: t4 :: t5 :: split s.
Proof.
  intros H0 H1 H2 H3 H4 H5.
  repeat match goal with
         | |- context [split (?t ++ " " ++ ?r)] =>
             change (split (t ++ " " ++ r)) with (split (t ++ String " " r));
             rewrite (split_field t " " r) by (assumption || reflexivity)
         end.
  reflexivity.
Qed.

End Tokens.

(* ===================================================================== *)
(** ** Integers on the wire *)
(* ===================================================================== *)

Section Numbers.

Lemma rstrip_no_space s : no_space s = true -> rstrip s = s.
Proof.
  induction s as [|c s IH]; simpl; [reflexivity|].
  intros H. apply andb_true_iff in H. destruct H as [Hc Hs].
  apply negb_true_iff in Hc. rewrite Hc. simpl. now rewrite IH.
Qed.

Lemma strip_no_space s : no_space s = true -> strip s = s.
Proof.
  intros H. unfold strip.
  destruct s as [|c s]; [reflexivity|].
  simpl in H. apply andb_true_iff in H. destruct H as [Hc Hs].
  apply negb_true_iff in Hc. cbn [lstrip]. rewrite Hc.
  apply rstrip_no_space. simpl. now rewrite Hc, Hs.
Qed.

Lemma is_int_space_space c : is_int_space c = true -> is_space c = true.
Proof.
  unfold is_int_space, is_space. intros H.
  apply orb_true_iff in H. apply orb_true_iff. destruct H as [H|H]; [now left|].
  right. apply Nat.eqb_eq in H. now rewrite H.
Qed.

Lemma int_rstrip_no_space s : no_space s = true -> int_rstrip s = s.
Proof.
  induction s as [|c s IH]; simpl; [reflexivity|].
  intros H. apply andb_true_iff in H. destruct H as [Hc Hs].
  apply negb_true_iff in Hc.
  destruct (is_int_space c) eqn:Hi.
  - apply is_int_space_space in Hi. congruence.
  - simpl. now rewrite IH.
Qed.

Lemma int_strip_no_space s : no_space s = true -> int_rstrip (int_lstrip s) = s.
Proof.
  intros H.
  destruct s as [|c s]; [reflexivity|].
  pose proof H as H'. simpl in H'. apply andb_true_iff in H'. destruct H' as [Hc Hs].
  apply negb_true_iff in Hc. cbn [int_lstrip].
  destruct (is_int_space c) eqn:Hi.
  - apply is_int_space_space in Hi. congruence.
  - now apply int_rstrip_no_space.
Qed.

Lemma int_digits_digit acc c k s :
  digit_of c = Some k -> int_digits acc (String c s) = int_digits (10 * acc + k) s.
Proof. intros H. cbn [int_digits]. now rewrite H. Qed.

Lemma int_digits_acc d acc :
  int_digits (Zpos acc) (NilEmpty.string_of_uint d)
  = Some (Zpos (Pos.of_uint_acc d acc)).
Proof.
  revert acc. induction d; intros acc; cbn [NilEmpty.string_of_uint Pos.of_uint_acc];
    [reflexivity | ..];
    (erewrite int_digits_digit by reflexivity;
     match goal with |- int_digits ?z _ = Some (Zpos (Pos.of_uint_acc _ ?q)) =>
       replace z with (Zpos q)
         by (match goal with |- context [Z.of_nat ?n] =>
               let v := eval vm_compute in (Z.of_nat n) in
               change (Z.of_nat n) with v end;
             rewrite ?Pos2Z.inj_add, ?Pos2Z.inj_mul; lia) end;
     apply IHd).
Qed.

Lemma int_digits_zero d :
  int_digits 0 (NilEmpty.string_of_uint d) = Some (Z.of_N (Pos.of_uint d)).
Proof.
  induction d; cbn [NilEmpty.string_of_uint Pos.of_uint]; [reflexivity | ..];
    erewrite int_digits_digit by reflexivity; simpl Z.add;
    [exact IHd | rewrite int_digits_acc; reflexivity ..].
Qed.

Lemma int_unsigned_uint d :
  d <> Nil ->
  int_unsigned (NilEmpty.string_of_uint d) = Some (Z.of_N (Pos.of_uint d)).
Proof.
  intros Hd. rewrite <- int_digits_zero. destruct d; [contradiction | reflexivity ..].
Qed.

Lemma int_of_positive p :
  Py.int (NilEmpty.string_of_uint (Pos.to_uint p)) = Some (Zpos p).
Proof.
  pose proof (DecimalPos.Unsigned.to_uint_nonnil p) as Hnil.
  pose proof (DecimalPos.Unsigned.of_to p) as Hof.
  pose proof (int_unsigned_uint _ Hnil) as Hu. rewrite Hof in Hu.
  pose proof (int_strip_no_space _ (no_space_uint (Pos.to_uint p))) as Hs.
  unfold Py.int. rewrite Hs.
  destruct (Pos.to_uint p); [contradiction | exact Hu ..].
Qed.

(** The text [str] writes for an integer is read back by [int] as that
    integer. *)
Lemma int_str z : Py.int (str z) = Some z.
Proof.
  destruct z as [|p|p].
  - reflexivity.
  - unfold str. cbn [Z.to_int NilZero.string_of_int].
    pose proof (DecimalPos.Unsigned.to_uint_nonnil p) as Hnil.
    replace (NilZero.string_of_uint (Pos.to_uint p))
      with (NilEmpty.string_of_uint (Pos.to_uint p))
      by (destruct (Pos.to_uint p); [contradiction | reflexivity ..]).
    apply int_of_positive.
  - unfold str. cbn [Z.to_int NilZero.string_of_int].
    pose proof (DecimalPos.Unsigned.to_uint_nonnil p) as Hnil.
    replace (NilZero.string_of_uint (Pos.to_uint p))
      with (NilEmpty.string_of_uint (Pos.to_uint p))
      by (destruct (Pos.to_uint p); [contradiction | reflexivity ..]).
    pose proof (int_unsigned_uint _ Hnil) as Hu.
    rewrite DecimalPos.Unsigned.of_to in Hu.
    unfold Py.int.
    assert (Hs : int_rstrip (int_lstrip
                   (String "-" (NilEmpty.string_of_uint (Pos.to_uint p))))
                 = String "-" (NilEmpty.string_of_uint (Pos.to_uint p))).
    { apply int_strip_no_space. simpl. apply no_space_uint. }
    rewrite Hs. cbn [Ascii.eqb Bool.eqb]. cbv iota. rewrite Hu. reflexivity.
Qed.

End Numbers.

(* ===================================================================== *)
(** ** The inbound server *)
(* ===================================================================== *)

Lemma is_empty_true s : is_empty s = true -> s = "".
Proof. destruct s; simpl; congruence. Qed.

(** A message with at least one field is not the empty read. *)
Lemma decoded_not_empty data p ps :
  split (strip data) = p :: ps -> is_empty data = false.
Proof.
  destruct data; simpl; [discriminate | reflexivity].
Qed.

Lemma handle_client_body_decoded conn w origem p1 msg_type args R :
  split (strip (recv 4096 (conn_data conn))) = origem :: p1 :: msg_type :: args ->
  int p1 = Some R ->
  handle_client_body conn w
  = dispatch conn origem R msg_type args (observed conn R w).
Proof.
  intros Hparts Hint.
  unfold handle_client_body.
  rewrite (decoded_not_empty _ _ _ Hparts).
  unfold bind at 1. unfold print at 1, modify at 1.
  rewrite Hparts.
  unfold bind at 1. unfold py_int. rewrite Hint. unfold ret at 1.
  unfold bind at 1. unfold observe.
  reflexivity.
Qed.

Lemma handle_client_guarded conn : handle_client conn = guarded conn (handle_client_body conn).
Proof. reflexivity. Qed.

Lemma handle_client_decoded conn w origem p1 msg_type args R :
  split (strip (recv 4096 (conn_data conn))) = origem :: p1 :: msg_type :: args ->
  int p1 = Some R ->
  handle_client conn w
  = guarded conn (dispatch conn origem R msg_type args) (observed conn R w).
Proof.
  intros Hparts Hint.
  rewrite handle_client_guarded. unfold guarded, finally, bind, try.
  now rewrite (handle_client_body_decoded _ _ _ _ _ _ _ Hparts Hint).
Qed.



(** What the wrapper of [handle_client] makes of a block that returns, or
    that raises something [except Exception] catches: no exception leaves
    the handler, the connection is closed, and nothing but a log line is
    added to what the block did. *)
Lemma guarded_run conn block w r w1 :
  block w = (r, w1) ->
  match r with inl e => is_Exception e = true | inr _ => True end ->
  exists w', guarded conn block w = (inr tt, w')
    /\ peers w' = peers w1 /\ shared_dir w' = shared_dir w1
    /\ global_clock w' = global_clock w1
    /\ wire w' = (wire w1 ++ [Close (conn_addr conn)])%list.
Proof.
  intros Hrun Hr. unfold guarded, finally, bind, try. rewrite Hrun.
  destruct r as [e|[]].
  - rewrite Hr. simpl. eexists; repeat split.
  - simpl. eexists; repeat split.
Qed.


Lemma dispatch_hello conn origem R args :
  dispatch conn origem R "HELLO" args = handle_hello origem R.
Proof. reflexivity. Qed.

Lemma dispatch_get_peers conn origem R args :
  dispatch conn origem R "GET_PEERS" args = handle_get_peers conn origem.
Proof. reflexivity. Qed.

Lemma dispatch_bye conn origem R args :
  dispatch conn origem R "BYE" args = mark_offline origem.
Proof. reflexivity. Qed.

Lemma dispatch_ls conn origem R args :
  dispatch conn origem R "LS" args = handle_ls conn origem.
Proof. reflexivity. Qed.

Lemma dispatch_dl conn origem R args :
  dispatch conn origem R "DL" args = handle_dl conn args.
Proof. reflexivity. Qed.



(** C8.  Handling [GET_PEERS], received as ASCII text, from origin [O]
    leaves the whole registry as it was, and the reply, when the connection takes it, is the
    [PEER_LIST] line built from the registry entries whose key is not [O],
    in registry order, stamped with the clock after [observe] and one
    [tick]. *)
Theorem get_peers_reply_and_frame conn w origem p1 args R :
  ascii_text (recv 4096 (conn_data conn)) ->
  split (strip (recv 4096 (conn_data conn))) = origem :: p1 :: "GET_PEERS" :: args ->
  int p1 = Some R ->
  let snapshot := filter (fun e => negb (fst e =? origem)) (peers w) in
  let reply :=
    peer_list_reply (server_id w) (Z.max (global_clock w) R + 2) snapshot in
  (forall e, In e snapshot <-> In e (peers w) /\ fst e <> origem)
  /\ exists w', handle_client conn w = (inr tt, w')
       /\ peers w' = peers w
       /\ wire w' = (wire w
                     ++ (if conn_open conn then [Send (conn_addr conn) reply] else [])
                     ++ [Close (conn_addr conn)])%list.
Proof.
  intros _ Hparts Hint snapshot reply. split.
  - intros e. subst snapshot. rewrite filter_In.
    destruct (String.eqb_spec (fst e) origem); simpl; intuition congruence.
  - rewrite (handle_client_decoded _ _ _ _ _ _ _ Hparts Hint).
    assert (Hd : exists w1,
      dispatch conn origem R "GET_PEERS" args (observed conn R w) = (inr tt, w1)
      /\ peers w1 = peers w
      /\ wire w1 = (wire w ++ (if conn_open conn
                               then [Send (conn_addr conn) reply] else []))%list).
    { rewrite dispatch_get_peers.
      unfold handle_get_peers, bind, gets, update_clock, bind, gets, modify, print,
        modify, try, conn_sendall, ret.
      destruct (conn_open conn); simpl.
      - eexists; repeat split. subst reply snapshot. unfold peer_list_reply.
        rewrite length_map.
        replace (Z.max (global_clock w) R + 1 + 1)%Z
          with (Z.max (global_clock w) R + 2)%Z by lia.
        destruct (0 <? _)%nat; repeat (rewrite append_assoc; simpl); reflexivity.
      - eexists; repeat split. now rewrite app_nil_r. }
    destruct Hd as (w1 & Hd & Hp1 & Hw1).
    destruct (guarded_run conn _ _ _ _ Hd I) as (w' & Hg & Hp' & _ & _ & Hw').
    exists w'. repeat split; try congruence.
    rewrite Hw', Hw1. now rewrite <- app_assoc.
Qed.

Lemma get_peers_reply_and_frame_witness :
  let conn := mkConn "('10.0.0.2', 40000)" ("10.0.0.2:9002 4 GET_PEERS" ++ nl) true in
  let w := node "10.0.0.1:9001"
             [("10.0.0.2:9002", mkPeer "ONLINE" 3); ("10.0.0.3:9003", mkPeer "OFFLINE" 0)] in
  exists w', handle_client conn w = (inr tt, w')
    /\ peers w' = peers w
    /\ wire w' = [Send "('10.0.0.2', 40000)"
                    ("10.0.0.1:9001 6 PEER_LIST 1 10.0.0.3:9003:OFFLINE:0" ++ nl);
                  Close "('10.0.0.2', 40000)"].
Proof.
  intros conn w.
  exact (proj2 (get_peers_reply_and_frame conn w "10.0.0.2:9002" "4" [] 4
                  eq_refl eq_refl eq_refl)).
Defined.
(* ===================================================================== *)
(** ** What a computation leaves in place *)
(* ===================================================================== *)

Lemma bind_run {A B} (m : M A) (f : A -> M B) w a w' :
  m w = (inr a, w') -> bind m f w = f a w'.
Proof. intros H. unfold bind. now rewrite H. Qed.

Lemma bind_raise {A B} (m : M A) (f : A -> M B) w e w' :
  m w = (inl e, w') -> bind m f w = (inl e, w').
Proof. intros H. unfold bind. now rewrite H. Qed.

Section Preservation.

Variable P : World -> Prop.

Lemma preserves_ret {A} (a : A) : preserves P (ret a).
Proof. intros w H. exact H. Qed.

Lemma preserves_raise {A} e : preserves P (@raise A e).
Proof. intros w H. exact H. Qed.

Lemma preserves_gets {A} (f : World -> A) : preserves P (gets f).
Proof. intros w H. exact H. Qed.

Lemma preserves_modify f : (forall w, P w -> P (f w)) -> preserves P (modify f).
Proof. intros Hf w H. simpl. auto. Qed.

Lemma preserves_bind {A B} (m : M A) (f : A -> M B) :
  preserves P m -> (forall a, preserves P (f a)) -> preserves P (bind m f).
Proof.
  intros Hm Hf w H. unfold bind. specialize (Hm w H).
  destruct (m w) as [[e|a] w']; simpl in *; auto.
  now apply Hf.
Qed.

Lemma preserves_try {A} (m : M A) : preserves P m -> preserves P (try m).
Proof.
  intros Hm w H. unfold try. specialize (Hm w H).
  now destruct (m w).
Qed.

Lemma preserves_finally {A} (m : M A) fin :
  preserves P m -> (forall w, P w -> P (fin w)) -> preserves P (finally m fin).
Proof.
  intros Hm Hf w H. unfold finally. specialize (Hm w H).
  destruct (m w). simpl in *. auto.
Qed.

Lemma preserves_for_each {A} (l : list A) body :
  (forall x, preserves P (body x)) -> preserves P (for_each l body).
Proof.
  intros Hb. induction l as [|x l IH]; simpl.
  - apply preserves_ret.
  - apply preserves_bind; auto.
Qed.

(** Bookkeeping that is not the registry's. *)
Hypothesis P_registry : registry_pred P.




Lemma preserves_conn_sendall conn data : preserves P (conn_sendall conn data).
Proof.
  unfold conn_sendall. destruct (conn_open conn); [|apply preserves_raise].
  apply preserves_modify. intros w. now apply P_registry.
Qed.

Variable net : nat -> attempt_outcome.




End Preservation.


Lemma same_registry_pred (sid : string) (ps : dict PeerInfo) :
  registry_pred (fun w => server_id w = sid /\ peers w = ps).
Proof. unfold registry_pred. intros w w' -> ->. auto. Qed.

(** Reading a reply touches neither the clock nor the network. *)
Section ReplyProcessing.

Variable P : World -> Prop.
Hypothesis P_traffic : traffic_pred P.

Lemma traffic_print line : preserves P (print line).
Proof. apply preserves_modify. intros w. now apply P_traffic. Qed.

Lemma traffic_set_peers ps : preserves P (modify (set_peers ps)).
Proof. apply preserves_modify. intros w. now apply P_traffic. Qed.

Lemma traffic_py_int s : preserves P (py_int s).
Proof. unfold py_int. destruct (int s); [apply preserves_ret | apply preserves_raise]. Qed.

Lemma traffic_set_status peer new_status : preserves P (set_status peer new_status).
Proof.
  unfold set_status. apply preserves_bind; [apply preserves_gets|intros ps].
  destruct (dict_get peer ps); [|apply preserves_raise].
  destruct (negb _); [|apply preserves_ret].
  apply preserves_bind; [apply traffic_set_peers | intros _; apply traffic_print].
Qed.

Lemma traffic_merge peer_id st ck : preserves P (merge peer_id st ck).
Proof.
  unfold merge. apply preserves_bind; [apply preserves_gets|intros ps].
  destruct (dict_get peer_id ps); [destruct (_ || _)|];
    try apply preserves_ret;
    (apply preserves_bind; [apply traffic_set_peers | intros _; apply traffic_print]).
Qed.

Lemma traffic_process_peer_info peer_info : preserves P (process_peer_info peer_info).
Proof.
  unfold process_peer_info. apply preserves_bind.
  - apply preserves_try.
    destruct (split_on ":" peer_info) as [|p0 [|p1 [|p2 rest]]];
      try apply preserves_ret.
    apply preserves_bind.
    + destruct rest; [apply preserves_raise | apply traffic_py_int].
    + intros ck. apply preserves_bind; [apply preserves_gets|intros sid].
      destruct (_ =? sid); [apply preserves_ret | apply traffic_merge].
  - intros [e|[]]; [|apply preserves_ret].
    destruct (is_Exception e); [apply traffic_print | apply preserves_raise].
Qed.

Lemma traffic_ingest_peer_list peer_addr reply :
  preserves P (ingest_peer_list peer_addr reply).
Proof.
  unfold ingest_peer_list.
  destruct (split (strip reply)) as [|a [|b [|p2 [|p3 rest]]]];
    try apply traffic_print.
  destruct (p2 =? "PEER_LIST"); [|apply traffic_print].
  apply preserves_bind; [apply traffic_py_int|intros total].
  apply preserves_bind.
  { destruct (negb _); [apply traffic_print | apply preserves_ret]. }
  intros _. apply preserves_bind.
  - apply preserves_for_each. intros x. apply traffic_process_peer_info.
  - intros _. apply traffic_set_status.
Qed.

Lemma traffic_ingest_ls_list peer_addr reply acc :
  preserves P (ingest_ls_list peer_addr reply acc).
Proof.
  unfold ingest_ls_list.
  destruct (split (strip reply)) as [|a [|b [|p2 [|p3 rest]]]];
    try (apply preserves_bind; [apply traffic_print | intros _; apply preserves_ret]).
  destruct (p2 =? "LS_LIST");
    [|apply preserves_bind; [apply traffic_print | intros _; apply preserves_ret]].
  destruct (int p3) as [total|];
    [|apply preserves_bind; [apply traffic_print | intros _; apply preserves_ret]].
  destruct (parse_files _ _ _) as [acc' [e|]].
  - apply preserves_bind; [apply traffic_print | intros _; apply preserves_ret].
  - apply preserves_bind; [apply preserves_try, traffic_set_status|].
    intros [e|[]]; [|apply preserves_ret].
    destruct (is_Exception e); [|apply preserves_raise].
    apply preserves_bind; [apply traffic_print | intros _; apply preserves_ret].
Qed.

End ReplyProcessing.

(* ===================================================================== *)
(** ** The peer registry *)
(* ===================================================================== *)

Lemma same_pair info st ck :
  negb (status info =? st) || negb (clock info =? ck)%Z = false
  <-> info = mkPeer st ck.
Proof.
  destruct info as [s c]; simpl.
  destruct (String.eqb_spec s st), (Z.eqb_spec c ck); simpl;
    split; intros H; try discriminate; try congruence;
    injection H; intros; congruence.
Qed.

(** The registry after [merge]. *)
Lemma merge_run peer_id st ck w :
  exists w', merge peer_id st ck w = (inr tt, w')
    /\ server_id w' = server_id w
    /\ peers w' = match dict_get peer_id (peers w) with
                  | Some info =>
                      if negb (status info =? st) || negb (clock info =? ck)%Z
                      then dict_set peer_id (mkPeer st ck) (peers w)
                      else peers w
                  | None => dict_set peer_id (mkPeer st ck) (peers w)
                  end
    /\ (dict_get peer_id (peers w) = Some (mkPeer st ck) -> w' = w).
Proof.
  unfold merge, bind, gets, modify, print, modify.
  destruct (dict_get peer_id (peers w)) as [info|] eqn:Hget.
  - destruct (negb (status info =? st) || negb (clock info =? ck)%Z) eqn:Hd.
    + eexists; repeat split. intros [= ->].
      pose proof (proj2 (same_pair (mkPeer st ck) st ck) eq_refl) as Hf.
      rewrite Hf in Hd. discriminate.
    + eexists; repeat split.
  - eexists; repeat split. discriminate.
Qed.

(** C5.  A [PEER_LIST] entry [ip:port:status:clock] naming a peer other
    than this node: absent from the registry, the peer is appended with
    exactly that status and clock; present with a different (status, clock)
    pair, both fields are overwritten, whatever the two clocks are, and the
    peer keeps its place; present with the same pair, nothing changes.
    Every other record is left alone. *)
Theorem gossip_merge_last_writer_wins peer_info p0 p1 st p3 rest ck w :
  split_on ":" peer_info = p0 :: p1 :: st :: p3 :: rest ->
  int p3 = Some ck ->
  let peer_id := p0 ++ ":" ++ p1 in
  peer_id <> server_id w ->
  exists w', process_peer_info peer_info w = (inr tt, w')
    /\ (dict_get peer_id (peers w) = None ->
        peers w' = (peers w ++ [(peer_id, mkPeer st ck)])%list)
    /\ (forall old, dict_get peer_id (peers w) = Some old -> old <> mkPeer st ck ->
        dict_get peer_id (peers w') = Some (mkPeer st ck)
        /\ keys (peers w') = keys (peers w))
    /\ (dict_get peer_id (peers w) = Some (mkPeer st ck) -> w' = w)
    /\ (forall k, k <> peer_id -> dict_get k (peers w') = dict_get k (peers w)).
Proof.
  intros Hsplit Hint peer_id Hself.
  destruct (merge_run peer_id st ck w) as (w' & Hrun & Hsid & Hpeers & Hsame).
  exists w'. split.
  - unfold process_peer_info, bind, try. rewrite Hsplit.
    unfold bind, py_int. rewrite Hint. unfold ret, gets.
    fold peer_id. destruct (String.eqb_spec peer_id (server_id w)); [contradiction|].
    now rewrite Hrun.
  - repeat split.
    + intros Habs. rewrite Hpeers, Habs. now apply dict_set_absent.
    + rewrite Hpeers, H.
      destruct (negb (status old =? st) || negb (clock old =? ck)%Z) eqn:Hd.
      * apply dict_get_set_same.
      * apply same_pair in Hd. contradiction.
    + rewrite Hpeers, H.
      destruct (negb (status old =? st) || negb (clock old =? ck)%Z) eqn:Hd.
      * eapply keys_dict_set_present; eauto.
      * reflexivity.
    + exact Hsame.
    + intros k Hk. rewrite Hpeers.
      destruct (dict_get peer_id (peers w)) as [info|];
        [destruct (negb (status info =? st) || negb (clock info =? ck)%Z)|];
        auto using dict_get_set_other.
Qed.

Lemma gossip_merge_last_writer_wins_witness :
  let w := node "10.0.0.1:9001" [("10.0.0.3:9003", mkPeer "ONLINE" 9)] in
  exists w', process_peer_info "10.0.0.3:9003:OFFLINE:3" w = (inr tt, w')
    /\ dict_get "10.0.0.3:9003" (peers w') = Some (mkPeer "OFFLINE" 3).
Proof.
  intros w.
  destruct (gossip_merge_last_writer_wins "10.0.0.3:9003:OFFLINE:3"
              "10.0.0.3" "9003" "OFFLINE" "3" [] 3 w eq_refl eq_refl)
    as (w' & Hrun & _ & Hdiff & _).
  - discriminate.
  - exists w'. split; [exact Hrun|].
    apply (Hdiff (mkPeer "ONLINE" 9)); [reflexivity | discriminate].
Defined.

Lemma upsert_online_run origem R w :
  upsert_online origem R w
  = (inr tt,
     add_stdout (hello_line origem R)
       (set_peers (dict_set origem (mkPeer "ONLINE" R) (peers w)) w)).
Proof.
  unfold upsert_online, bind, gets, modify, print, modify, hello_line.
  destruct (dict_get origem (peers w)) as [info|]; [|reflexivity].
  destruct (String.eqb_spec (status info) "ONLINE") as [->|]; reflexivity.
Qed.

Lemma mark_offline_clock origem w k :
  option_map clock (dict_get k (peers (snd (mark_offline origem w))))
  = option_map clock (dict_get k (peers w)).
Proof.
  unfold mark_offline, bind, gets, modify, print, modify.
  destruct (dict_get origem (peers w)) as [info|] eqn:Hget; [|reflexivity].
  destruct (negb (status info =? "OFFLINE")); [|reflexivity]. simpl.
  destruct (string_dec k origem) as [->|Hk].
  - now rewrite dict_get_set_same, Hget.
  - now rewrite dict_get_set_other.
Qed.

(** C6, as the code has it.  [BYE] from a peer recorded as OFFLINE changes
    nothing at all and prints nothing.  A second [HELLO] with the same
    clock leaves the registry as the first one left it, but the [HELLO]
    branch prints its update line on every call.  [BYE] never changes a
    stored clock. *)
Theorem registry_idempotence conn origem R args :
  (forall w info,
      dict_get origem (peers w) = Some info -> status info = "OFFLINE" ->
      dispatch conn origem R "BYE" args w = (inr tt, w))
  /\ (forall w,
      let w1 := snd (dispatch conn origem R "HELLO" args w) in
      let w2 := snd (dispatch conn origem R "HELLO" args w1) in
      dict_get origem (peers w1) = Some (mkPeer "ONLINE" R)
      /\ peers w2 = peers w1
      /\ stdout w2 = (stdout w1 ++ [hello_line origem R])%list)
  /\ (forall w k,
      option_map clock (dict_get k (peers (snd (dispatch conn origem R "BYE" args w))))
      = option_map clock (dict_get k (peers w))).
Proof.
  repeat split.
  - intros w info Hget Hst. rewrite dispatch_bye.
    unfold mark_offline, bind, gets. rewrite Hget, Hst. reflexivity.
  - rewrite ?dispatch_hello. unfold handle_hello.
    rewrite upsert_online_run. simpl. apply dict_get_set_same.
  - rewrite ?dispatch_hello. unfold handle_hello.
    rewrite !upsert_online_run. simpl.
    apply dict_set_unchanged, dict_get_set_same.
  - rewrite ?dispatch_hello. unfold handle_hello.
    rewrite !upsert_online_run. reflexivity.
  - intros w k. rewrite dispatch_bye.
    apply mark_offline_clock.
Qed.

Lemma registry_idempotence_witness :
  let conn := mkConn "('10.0.0.2', 40000)" ("10.0.0.2:9002 4 BYE" ++ nl) true in
  let w := node "10.0.0.1:9001" [("10.0.0.2:9002", mkPeer "OFFLINE" 3)] in
  dispatch conn "10.0.0.2:9002" 4 "BYE" [] w = (inr tt, w).
Proof.
  intros conn w.
  apply (proj1 (registry_idempotence conn "10.0.0.2:9002" 4 []) w (mkPeer "OFFLINE" 3));
    reflexivity.
Defined.

(** C6 as stated fails on the log: the second [HELLO] with the same clock
    changes no record, yet it prints the update line again. *)
Lemma hello_repeated_is_logged :
  let conn := mkConn "('10.0.0.2', 40000)" ("10.0.0.2:9002 5 HELLO" ++ nl) true in
  let w := node "10.0.0.1:9001" [("10.0.0.2:9002", mkPeer "OFFLINE" 0)] in
  let w1 := snd (dispatch conn "10.0.0.2:9002" 5 "HELLO" [] w) in
  let w2 := snd (dispatch conn "10.0.0.2:9002" 5 "HELLO" [] w1) in
  peers w2 = peers w1
  /\ stdout w1 = ["Atualizando peer 10.0.0.2:9002 status ONLINE e relógio para 5"]
  /\ stdout w2 = ["Atualizando peer 10.0.0.2:9002 status ONLINE e relógio para 5";
                  "Atualizando peer 10.0.0.2:9002 status ONLINE e relógio para 5"]
  /\ stdout w2 <> stdout w1.
Proof.
  repeat split. discriminate.
Qed.


Lemma preserves_bind_gets {A B} P (g : World -> A) (f : A -> M B) :
  (forall w, P w -> P (snd (f (g w) w))) -> preserves P (bind (gets g) f).
Proof. intros H w Hw. unfold bind, gets. now apply H. Qed.









(* ===================================================================== *)
(** ** Invariants of the whole program *)
(* ===================================================================== *)

(** A property that survives each elementary change of the globals
    survives every operation of the node.  Each lemma below depends only
    on the closure conditions its operation needs. *)
Section Invariants.

Variable P : World -> Prop.

Hypothesis P_print : forall w line, P w -> P (add_stdout line w).
Hypothesis P_wire : forall w e, P w -> P (add_wire e w).
Hypothesis P_socket : forall w, P w -> P (incr_sockets w).
Hypothesis P_tick : forall w, P w -> P (set_clock (global_clock w + 1) w).
Hypothesis P_observe :
  forall w R, P w -> P (set_clock (Z.max (global_clock w) R + 1) w).
Hypothesis P_registry :
  forall w k info, P w -> P (set_peers (dict_set k info (peers w)) w).
Hypothesis P_write :
  forall w k bs, P w -> P (set_shared_dir (dict_set k bs (shared_dir w)) w).

Lemma inv_print line : preserves P (print line).
Proof. apply preserves_modify. intros w. apply P_print. Qed.

Lemma inv_py_int s : preserves P (py_int s).
Proof. unfold py_int. destruct (int s); [apply preserves_ret | apply preserves_raise]. Qed.

Lemma inv_update_clock : preserves P update_clock.
Proof.
  unfold update_clock.
  apply preserves_bind; [apply preserves_modify, P_tick|intros _].
  apply preserves_bind; [apply preserves_gets|intros c].
  apply preserves_bind; [apply inv_print|intros _; apply preserves_ret].
Qed.

Lemma inv_observe R : preserves P (observe R).
Proof.
  unfold observe.
  apply preserves_bind; [apply preserves_modify; intros w; apply P_observe|intros _].
  apply preserves_bind; [apply preserves_gets|intros c; apply inv_print].
Qed.

(** Every registry update is an assignment to one key of the registry as
    it is at that moment. *)
Lemma inv_set_status peer new_status : preserves P (set_status peer new_status).
Proof.
  unfold set_status. apply preserves_bind_gets. intros w Hw.
  destruct (dict_get peer (peers w)); [|exact Hw].
  destruct (negb _); [|exact Hw].
  unfold bind, modify, print, modify. simpl. now apply P_print, P_registry.
Qed.

Lemma inv_upsert_online origem R : preserves P (upsert_online origem R).
Proof.
  intros w Hw. rewrite upsert_online_run. simpl. now apply P_print, P_registry.
Qed.

Lemma inv_mark_offline origem : preserves P (mark_offline origem).
Proof.
  unfold mark_offline. apply preserves_bind_gets. intros w Hw.
  destruct (dict_get origem (peers w)); [|exact Hw].
  destruct (negb _); [|exact Hw].
  unfold bind, modify, print, modify. simpl. now apply P_print, P_registry.
Qed.

Lemma inv_merge peer_id st ck : preserves P (merge peer_id st ck).
Proof.
  unfold merge. apply preserves_bind_gets. intros w Hw.
  destruct (dict_get peer_id (peers w)); [destruct (_ || _)|]; try exact Hw;
    unfold bind, modify, print, modify; simpl; now apply P_print, P_registry.
Qed.

Lemma inv_conn_sendall conn data : preserves P (conn_sendall conn data).
Proof.
  unfold conn_sendall. destruct (conn_open conn); [|apply preserves_raise].
  apply preserves_modify. intros w. apply P_wire.
Qed.

Lemma inv_caught {A} (m : M A) (log : exn -> string) :
  preserves P m ->
  preserves P (r <- try m ;;
               match r with
               | inr _ => ret tt
               | inl e => if is_Exception e then print (log e) else raise e
               end).
Proof.
  intros Hm. apply preserves_bind; [now apply preserves_try|].
  intros [e|a]; [|apply preserves_ret].
  destruct (is_Exception e); [apply inv_print | apply preserves_raise].
Qed.

Lemma inv_handle_get_peers conn origem : preserves P (handle_get_peers conn origem).
Proof.
  unfold handle_get_peers.
  apply preserves_bind; [apply preserves_gets|intros ps].
  apply preserves_bind; [apply preserves_gets|intros sid].
  apply preserves_bind; [apply inv_update_clock|intros c].
  apply (inv_caught _ (fun e => "Erro ao enviar resposta para " ++ origem ++ ": "
                                ++ exn_text e)).
  apply inv_conn_sendall.
Qed.

Lemma inv_handle_ls conn origem : preserves P (handle_ls conn origem).
Proof.
  unfold handle_ls.
  apply (inv_caught _ (fun e => "Erro ao enviar resposta LS_LIST para " ++ origem
                                ++ ": " ++ exn_text e)).
  apply preserves_bind; [apply preserves_gets|intros files].
  apply preserves_bind; [apply preserves_gets|intros sid].
  apply preserves_bind; [apply inv_update_clock|intros c].
  apply inv_conn_sendall.
Qed.

Lemma inv_handle_dl conn args : preserves P (handle_dl conn args).
Proof.
  unfold handle_dl. destruct args as [|nome_arquivo args]; [apply preserves_ret|].
  apply preserves_bind; [apply preserves_gets|intros files].
  destruct (dict_get nome_arquivo files); [|apply inv_print].
  apply preserves_bind; [apply preserves_gets|intros sid].
  apply preserves_bind; [apply inv_update_clock|intros c].
  apply inv_conn_sendall.
Qed.

Lemma inv_dispatch conn origem R msg_type args :
  preserves P (dispatch conn origem R msg_type args).
Proof.
  unfold dispatch.
  repeat match goal with |- preserves _ (if ?b then _ else _) => destruct b end.
  - apply inv_upsert_online.
  - apply inv_handle_get_peers.
  - apply inv_mark_offline.
  - apply inv_handle_ls.
  - apply inv_handle_dl.
  - apply preserves_ret.
Qed.

Lemma inv_handle_client_body conn : preserves P (handle_client_body conn).
Proof.
  unfold handle_client_body. destruct (is_empty _); [apply preserves_ret|].
  apply preserves_bind; [apply inv_print|intros _].
  destruct (split _) as [|origem [|p1 [|msg_type args]]]; try apply preserves_ret.
  apply preserves_bind; [apply inv_py_int|intros R].
  apply preserves_bind; [apply inv_observe|intros _].
  apply inv_dispatch.
Qed.

Lemma inv_handle_client conn : preserves P (handle_client conn).
Proof.
  unfold handle_client. apply preserves_finally; [|intros w; apply P_wire].
  apply (inv_caught _ (fun e => "Erro no tratamento da conexão de " ++ conn_addr conn
                                ++ ": " ++ exn_text e)).
  apply inv_handle_client_body.
Qed.

Variable net : nat -> attempt_outcome.

Lemma inv_attempt peer_addr port message expect_reply :
  preserves P (attempt net peer_addr port message expect_reply).
Proof.
  unfold attempt.
  apply preserves_bind; [apply preserves_gets|intros k].
  apply preserves_bind; [apply preserves_modify, P_socket|intros _].
  apply preserves_finally; [|intros w; apply P_wire].
  apply preserves_bind; [|intros _].
  { unfold sock_connect. destruct (_ || _); [apply preserves_raise|].
    destruct (net k); auto using preserves_raise, preserves_ret. }
  apply preserves_bind; [apply inv_update_clock|intros c].
  apply preserves_bind; [apply preserves_gets|intros sid].
  apply preserves_bind; [apply inv_print|intros _].
  apply preserves_bind; [|intros _].
  { unfold sock_sendall.
    destruct (net k); try apply preserves_raise;
      apply preserves_modify; intros w; apply P_wire. }
  destruct expect_reply; [|apply preserves_ret].
  apply preserves_bind; [|intros; apply preserves_ret].
  unfold sock_recv. destruct (net k); auto using preserves_raise, preserves_ret.
Qed.

Lemma inv_send_loop peer_addr port message expect_reply max_retries attempts :
  preserves P (send_loop net peer_addr port message expect_reply max_retries attempts).
Proof.
  induction attempts as [|n attempts IH]; simpl.
  - apply preserves_ret.
  - apply preserves_bind; [apply preserves_try, inv_attempt|].
    intros [[cls text]|v]; [|apply preserves_ret].
    destruct cls; simpl;
      try (apply preserves_bind; [apply inv_print|intros _]);
      auto using preserves_ret, preserves_raise.
Qed.

Lemma inv_send_message peer_addr message expect_reply max_retries :
  preserves P (send_message net peer_addr message expect_reply max_retries).
Proof.
  unfold send_message.
  destruct (split_on ":" peer_addr) as [|ip [|port_str [|x rest]]];
    try apply preserves_raise.
  apply preserves_bind; [apply inv_py_int|intros port].
  apply inv_send_loop.
Qed.

Lemma inv_process_peer_info peer_info : preserves P (process_peer_info peer_info).
Proof.
  unfold process_peer_info.
  apply (inv_caught _ (fun e => "Erro ao processar peer " ++ peer_info ++ ": "
                                ++ exn_text e)).
  destruct (split_on ":" peer_info) as [|p0 [|p1 [|p2 rest]]];
    try apply preserves_ret.
  apply preserves_bind.
  - destruct rest; [apply preserves_raise | apply inv_py_int].
  - intros ck. apply preserves_bind; [apply preserves_gets|intros sid].
    destruct (_ =? sid); [apply preserves_ret | apply inv_merge].
Qed.

Lemma inv_ingest_peer_list peer_addr reply :
  preserves P (ingest_peer_list peer_addr reply).
Proof.
  unfold ingest_peer_list.
  destruct (split (strip reply)) as [|a [|b [|p2 [|p3 rest]]]];
    try apply inv_print.
  destruct (p2 =? "PEER_LIST"); [|apply inv_print].
  apply preserves_bind; [apply inv_py_int|intros total].
  apply preserves_bind.
  { destruct (negb _); [apply inv_print | apply preserves_ret]. }
  intros _. apply preserves_bind.
  - apply preserves_for_each. intros x. apply inv_process_peer_info.
  - intros _. apply inv_set_status.
Qed.

Lemma inv_get_peers_from peer_addr : preserves P (get_peers_from net peer_addr).
Proof.
  unfold get_peers_from.
  apply preserves_bind; [apply inv_update_clock|intros _].
  apply preserves_bind; [apply inv_send_message|intros reply].
  destruct (truthy reply); [|apply inv_set_status].
  destruct reply; try apply preserves_ret.
  apply (inv_caught _ (fun e => "Erro ao processar resposta de " ++ peer_addr ++ ": "
                                ++ exn_text e)).
  apply inv_ingest_peer_list.
Qed.

Lemma inv_command_get_peers : preserves P (command_get_peers net).
Proof.
  unfold command_get_peers.
  apply preserves_bind; [apply preserves_gets|intros l].
  apply preserves_for_each. intros x. apply inv_get_peers_from.
Qed.

Lemma inv_ingest_ls_list peer_addr reply acc :
  preserves P (ingest_ls_list peer_addr reply acc).
Proof.
  unfold ingest_ls_list.
  destruct (split (strip reply)) as [|a [|b [|p2 [|p3 rest]]]];
    try (apply preserves_bind; [apply inv_print | intros _; apply preserves_ret]).
  destruct (p2 =? "LS_LIST");
    [|apply preserves_bind; [apply inv_print | intros _; apply preserves_ret]].
  destruct (int p3) as [total|];
    [|apply preserves_bind; [apply inv_print | intros _; apply preserves_ret]].
  destruct (parse_files _ _ _) as [acc' [e|]].
  - apply preserves_bind; [apply inv_print | intros _; apply preserves_ret].
  - apply preserves_bind; [apply preserves_try, inv_set_status|].
    intros [e|[]]; [|apply preserves_ret].
    destruct (is_Exception e); [|apply preserves_raise].
    apply preserves_bind; [apply inv_print | intros _; apply preserves_ret].
Qed.

Lemma inv_ls_from peer_addr acc : preserves P (ls_from net peer_addr acc).
Proof.
  unfold ls_from.
  apply preserves_bind; [apply inv_send_message|intros reply].
  destruct (truthy reply).
  - destruct reply; try apply preserves_ret. apply inv_ingest_ls_list.
  - apply preserves_bind; [apply inv_set_status | intros _; apply preserves_ret].
Qed.

Lemma inv_ls_fanout online_peers acc : preserves P (ls_fanout net online_peers acc).
Proof.
  revert acc. induction online_peers as [|p l IH]; intros acc; simpl.
  - apply preserves_ret.
  - apply preserves_bind; [apply inv_ls_from | intros acc'; apply IH].
Qed.

Lemma inv_print_found idx l : preserves P (print_found idx l).
Proof.
  revert idx. induction l as [|[[nome tamanho] peer] l IH]; intros idx; simpl.
  - apply preserves_ret.
  - apply preserves_bind; [apply inv_print | intros _; apply IH].
Qed.

Lemma inv_download nome_arquivo peer_addr :
  preserves P (download net nome_arquivo peer_addr).
Proof.
  unfold download.
  apply preserves_bind; [apply inv_send_message|intros reply].
  destruct (truthy reply); [|apply inv_print].
  destruct reply; try apply preserves_ret.
  apply preserves_bind; [apply inv_print|intros _].
  destruct (split (strip reply)) as [|a [|b [|p2 [|p3 [|p4 [|p5 rest]]]]]];
    try apply inv_print.
  destruct (p2 =? "FILE"); [|apply inv_print].
  destruct (negb _); [|apply inv_print].
  destruct (Base64.b64decode p5); [|apply preserves_raise].
  apply preserves_bind; [|intros _; apply inv_print].
  apply preserves_modify. intros w. apply P_write.
Qed.

Lemma inv_choose_and_download arquivos escolha :
  preserves P (choose_and_download net arquivos escolha).
Proof.
  unfold choose_and_download.
  apply preserves_bind.
  - apply preserves_try.
    apply preserves_bind; [apply inv_py_int|intros n].
    destruct (_ || _); [apply inv_print|].
    destruct (nth_error _ _) as [[[nome t] peer]|]; [apply inv_download | apply preserves_ret].
  - intros [e|[]]; [|apply preserves_ret].
    destruct (is_ValueError e); [apply inv_print | apply preserves_raise].
Qed.

Lemma inv_command_search_files escolha : preserves P (command_search_files net escolha).
Proof.
  unfold command_search_files.
  apply preserves_bind; [apply preserves_gets|intros online_peers].
  apply preserves_bind; [apply inv_ls_fanout|intros arquivos].
  repeat (apply preserves_bind; [apply inv_print|intros _]).
  apply preserves_bind; [apply inv_print_found|intros _].
  apply preserves_bind; [apply inv_print|intros _].
  apply inv_choose_and_download.
Qed.

Lemma inv_hello_probe peer_addr : preserves P (hello_probe net peer_addr).
Proof.
  unfold hello_probe.
  apply preserves_bind; [apply inv_send_message|intros reply].
  apply inv_set_status.
Qed.

Lemma inv_bye_fanout : preserves P (bye_fanout net).
Proof.
  unfold bye_fanout.
  apply preserves_bind; [apply preserves_gets|intros online_peers].
  apply preserves_for_each. intros peer_addr.
  apply preserves_bind; [apply inv_send_message | intros _; apply preserves_ret].
Qed.

Lemma inv_load_neighbors f content : preserves P (load_neighbors f content).
Proof.
  unfold load_neighbors. destruct content as [lines|].
  - apply preserves_for_each. intros line.
    apply preserves_bind_gets. intros w Hw.
    destruct (_ && _); [|exact Hw].
    unfold bind, gets. destruct (dict_mem _ _); [exact Hw|].
    unfold modify, print, modify. simpl. now apply P_print, P_registry.
  - apply preserves_bind; [apply inv_print|intros _; apply preserves_raise].
Qed.

Lemma inv_print_peers idx l : preserves P (print_peers idx l).
Proof.
  revert idx. induction l as [|[peer info] l IH]; intros idx; simpl.
  - apply preserves_ret.
  - apply preserves_bind; [apply inv_print | intros _; apply IH].
Qed.

Lemma inv_probe_choice peers_list escolha :
  preserves P (probe_choice net peers_list escolha).
Proof.
  unfold probe_choice. destruct (_ =? "0"); [apply preserves_ret|].
  apply preserves_bind.
  - apply preserves_try.
    apply preserves_bind; [apply inv_py_int|intros n].
    destruct (_ || _); [apply inv_print|].
    destruct (nth_error _ _) as [[peer info]|]; [apply inv_hello_probe | apply preserves_ret].
  - intros [e|[]]; [|apply preserves_ret].
    destruct (is_ValueError e); [|apply preserves_raise].
    apply preserves_bind; [apply inv_print | intros _; apply preserves_ret].
Qed.

Lemma inv_list_peers_round escolha : preserves P (list_peers_round net escolha).
Proof.
  unfold list_peers_round.
  apply preserves_bind; [apply preserves_gets|intros peers_list].
  destruct peers_list as [|e l].
  - apply preserves_bind; [apply inv_print | intros _; apply preserves_ret].
  - repeat (apply preserves_bind; [apply inv_print|intros _]).
    apply preserves_bind; [apply inv_print_peers|intros _].
    apply preserves_bind; [apply inv_print|intros _].
    apply inv_probe_choice.
Qed.

Lemma inv_command_list_local_files : preserves P command_list_local_files.
Proof.
  unfold command_list_local_files, list_local_files.
  apply preserves_bind; [apply inv_print|intros _].
  apply preserves_bind.
  - apply preserves_try.
    apply preserves_bind; [apply preserves_gets|intros files].
    destruct files; [apply inv_print|].
    apply preserves_for_each. intros x. apply inv_print.
  - intros [e|[]]; [|apply preserves_ret].
    destruct (is_Exception e); [apply inv_print | apply preserves_raise].
Qed.

End Invariants.

(* ===================================================================== *)
(** ** The outbound messenger *)
(* ===================================================================== *)

Section Messenger.

Variable net : nat -> attempt_outcome.

Lemma port_in_range port :
  (0 <= port <= 65535)%Z -> (port <? 0)%Z || (65535 <? port)%Z = false.
Proof. intros H. apply orb_false_iff. split; apply Z.ltb_ge; lia. Qed.

(** An attempt that ends in an error raises it, having opened one socket
    and left the registry alone. *)
Lemma attempt_raises peer_addr port message expect_reply w e :
  (0 <= port <= 65535)%Z ->
  raised expect_reply (net (sockets w)) = Some e ->
  exists w', attempt net peer_addr port message expect_reply w = (inl (exn_of e), w')
    /\ sockets w' = S (sockets w) /\ peers w' = peers w
    /\ server_id w' = server_id w.
Proof.
  intros Hport Hr.
  unfold attempt, bind, gets, modify, finally, sock_connect.
  rewrite (port_in_range _ Hport). cbn [sockets incr_sockets fst snd].
  destruct (net (sockets w)) as [e0|e0|e0|d]; simpl in Hr.
  - injection Hr as ->. unfold raise. eexists; repeat split.
  - injection Hr as ->. unfold ret, update_clock, bind, modify, gets, print, modify,
      sock_sendall, raise. eexists; repeat split.
  - destruct expect_reply; [|discriminate]. injection Hr as ->.
    unfold ret, update_clock, bind, modify, gets, print, modify,
      sock_sendall, sock_recv, raise. eexists; repeat split.
  - discriminate.
Qed.

(** An attempt that meets no error: the clock is advanced once, the
    request line stamped with the new value is written, and the connection
    is closed. *)
Lemma attempt_succeeds peer_addr port message expect_reply w :
  (0 <= port <= 65535)%Z ->
  raised expect_reply (net (sockets w)) = None ->
  exists w',
    attempt net peer_addr port message expect_reply w
    = (inr (if expect_reply then Str (sock_reply (net (sockets w))) else PyTrue), w')
    /\ sockets w' = S (sockets w) /\ peers w' = peers w
    /\ server_id w' = server_id w /\ shared_dir w' = shared_dir w
    /\ global_clock w' = (global_clock w + 1)%Z
    /\ wire w' = (wire w ++ [Send peer_addr
                               (request_line (server_id w) (global_clock w + 1) message);
                             Close peer_addr])%list.
Proof.
  intros Hport Hr.
  unfold attempt, bind, gets, modify, finally, sock_connect.
  rewrite (port_in_range _ Hport). cbn [sockets incr_sockets fst snd].
  unfold sock_reply.
  destruct (net (sockets w)) as [e0|e0|e0|d]; simpl in Hr; try discriminate.
  - destruct expect_reply; [discriminate|].
    unfold ret, update_clock, bind, modify, gets, print, modify, sock_sendall.
    eexists; split; [reflexivity|]. simpl. repeat split.
    now rewrite <- app_assoc.
  - unfold ret, update_clock, bind, modify, gets, print, modify, sock_sendall, sock_recv.
    destruct expect_reply; (eexists; split; [reflexivity|]); simpl; repeat split;
      now rewrite <- app_assoc.
Qed.

(** One turn of the loop of [send_message], by what the attempt did. *)
Lemma send_loop_step peer_addr port message expect_reply max_retries n rest w :
  send_loop net peer_addr port message expect_reply max_retries (n :: rest) w
  = match attempt net peer_addr port message expect_reply w with
    | (inr v, w') => (inr v, w')
    | (inl (Exn SocketTimeout t), w') =>
        send_loop net peer_addr port message expect_reply max_retries rest
          (add_stdout ("Timeout ao conectar com " ++ peer_addr ++ " (tentativa "
                       ++ str (Z.of_nat n + 1) ++ "/" ++ str max_retries ++ ")") w')
    | (inl (Exn ConnectionRefusedError t), w') =>
        (inr PyNone, add_stdout ("Conexão recusada por " ++ peer_addr) w')
    | (inl (Exn SystemExit t), w') => (inl (Exn SystemExit t), w')
    | (inl e, w') =>
        send_loop net peer_addr port message expect_reply max_retries rest
          (add_stdout ("Erro ao enviar mensagem para " ++ peer_addr ++ ": "
                       ++ exn_text e) w')
    end.
Proof.
  simpl. unfold bind at 1. unfold try.
  destruct (attempt net peer_addr port message expect_reply w) as [[[cls t]|v] w'];
    [destruct cls|]; reflexivity.
Qed.

(** As long as the attempts end in timeouts or other errors, the loop goes
    on: it uses up every attempt it was given and returns [None]. *)
Lemma send_loop_exhausts peer_addr port message expect_reply max_retries attempts :
  (0 <= port <= 65535)%Z ->
  forall w,
  (forall j, (j < List.length attempts)%nat ->
             retried (raised expect_reply (net (sockets w + j)))) ->
  exists w',
    send_loop net peer_addr port message expect_reply max_retries attempts w
    = (inr PyNone, w')
    /\ sockets w' = (sockets w + List.length attempts)%nat
    /\ peers w' = peers w /\ server_id w' = server_id w.
Proof.
  intros Hport. induction attempts as [|n rest IH]; intros w Hall.
  - exists w. simpl. repeat split. lia.
  - rewrite send_loop_step.
    assert (H0 : retried (raised expect_reply (net (sockets w)))).
    { specialize (Hall 0%nat). rewrite Nat.add_0_r in Hall. apply Hall. simpl. lia. }
    assert (Hrest : forall w1, sockets w1 = S (sockets w) ->
              forall j, (j < List.length rest)%nat ->
                        retried (raised expect_reply (net (sockets w1 + j)))).
    { intros w1 Hs j Hj. rewrite Hs.
      replace (S (sockets w) + j)%nat with (sockets w + S j)%nat by lia.
      apply Hall. simpl. lia. }
    destruct H0 as [H0|[text H0]];
      destruct (attempt_raises peer_addr port message expect_reply w _ Hport H0)
        as (w1 & Hrun & Hs & Hp & Hsid);
      rewrite Hrun; simpl exn_of; cbv iota;
      match goal with |- context [send_loop _ _ _ _ _ _ _ ?w2] =>
        destruct (IH w2 (Hrest w2 Hs)) as (w' & Hloop & Hs' & Hp' & Hsid')
      end;
      exists w'; rewrite Hloop; repeat split; simpl in *; try congruence; lia.
Qed.

(** A refused attempt ends the loop at once, whatever is left of the
    budget. *)
Lemma send_loop_refused peer_addr port message expect_reply max_retries attempts :
  (0 <= port <= 65535)%Z ->
  forall w i,
  (i < List.length attempts)%nat ->
  (forall j, (j < i)%nat -> retried (raised expect_reply (net (sockets w + j)))) ->
  raised expect_reply (net (sockets w + i)) = Some Refused ->
  exists w',
    send_loop net peer_addr port message expect_reply max_retries attempts w
    = (inr PyNone, w')
    /\ sockets w' = (sockets w + i + 1)%nat
    /\ peers w' = peers w /\ server_id w' = server_id w.
Proof.
  intros Hport. induction attempts as [|n rest IH]; intros w i Hi Hbefore Href.
  - simpl in Hi. lia.
  - rewrite send_loop_step. destruct i as [|i].
    + rewrite Nat.add_0_r in Href.
      destruct (attempt_raises peer_addr port message expect_reply w _ Hport Href)
        as (w1 & Hrun & Hs & Hp & Hsid).
      rewrite Hrun. simpl exn_of. cbv iota.
      eexists; repeat split; simpl; try congruence. lia.
    + assert (H0 : retried (raised expect_reply (net (sockets w)))).
      { specialize (Hbefore 0%nat). rewrite Nat.add_0_r in Hbefore.
        apply Hbefore. lia. }
      assert (Hrest : forall w1, sockets w1 = S (sockets w) ->
                (forall j, (j < i)%nat ->
                           retried (raised expect_reply (net (sockets w1 + j))))
                /\ raised expect_reply (net (sockets w1 + i)) = Some Refused).
      { intros w1 Hs. rewrite Hs. split.
        - intros j Hj.
          replace (S (sockets w) + j)%nat with (sockets w + S j)%nat by lia.
          apply Hbefore. lia.
        - replace (S (sockets w) + i)%nat with (sockets w + S i)%nat by lia.
          exact Href. }
      simpl in Hi.
      destruct H0 as [H0|[text H0]];
        destruct (attempt_raises peer_addr port message expect_reply w _ Hport H0)
          as (w1 & Hrun & Hs & Hp & Hsid);
        rewrite Hrun; simpl exn_of; cbv iota;
        match goal with |- context [send_loop _ _ _ _ _ _ _ ?w2] =>
          destruct (Hrest w2 Hs) as (Hb2 & Hr2);
          destruct (IH w2 i ltac:(lia) Hb2 Hr2) as (w' & Hloop & Hs' & Hp' & Hsid')
        end;
        exists w'; rewrite Hloop; repeat split; simpl in *; try congruence; lia.
Qed.

Lemma send_message_valid peer_addr port message expect_reply max_retries w :
  valid_address peer_addr port ->
  send_message net peer_addr message expect_reply max_retries w
  = send_loop net peer_addr port message expect_reply max_retries
      (seq 0 (Z.to_nat max_retries)) w.
Proof.
  intros (ip & port_str & Hsplit & Hint & _).
  unfold send_message. rewrite Hsplit. unfold bind, py_int. now rewrite Hint.
Qed.

(** With at least one attempt allowed and no error on the first one,
    [send_message] is that attempt. *)
Lemma send_message_succeeds peer_addr port message expect_reply max_retries w :
  valid_address peer_addr port ->
  (1 <= max_retries)%Z ->
  raised expect_reply (net (sockets w)) = None ->
  exists w',
    send_message net peer_addr message expect_reply max_retries w
    = (inr (if expect_reply then Str (sock_reply (net (sockets w))) else PyTrue), w')
    /\ sockets w' = S (sockets w) /\ peers w' = peers w
    /\ server_id w' = server_id w /\ shared_dir w' = shared_dir w
    /\ global_clock w' = (global_clock w + 1)%Z
    /\ wire w' = (wire w ++ [Send peer_addr
                               (request_line (server_id w) (global_clock w + 1) message);
                             Close peer_addr])%list.
Proof.
  intros Hvalid Hmax Hr.
  rewrite (send_message_valid _ _ _ _ _ _ Hvalid).
  destruct (Z.to_nat max_retries) as [|n] eqn:Hn; [lia|].
  simpl seq. rewrite send_loop_step.
  destruct Hvalid as (ip & port_str & _ & _ & Hport).
  destruct (attempt_succeeds peer_addr port message expect_reply w Hport Hr)
    as (w' & Hrun & Hfacts).
  rewrite Hrun. exists w'. split; [reflexivity | exact Hfacts].
Qed.

End Messenger.

Lemma set_status_run peer new_status info w :
  dict_get peer (peers w) = Some info ->
  exists w', set_status peer new_status w = (inr tt, w')
    /\ dict_get peer (peers w') = Some (mkPeer new_status (clock info))
    /\ (forall k, k <> peer -> dict_get k (peers w') = dict_get k (peers w))
    /\ server_id w' = server_id w /\ shared_dir w' = shared_dir w
    /\ global_clock w' = global_clock w /\ sockets w' = sockets w
    /\ wire w' = wire w.
Proof.
  intros Hget. unfold set_status, bind, gets. rewrite Hget.
  destruct (String.eqb_spec (status info) new_status) as [Heq|Hne]; simpl.
  - exists w. repeat split. rewrite Hget. destruct info; simpl in *. congruence.
  - unfold modify, print, modify. eexists; split; [reflexivity|]. simpl.
    repeat split; auto using dict_get_set_same, dict_get_set_other.
Qed.
(* ===================================================================== *)
(** ** Retries, and the reply that is empty *)
(* ===================================================================== *)

(** C2.  [send_message] to an address it can connect to, counting the
    sockets it opens.  A refused first attempt: failure after exactly one
    attempt.  Every attempt timing out, with [max_retries = 2]: failure
    after exactly two attempts.  In general timeouts and other errors are
    retried until the budget of [max_retries] attempts is used up, and a
    refusal after [i] such failures stops the loop after [i + 1]
    attempts. *)
Theorem send_retry_policy net peer_addr port message expect_reply max_retries w :
  valid_address peer_addr port ->
  let run := send_message net peer_addr message expect_reply max_retries w in
  let attempts_made := (sockets (snd run) - sockets w)%nat in
  let outcome j := raised expect_reply (net (sockets w + j)%nat) in
  ((1 <= max_retries)%Z -> outcome 0%nat = Some Refused ->
   fst run = inr PyNone /\ attempts_made = 1%nat)
  /\ (max_retries = 2%Z -> (forall j, outcome j = Some Timeout) ->
      fst run = inr PyNone /\ attempts_made = 2%nat)
  /\ ((forall j, (j < Z.to_nat max_retries)%nat -> retried (outcome j)) ->
      fst run = inr PyNone /\ attempts_made = Z.to_nat max_retries)
  /\ (forall i, (i < Z.to_nat max_retries)%nat ->
      (forall j, (j < i)%nat -> retried (outcome j)) ->
      outcome i = Some Refused ->
      fst run = inr PyNone /\ attempts_made = (i + 1)%nat).
Proof.
  intros Hvalid run attempts_made outcome.
  assert (Hport : (0 <= port <= 65535)%Z) by (destruct Hvalid as (? & ? & ? & ? & ?); auto).
  assert (Hexh : (forall j, (j < Z.to_nat max_retries)%nat -> retried (outcome j)) ->
                 fst run = inr PyNone /\ attempts_made = Z.to_nat max_retries).
  { intros Hall. subst run attempts_made.
    rewrite (send_message_valid net _ _ _ _ _ _ Hvalid).
    destruct (send_loop_exhausts net peer_addr port message expect_reply max_retries
                (seq 0 (Z.to_nat max_retries)) Hport w) as (w' & Hrun & Hs & _).
    { rewrite length_seq. exact Hall. }
    rewrite Hrun. simpl. rewrite Hs, length_seq. split; [reflexivity | lia]. }
  assert (Href : forall i, (i < Z.to_nat max_retries)%nat ->
                 (forall j, (j < i)%nat -> retried (outcome j)) ->
                 outcome i = Some Refused ->
                 fst run = inr PyNone /\ attempts_made = (i + 1)%nat).
  { intros i Hi Hbefore Hrefused. subst run attempts_made.
    rewrite (send_message_valid net _ _ _ _ _ _ Hvalid).
    destruct (send_loop_refused net peer_addr port message expect_reply max_retries
                (seq 0 (Z.to_nat max_retries)) Hport w i) as (w' & Hrun & Hs & _);
      auto.
    { now rewrite length_seq. }
    rewrite Hrun. simpl. rewrite Hs. split; [reflexivity | lia]. }
  repeat split.
  - apply (Href 0%nat); [lia | intros j Hj; lia | assumption].
  - apply (Href 0%nat); [lia | intros j Hj; lia | assumption].
  - apply Hexh. intros j _. left. apply H0.
  - destruct Hexh as [_ Hn]; [intros j _; left; apply H0|].
    rewrite Hn. subst max_retries. reflexivity.
  - now apply Hexh.
  - now apply Hexh.
  - now apply (Href i).
  - now apply (Href i).
Qed.

Lemma send_retry_policy_witness :
  let net := fun _ : nat => ConnectFails Timeout in
  let w := node "10.0.0.1:9001" [("10.0.0.2:9002", mkPeer "ONLINE" 3)] in
  let run := send_message net "10.0.0.2:9002" "HELLO" false 2 w in
  fst run = inr PyNone /\ (sockets (snd run) - sockets w)%nat = 2%nat.
Proof.
  intros net w run.
  assert (Hvalid : valid_address "10.0.0.2:9002" 9002).
  { exists "10.0.0.2", "9002". repeat split; [discriminate | discriminate]. }
  destruct (send_retry_policy net "10.0.0.2:9002" 9002 "HELLO" false 2 w Hvalid)
    as (_ & Htimeouts & _).
  apply Htimeouts; [reflexivity | intros j; reflexivity].
Defined.

Lemma count_sends_app l1 l2 :
  count_sends (l1 ++ l2) = (count_sends l1 + count_sends l2)%nat.
Proof.
  induction l1 as [|[d t|d] l1 IH]; simpl; auto.
Qed.

Lemma update_clock_run w :
  exists w', update_clock w = (inr (global_clock w + 1)%Z, w')
    /\ global_clock w' = (global_clock w + 1)%Z
    /\ sockets w' = sockets w /\ peers w' = peers w
    /\ server_id w' = server_id w /\ shared_dir w' = shared_dir w
    /\ wire w' = wire w.
Proof.
  unfold update_clock, bind, modify, gets, print, modify, ret. simpl.
  eexists; repeat split.
Qed.

(** C10.  The contacted peer accepts the connection, reads the request
    and closes without writing.  [send_message] then returns the empty
    text, neither [None] nor an exception, having written its request; the
    refresh of the peer list and the file search both take that reply for
    a failure and record the peer as OFFLINE, its clock untouched. *)
Theorem empty_reply_is_failure net peer_addr port info w :
  valid_address peer_addr port ->
  dict_get peer_addr (peers w) = Some info ->
  net (sockets w) = PeerReplies "" ->
  (forall message, exists w',
      send_message net peer_addr message true 2 w = (inr (Str ""), w')
      /\ wire w' = (wire w ++ [Send peer_addr
                                 (request_line (server_id w) (global_clock w + 1) message);
                               Close peer_addr])%list)
  /\ (exists w', get_peers_from net peer_addr w = (inr tt, w')
        /\ dict_get peer_addr (peers w') = Some (mkPeer "OFFLINE" (clock info))
        /\ count_sends (wire w') = S (count_sends (wire w)))
  /\ (forall acc, exists w', ls_from net peer_addr acc w = (inr acc, w')
        /\ dict_get peer_addr (peers w') = Some (mkPeer "OFFLINE" (clock info))
        /\ count_sends (wire w') = S (count_sends (wire w))).
Proof.
  intros Hvalid Hget Hnet.
  assert (Hsend : forall message w0,
            sockets w0 = sockets w ->
            exists w', send_message net peer_addr message true 2 w0 = (inr (Str ""), w')
              /\ peers w' = peers w0
              /\ wire w' = (wire w0 ++ [Send peer_addr
                                 (request_line (server_id w0) (global_clock w0 + 1) message);
                               Close peer_addr])%list).
  { intros message w0 Hs.
    destruct (send_message_succeeds net peer_addr port message true 2 w0 Hvalid)
      as (w' & Hrun & _ & Hp & _ & _ & _ & Hw); [lia | now rewrite Hs, Hnet |].
    rewrite Hs, Hnet in Hrun. exists w'. auto. }
  repeat split.
  - intros message. destruct (Hsend message w eq_refl) as (w' & Hrun & _ & Hw).
    exists w'. auto.
  - unfold get_peers_from.
    destruct (update_clock_run w) as (w0 & Hclk & _ & Hs0 & Hp0 & _ & _ & Hw0).
    destruct (Hsend "GET_PEERS" w0 Hs0) as (w1 & Hrun & Hp1 & Hw1).
    destruct (set_status_run peer_addr "OFFLINE" info w1)
      as (w2 & Hset & Hst & _ & _ & _ & _ & _ & Hw2); [congruence|].
    exists w2. unfold bind at 1. rewrite Hclk. unfold bind at 1. rewrite Hrun.
    change (truthy (Str "")) with false. cbv beta iota.
    rewrite Hset. repeat split; auto.
    rewrite Hw2, Hw1, Hw0, count_sends_app. simpl. lia.
  - intros acc. unfold ls_from.
    destruct (Hsend "LS" w eq_refl) as (w1 & Hrun & Hp1 & Hw1).
    destruct (set_status_run peer_addr "OFFLINE" info w1)
      as (w2 & Hset & Hst & _ & _ & _ & _ & _ & Hw2); [congruence|].
    exists w2. unfold bind at 1. rewrite Hrun.
    change (truthy (Str "")) with false. cbv beta iota.
    unfold bind. rewrite Hset. repeat split; auto.
    rewrite Hw2, Hw1, count_sends_app. simpl. lia.
Qed.

Lemma empty_reply_is_failure_witness :
  let net := fun _ : nat => PeerReplies "" in
  let w := node "10.0.0.1:9001" [("10.0.0.2:9002", mkPeer "ONLINE" 3)] in
  exists w', get_peers_from net "10.0.0.2:9002" w = (inr tt, w')
    /\ dict_get "10.0.0.2:9002" (peers w') = Some (mkPeer "OFFLINE" 3)
    /\ count_sends (wire w') = 1%nat.
Proof.
  intros net w.
  assert (Hvalid : valid_address "10.0.0.2:9002" 9002).
  { exists "10.0.0.2", "9002". repeat split; [discriminate | discriminate]. }
  destruct (empty_reply_is_failure net "10.0.0.2:9002" 9002 (mkPeer "ONLINE" 3) w
              Hvalid eq_refl eq_refl) as (_ & Hgp & _).
  exact Hgp.
Defined.

(* ===================================================================== *)
(** ** The file transfer *)
(* ===================================================================== *)

(** The fields of a [FILE] line: the payload comes seventh, after the two
    zeros. *)
Lemma file_reply_fields sid c nome bs :
  is_token sid = true -> is_token nome = true ->
  split (strip (file_reply sid c nome bs))
  = sid :: str c :: "FILE" :: nome :: "0" :: "0"
        :: split (Base64.b64encode bs ++ nl).
Proof.
  intros Hsid Hnome. rewrite split_strip.
  change (file_reply sid c nome bs)
    with (sid ++ " " ++ str c ++ " " ++ "FILE" ++ " " ++ nome ++ " "
          ++ "0" ++ " " ++ "0" ++ " " ++ (Base64.b64encode bs ++ nl)).
  apply split_six_fields; auto using str_is_token.
Qed.

(** The [DL] branch on a file it holds. *)
Lemma handle_dl_reply conn nome args bs w :
  dict_get nome (shared_dir w) = Some bs ->
  conn_open conn = true ->
  exists w', handle_dl conn (nome :: args) w = (inr tt, w')
    /\ wire w' = (wire w ++ [Send (conn_addr conn)
                               (file_reply (server_id w) (global_clock w + 1) nome bs)])%list
    /\ shared_dir w' = shared_dir w.
Proof.
  intros Hget Hopen.
  unfold handle_dl, bind, gets. rewrite Hget.
  unfold update_clock, bind, modify, gets, print, modify, ret, conn_sendall.
  rewrite Hopen. simpl. eexists; repeat split.
Qed.

Section Transfer.

Variable net : nat -> attempt_outcome.

(** Whatever the file, the downloading side takes the length field for
    the payload: decoding fails and nothing is written. *)
Lemma download_never_completes w peer_addr port sid c nome bs wanted :
  valid_address peer_addr port ->
  is_token sid = true -> is_token nome = true ->
  (String.length (file_reply sid c nome bs) <= 4096)%nat ->
  net (sockets w) = PeerReplies (file_reply sid c nome bs) ->
  exists w',
    download net wanted peer_addr w = (inl (Exn ValueError "Incorrect padding"), w')
    /\ shared_dir w' = shared_dir w.
Proof.
  intros Hvalid Hsid Hnome Hlen Hnet.
  destruct (send_message_succeeds net peer_addr port ("DL " ++ wanted ++ " 0 0") true 2 w
              Hvalid) as (w1 & Hrun & _ & _ & _ & Hdir & _); [lia | now rewrite Hnet |].
  rewrite Hnet in Hrun. unfold sock_reply, recv in Hrun.
  rewrite substring_all in Hrun by assumption.
  unfold download. unfold bind at 1. rewrite Hrun.
  assert (Hne : truthy (Str (file_reply sid c nome bs)) = true).
  { unfold file_reply. destruct sid; [discriminate | reflexivity]. }
  rewrite Hne. unfold bind at 1. unfold print at 1, modify at 1.
  rewrite (file_reply_fields _ _ _ _ Hsid Hnome).
  change ("FILE" =? "FILE") with true. cbv iota.
  change (negb (is_empty "0")) with true. cbv iota.
  change (Base64.b64decode "0") with (@None (list byte)). cbv iota.
  unfold raise. eexists; split; [reflexivity | exact Hdir].
Qed.

End Transfer.

(* ===================================================================== *)
(** ** Clock ticks per message, and a download from end to end *)
(* ===================================================================== *)

Section Ticks.

Variable net : nat -> attempt_outcome.

Lemma traffic_is_traffic_pred c l :
  traffic_pred (fun w => global_clock w = c /\ wire w = l).
Proof. unfold traffic_pred. intros w w' -> ->. auto. Qed.

(** The refresh of the peer list, for a peer that takes the request:
    one message, two ticks. *)
Lemma refresh_ticks_twice peer_addr port w :
  valid_address peer_addr port ->
  raised true (net (sockets w)) = None ->
  let w' := snd (get_peers_from net peer_addr w) in
  global_clock w' = (global_clock w + 2)%Z
  /\ count_sends (wire w') = S (count_sends (wire w)).
Proof.
  intros Hvalid Hr w'. subst w'. unfold get_peers_from.
  destruct (update_clock_run w) as (w0 & Hclk & Hc0 & Hs0 & _ & _ & _ & Hw0).
  destruct (send_message_succeeds net peer_addr port "GET_PEERS" true 2 w0 Hvalid)
    as (w1 & Hrun & _ & _ & _ & _ & Hc1 & Hw1); [lia | now rewrite Hs0 |].
  rewrite (bind_run _ _ _ _ _ Hclk), (bind_run _ _ _ _ _ Hrun).
  set (reply := sock_reply (net (sockets w0))).
  match goal with |- context [snd (?m w1)] =>
    assert (Hrest : preserves (fun x => global_clock x = global_clock w1
                                        /\ wire x = wire w1) m)
  end.
  { pose proof (traffic_is_traffic_pred (global_clock w1) (wire w1)) as HP.
    destruct (truthy (Str reply)); [|now apply traffic_set_status].
    apply preserves_bind; [now apply preserves_try, traffic_ingest_peer_list|].
    intros [e|[]]; [|apply preserves_ret].
    destruct (is_Exception e); [now apply traffic_print | apply preserves_raise]. }
  destruct (Hrest w1 (conj eq_refl eq_refl)) as (Hc & Hw).
  cbv beta iota in Hc, Hw |- *. rewrite Hc, Hw, Hc1, Hc0, Hw1, Hw0, count_sends_app. simpl. split; lia.
Qed.

(** The file search, for the same peer: one message, one tick. *)
Lemma search_ticks_once peer_addr port acc w :
  valid_address peer_addr port ->
  raised true (net (sockets w)) = None ->
  let w' := snd (ls_from net peer_addr acc w) in
  global_clock w' = (global_clock w + 1)%Z
  /\ count_sends (wire w') = S (count_sends (wire w)).
Proof.
  intros Hvalid Hr w'. subst w'. unfold ls_from.
  destruct (send_message_succeeds net peer_addr port "LS" true 2 w Hvalid)
    as (w1 & Hrun & _ & _ & _ & _ & Hc1 & Hw1); [lia | assumption |].
  rewrite (bind_run _ _ _ _ _ Hrun).
  set (reply := sock_reply (net (sockets w))).
  match goal with |- context [snd (?m w1)] =>
    assert (Hrest : preserves (fun x => global_clock x = global_clock w1
                                        /\ wire x = wire w1) m)
  end.
  { pose proof (traffic_is_traffic_pred (global_clock w1) (wire w1)) as HP.
    destruct (truthy (Str reply)); [now apply traffic_ingest_ls_list|].
    apply preserves_bind; [now apply traffic_set_status | intros _; apply preserves_ret]. }
  destruct (Hrest w1 (conj eq_refl eq_refl)) as (Hc & Hw).
  cbv beta iota in Hc, Hw |- *. rewrite Hc, Hw, Hc1, Hw1, count_sends_app. simpl. split; lia.
Qed.

End Ticks.

(** C4.  One refresh of the peer list against one peer that answers: a
    single message is written, and it carries clock 2, because
    [command_get_peers] advances the clock once itself before
    [send_message] advances it again for the message.  The file search
    against the same peer writes a single message carrying clock 1.  When
    the peer refuses the connection nothing is written and the refresh
    still advances the clock, while the file search does not. *)
Theorem get_peers_ticks_twice :
  let w := node "10.0.0.1:9001" [("10.0.0.2:9002", mkPeer "ONLINE" 0)] in
  let answers (kind : string) := fun _ : nat =>
    PeerReplies ("10.0.0.2:9002 1 " ++ kind ++ " 0" ++ nl) in
  let refuses := fun _ : nat => ConnectFails Refused in
  let refresh := snd (command_get_peers (answers "PEER_LIST") w) in
  let search := snd (command_search_files (answers "LS_LIST") "0" w) in
  let refresh_refused := snd (command_get_peers refuses w) in
  let search_refused := snd (command_search_files refuses "0" w) in
  (wire refresh = [Send "10.0.0.2:9002" ("10.0.0.1:9001 2 GET_PEERS" ++ nl);
                   Close "10.0.0.2:9002"]
   /\ count_sends (wire refresh) = 1%nat /\ global_clock refresh = 2%Z)
  /\ (wire search = [Send "10.0.0.2:9002" ("10.0.0.1:9001 1 LS" ++ nl);
                     Close "10.0.0.2:9002"]
      /\ count_sends (wire search) = 1%nat /\ global_clock search = 1%Z)
  /\ (count_sends (wire refresh_refused) = 0%nat /\ global_clock refresh_refused = 1%Z)
  /\ (count_sends (wire search_refused) = 0%nat /\ global_clock search_refused = 0%Z).
Proof. vm_compute. repeat split. Qed.

(** C1.  A download from end to end.  The serving node holds [hi.txt]
    with the two bytes of "hi" and answers the [DL] request with the
    [FILE] line carrying their encoding [aGk=].  The downloading node
    reads the sixth field of that line, which is the length field [0] and
    not the payload in the seventh; decoding it fails, the error is
    reported as an invalid number, and no file is written. *)
Theorem download_decodes_wrong_field :
  let content := list_byte_of_string "hi" in
  let server :=
    mkWorld "10.0.0.2:9002" 0 [("10.0.0.1:9001", mkPeer "ONLINE" 0)]
            [("hi.txt", content)] [] 0 [] in
  let client := node "10.0.0.1:9001" [("10.0.0.2:9002", mkPeer "ONLINE" 0)] in
  let request := "10.0.0.1:9001 1 DL hi.txt 0 0" ++ nl in
  let served := snd (handle_client (mkConn "('10.0.0.1', 40000)" request true) server) in
  let reply := first_sent (wire served) in
  let net := fun _ : nat => PeerReplies reply in
  let run := choose_and_download net [("hi.txt", 2%Z, "10.0.0.2:9002")] "1" client in
  reply = "10.0.0.2:9002 3 FILE hi.txt 0 0 aGk=" ++ nl
  /\ Base64.b64decode "aGk=" = Some content
  /\ nth_error (split (strip reply)) 5 = Some "0"
  /\ Base64.b64decode "0" = None
  /\ first_sent (wire (snd run)) = request
  /\ fst run = inr tt
  /\ shared_dir (snd run) = []
  /\ dict_get "hi.txt" (shared_dir (snd run)) <> dict_get "hi.txt" (shared_dir server)
  /\ last (stdout (snd run)) "" = "Digite um número válido2!".
Proof. vm_compute. repeat split. discriminate. Qed.
(* ===================================================================== *)
(** ** What no history of operations undoes *)
(* ===================================================================== *)

Lemma keys_dict_set {V} k (v : V) d :
  exists l, keys (dict_set k v d) = (keys d ++ l)%list.
Proof.
  destruct (dict_get k d) as [v0|] eqn:Hget.
  - exists []. rewrite app_nil_r. eapply keys_dict_set_present; eauto.
  - exists [k]. rewrite (dict_set_absent _ _ _ Hget). unfold keys.
    now rewrite map_app.
Qed.

Section History.

Variable P : World -> Prop.
Variable net : nat -> attempt_outcome.

Hypothesis P_print : forall w line, P w -> P (add_stdout line w).
Hypothesis P_wire : forall w e, P w -> P (add_wire e w).
Hypothesis P_socket : forall w, P w -> P (incr_sockets w).
Hypothesis P_tick : forall w, P w -> P (set_clock (global_clock w + 1) w).
Hypothesis P_observe :
  forall w R, P w -> P (set_clock (Z.max (global_clock w) R + 1) w).
Hypothesis P_registry :
  forall w k info, P w -> P (set_peers (dict_set k info (peers w)) w).

(** Every operation but the file search. *)
Lemma inv_perform_no_search op w :
  is_search op = false -> P w -> P (perform net op w).
Proof.
  intros Hop Hw. destruct op; simpl; try discriminate.
  - now apply inv_handle_client.
  - now apply inv_send_message.
  - now apply inv_command_get_peers.
  - now apply inv_hello_probe.
  - now apply inv_bye_fanout.
  - now apply inv_load_neighbors.
  - now apply inv_list_peers_round.
  - now apply inv_command_list_local_files.
Qed.

Lemma inv_history_no_search ops w :
  forallb (fun op => negb (is_search op)) ops = true -> P w -> P (history net ops w).
Proof.
  revert w. induction ops as [|op ops IH]; intros w Hops Hw; simpl in *; [exact Hw|].
  apply andb_true_iff in Hops. destruct Hops as [Hop Hops].
  apply IH; [exact Hops|]. apply inv_perform_no_search; [|exact Hw].
  now apply negb_true_iff.
Qed.

Hypothesis P_write :
  forall w k bs, P w -> P (set_shared_dir (dict_set k bs (shared_dir w)) w).

Lemma inv_perform op w : P w -> P (perform net op w).
Proof.
  intros Hw. destruct (is_search op) eqn:Hop.
  - destruct op; try discriminate. simpl. now apply inv_command_search_files.
  - now apply inv_perform_no_search.
Qed.

Lemma inv_history ops w : P w -> P (history net ops w).
Proof.
  revert w. induction ops as [|op ops IH]; intros w Hw; simpl; [exact Hw|].
  apply IH. now apply inv_perform.
Qed.

End History.

(** X1.  Whatever the node is made to do and whatever the network does,
    its logical clock never goes back. *)
Theorem clock_never_goes_back net ops w :
  (global_clock w <= global_clock (history net ops w))%Z.
Proof.
  apply (inv_history (fun w' => (global_clock w <= global_clock w')%Z) net);
    try (intros; simpl; lia).
Qed.

(** X2.  No operation removes or reorders registry entries, or changes
    the node's identity: after any history the old keys are still there,
    in their old order, followed by the peers learned since. *)
Theorem peers_never_forgotten net ops w :
  let w' := history net ops w in
  (exists learned, keys (peers w') = (keys (peers w) ++ learned)%list)
  /\ server_id w' = server_id w.
Proof.
  apply (inv_history
           (fun w' => (exists learned, keys (peers w') = (keys (peers w) ++ learned)%list)
                      /\ server_id w' = server_id w) net);
    try (intros; simpl; assumption).
  - intros w0 k info ((l & Hl) & Hsid). simpl. split; [|exact Hsid].
    destruct (keys_dict_set k info (peers w0)) as (l' & Hl').
    exists (l ++ l')%list. now rewrite Hl', Hl, app_assoc.
  - split; [exists []; now rewrite app_nil_r | reflexivity].
Qed.

(** X3.  Only the file search writes to the shared directory: a history
    without it leaves every file as it was. *)
Theorem only_search_writes_files net ops w :
  forallb (fun op => negb (is_search op)) ops = true ->
  shared_dir (history net ops w) = shared_dir w.
Proof.
  intros Hops.
  apply (inv_history_no_search (fun w' => shared_dir w' = shared_dir w) net);
    try (intros; simpl; assumption); auto.
Qed.

Lemma only_search_writes_files_witness :
  let net := fun _ : nat =>
    PeerReplies ("10.0.0.2:9002 3 PEER_LIST 1 10.0.0.3:9003:OFFLINE:0" ++ nl) in
  let w := mkWorld "10.0.0.1:9001" 0 [("10.0.0.2:9002", mkPeer "ONLINE" 0)]
             [("a.txt", list_byte_of_string "abc")] [] 0 [] in
  shared_dir
    (history net
       [RefreshPeers; Probe "10.0.0.2:9002";
        Serve (mkConn "('10.0.0.2', 40000)" ("10.0.0.2:9002 4 DL a.txt 0 0" ++ nl) true);
        ListPeers "1"; ListLocalFiles; Farewell] w)
  = [("a.txt", list_byte_of_string "abc")].
Proof.
  intros net w.
  apply (only_search_writes_files net _ w). reflexivity.
Defined.

(* ===================================================================== *)
(** ** The handler on arbitrary input *)
(* ===================================================================== *)

Section Catchable.

Lemma catchable_ret {A} (a : A) : catchable (ret a).
Proof. intros w. exact I. Qed.

Lemma catchable_gets {A} (f : World -> A) : catchable (gets f).
Proof. intros w. exact I. Qed.

Lemma catchable_modify f : catchable (modify f).
Proof. intros w. exact I. Qed.

Lemma catchable_raise {A} e : is_Exception e = true -> catchable (@raise A e).
Proof. intros H w. exact H. Qed.

Lemma catchable_bind {A B} (m : M A) (f : A -> M B) :
  catchable m -> (forall a, catchable (f a)) -> catchable (bind m f).
Proof.
  intros Hm Hf w. unfold bind. specialize (Hm w).
  destruct (m w) as [[e|a] w']; simpl in *; [exact Hm | apply Hf].
Qed.

(** A block whose exceptions are all caught, under its [except Exception]
    clause, returns. *)
Lemma caught_returns {A} (m : M A) (log : exn -> string) w :
  catchable m ->
  fst ((r <- try m ;;
        match r with
        | inr _ => ret tt
        | inl e => if is_Exception e then print (log e) else raise e
        end) w) = inr tt.
Proof.
  intros Hm. unfold bind, try. specialize (Hm w).
  destruct (m w) as [[e|a] w']; simpl in *; [now rewrite Hm | reflexivity].
Qed.

Lemma catchable_caught {A} (m : M A) (log : exn -> string) :
  catchable m ->
  catchable (r <- try m ;;
             match r with
             | inr _ => ret tt
             | inl e => if is_Exception e then print (log e) else raise e
             end).
Proof. intros Hm w. now rewrite caught_returns. Qed.

Lemma catchable_py_int s : catchable (py_int s).
Proof.
  unfold py_int. destruct (int s); [apply catchable_ret | now apply catchable_raise].
Qed.

Lemma catchable_update_clock : catchable update_clock.
Proof.
  unfold update_clock.
  repeat (apply catchable_bind; [|intros ?]);
    auto using catchable_ret, catchable_gets, catchable_modify.
  apply catchable_modify.
Qed.

Lemma catchable_conn_sendall conn data : catchable (conn_sendall conn data).
Proof.
  unfold conn_sendall. destruct (conn_open conn);
    [apply catchable_modify | now apply catchable_raise].
Qed.

Lemma catchable_dispatch conn origem R msg_type args :
  catchable (dispatch conn origem R msg_type args).
Proof.
  unfold dispatch.
  repeat match goal with |- catchable (if ?b then _ else _) => destruct b end.
  - intros w. unfold handle_hello. now rewrite upsert_online_run.
  - unfold handle_get_peers.
    repeat (apply catchable_bind; [first [apply catchable_gets | apply catchable_update_clock]
                                  |intros ?]).
    apply (catchable_caught _ (fun e => "Erro ao enviar resposta para " ++ origem ++ ": "
                                        ++ exn_text e)), catchable_conn_sendall.
  - unfold mark_offline. apply catchable_bind; [apply catchable_gets|intros ps].
    destruct (dict_get origem ps); [|apply catchable_ret].
    destruct (negb _); [|apply catchable_ret].
    apply catchable_bind; [apply catchable_modify | intros _; apply catchable_modify].
  - unfold handle_ls.
    apply (catchable_caught _ (fun e => "Erro ao enviar resposta LS_LIST para " ++ origem
                                        ++ ": " ++ exn_text e)).
    repeat (apply catchable_bind; [first [apply catchable_gets | apply catchable_update_clock]
                                  |intros ?]).
    apply catchable_conn_sendall.
  - unfold handle_dl. destruct args as [|nome args]; [apply catchable_ret|].
    apply catchable_bind; [apply catchable_gets|intros files].
    destruct (dict_get nome files); [|apply catchable_modify].
    repeat (apply catchable_bind; [first [apply catchable_gets | apply catchable_update_clock]
                                  |intros ?]).
    apply catchable_conn_sendall.
  - apply catchable_ret.
Qed.

Lemma catchable_handle_client_body conn : catchable (handle_client_body conn).
Proof.
  unfold handle_client_body. destruct (is_empty _); [apply catchable_ret|].
  apply catchable_bind; [apply catchable_modify|intros _].
  destruct (split _) as [|origem [|p1 [|msg_type args]]]; try apply catchable_ret.
  apply catchable_bind; [apply catchable_py_int|intros R].
  apply catchable_bind; [|intros _; apply catchable_dispatch].
  unfold observe. apply catchable_bind; [apply catchable_modify|intros _].
  apply catchable_bind; [apply catchable_gets | intros c; apply catchable_modify].
Qed.

End Catchable.

Section Emits.

Variable dest : string.

Lemma silent_emits {A} (m : M A) : silent m -> emits dest m.
Proof. intros H w. exists []. rewrite app_nil_r. split; [apply H | now left]. Qed.

Lemma emits_after_silent {A B} (m : M A) (f : A -> M B) :
  silent m -> (forall a, emits dest (f a)) -> emits dest (bind m f).
Proof.
  intros Hm Hf w. unfold bind. specialize (Hm w).
  destruct (m w) as [[e|a] w']; simpl in *.
  - exists []. rewrite app_nil_r. split; [exact Hm | now left].
  - destruct (Hf a w') as (tr & Htr & Hone). exists tr. now rewrite Htr, Hm.
Qed.

Lemma emits_caught {A} (m : M A) (log : exn -> string) :
  emits dest m ->
  emits dest (r <- try m ;;
              match r with
              | inr _ => ret tt
              | inl e => if is_Exception e then print (log e) else raise e
              end).
Proof.
  intros Hm w. unfold bind, try. destruct (Hm w) as (tr & Htr & Hone).
  destruct (m w) as [[e|a] w']; simpl in *; [destruct (is_Exception e)|];
    exists tr; auto.
Qed.

Lemma silent_as_invariant {A} (m : M A) :
  (forall l, preserves (fun w => wire w = l) m) -> silent m.
Proof. intros H w. now apply (H (wire w)). Qed.

Lemma silent_print line : silent (print line).
Proof. intros w. reflexivity. Qed.

Lemma silent_gets {A} (f : World -> A) : silent (gets f).
Proof. intros w. reflexivity. Qed.

Lemma silent_update_clock : silent update_clock.
Proof. apply silent_as_invariant. intros l. now apply inv_update_clock. Qed.

Lemma silent_py_int s : silent (py_int s).
Proof. apply silent_as_invariant. intros l. apply inv_py_int. Qed.

Lemma silent_observe R : silent (observe R).
Proof. apply silent_as_invariant. intros l. now apply inv_observe. Qed.

Lemma silent_upsert_online origem R : silent (upsert_online origem R).
Proof. apply silent_as_invariant. intros l. now apply inv_upsert_online. Qed.

Lemma silent_mark_offline origem : silent (mark_offline origem).
Proof. apply silent_as_invariant. intros l. now apply inv_mark_offline. Qed.

End Emits.

Lemma emits_conn_sendall conn data : emits (conn_addr conn) (conn_sendall conn data).
Proof.
  intros w. unfold conn_sendall. destruct (conn_open conn); simpl.
  - exists [Send (conn_addr conn) data]. split; [reflexivity|]. right. now exists data.
  - exists []. rewrite app_nil_r. split; [reflexivity | now left].
Qed.

Lemma emits_dispatch conn origem R msg_type args :
  emits (conn_addr conn) (dispatch conn origem R msg_type args).
Proof.
  unfold dispatch.
  repeat match goal with |- emits _ (if ?b then _ else _) => destruct b end.
  - apply silent_emits, silent_upsert_online.
  - unfold handle_get_peers.
    repeat (apply emits_after_silent;
            [first [apply silent_gets | apply silent_update_clock] | intros ?]).
    apply (emits_caught _ _ (fun e => "Erro ao enviar resposta para " ++ origem ++ ": "
                                      ++ exn_text e)), emits_conn_sendall.
  - apply silent_emits, silent_mark_offline.
  - unfold handle_ls.
    apply (emits_caught _ _ (fun e => "Erro ao enviar resposta LS_LIST para " ++ origem
                                      ++ ": " ++ exn_text e)).
    repeat (apply emits_after_silent;
            [first [apply silent_gets | apply silent_update_clock] | intros ?]).
    apply emits_conn_sendall.
  - unfold handle_dl. destruct args as [|nome args]; [apply silent_emits; now intros w|].
    apply emits_after_silent; [apply silent_gets|intros files].
    destruct (dict_get nome files); [|apply silent_emits, silent_print].
    repeat (apply emits_after_silent;
            [first [apply silent_gets | apply silent_update_clock] | intros ?]).
    apply emits_conn_sendall.
  - apply silent_emits. now intros w.
Qed.

Lemma emits_handle_client_body conn :
  emits (conn_addr conn) (handle_client_body conn).
Proof.
  unfold handle_client_body.
  destruct (is_empty _); [apply silent_emits; now intros w|].
  apply emits_after_silent; [apply silent_print|intros _].
  destruct (split _) as [|origem [|p1 [|msg_type args]]];
    try (apply silent_emits; now intros w).
  apply emits_after_silent; [apply silent_py_int|intros R].
  apply emits_after_silent; [apply silent_observe|intros _].
  apply emits_dispatch.
Qed.

(** X4.  Whatever bytes arrive, and whether or not the peer still reads,
    [handle_client] returns normally: no exception leaves the handler.  It
    writes at most one message, to the connection it serves, and then
    closes that connection; it opens no socket of its own. *)
Theorem handle_client_always_returns conn w :
  exists w' reply,
    handle_client conn w = (inr tt, w')
    /\ wire w' = (wire w ++ reply ++ [Close (conn_addr conn)])%list
    /\ at_most_one_to (conn_addr conn) reply
    /\ sockets w' = sockets w.
Proof.
  pose proof (caught_returns (handle_client_body conn)
                (fun e => "Erro no tratamento da conexão de " ++ conn_addr conn
                          ++ ": " ++ exn_text e) w
                (catchable_handle_client_body conn)) as Hret.
  pose proof (emits_caught _ _ (fun e => "Erro no tratamento da conexão de "
                                         ++ conn_addr conn ++ ": " ++ exn_text e)
                (emits_handle_client_body conn) w) as (reply & Hwire & Hone).
  pose proof (inv_handle_client (fun w' => sockets w' = sockets w)) as Hsock.
  specialize (Hsock ltac:(auto) ltac:(auto) ltac:(auto) ltac:(auto) ltac:(auto)
                conn w eq_refl).
  unfold handle_client, finally in *.
  destruct ((r <- try (handle_client_body conn) ;; _) w) as [r w1] eqn:Hrun.
  simpl in *. subst r.
  eexists _, reply. split; [reflexivity|]. simpl.
  rewrite Hwire. rewrite <- app_assoc. auto.
Qed.

(* ===================================================================== *)
(** ** A request from the sender to the receiver's handler *)
(* ===================================================================== *)

Lemma split_aux_trailing cur s c :
  is_space c = true -> split_aux cur (s ++ String c "") = split_aux cur s.
Proof.
  intros Hc. revert cur. induction s as [|a s IH]; intros cur.
  - simpl. rewrite Hc. now destruct cur.
  - cbn [String.append]. rewrite !split_aux_cons.
    destruct (is_space a); now rewrite ?IH.
Qed.

(** The fields of a request line: the sender, its stamp, and the fields
    of the message. *)
Lemma request_line_fields sid c message :
  is_token sid = true ->
  split (strip (request_line sid c message)) = sid :: str c :: split message.
Proof.
  intros Hsid. rewrite split_strip. unfold request_line.
  change (sid ++ " " ++ str c ++ " " ++ strip message ++ nl)
    with (sid ++ String " " (str c ++ String " " (strip message ++ nl))).
  rewrite split_field by auto.
  rewrite split_field by auto using str_is_token.
  do 2 f_equal. rewrite <- (split_strip message).
  unfold split, nl. now apply split_aux_trailing.
Qed.

(** X5.  The request [send_message] writes is the request the receiving
    handler reads, for a request line of ASCII text that fits one read and
    a first attempt that meets no error (the reply, when one is awaited,
    being ASCII text too): the handler dispatches on the message's own type and
    arguments, with the sender's identity as origin and the sender's stamp
    as remote clock.  The stamp is later than the sender's clock before the
    send, and the receiver's clock after the receipt is later than the
    stamp. *)
Theorem request_round_trip net A B peer_addr port message expect_reply conn
    msg_type args :
  valid_address peer_addr port ->
  raised expect_reply (net (sockets A)) = None ->
  is_token (server_id A) = true ->
  split message = msg_type :: args ->
  let stamp := (global_clock A + 1)%Z in
  let line := request_line (server_id A) stamp message in
  (String.length line <= 4096)%nat ->
  ascii_text line ->
  (expect_reply = true -> ascii_text (sock_reply (net (sockets A)))) ->
  conn_data conn = line ->
  wire (snd (send_message net peer_addr message expect_reply 2 A))
  = (wire A ++ [Send peer_addr line; Close peer_addr])%list
  /\ handle_client conn B
     = guarded conn (dispatch conn (server_id A) stamp msg_type args)
                    (observed conn stamp B)
  /\ (global_clock A < stamp < global_clock (observed conn stamp B))%Z.
Proof.
  intros Hvalid Hr Hsid Hmsg stamp line Hlen _ _ Hdata.
  destruct (send_message_succeeds net peer_addr port message expect_reply 2 A Hvalid)
    as (A' & Hrun & _ & _ & _ & _ & _ & Hwire); [lia | assumption |].
  repeat split.
  - now rewrite Hrun.
  - apply (handle_client_decoded conn B (server_id A) (str stamp)).
    + rewrite Hdata. unfold recv. rewrite substring_all by assumption.
      subst line. now rewrite request_line_fields, Hmsg.
    + apply int_str.
  - subst stamp. lia.
  - simpl. lia.
Qed.

Lemma request_round_trip_witness :
  let net := fun _ : nat => PeerReplies "" in
  let A := mkWorld "10.0.0.1:9001" 4 [("10.0.0.2:9002", mkPeer "ONLINE" 0)] [] [] 0 [] in
  let B := node "10.0.0.2:9002" [] in
  let conn := mkConn "('10.0.0.1', 40000)" ("10.0.0.1:9001 5 DL a.txt 0 0" ++ nl) true in
  handle_client conn B
  = guarded conn (dispatch conn "10.0.0.1:9001" 5 "DL" ["a.txt"; "0"; "0"])
                 (observed conn 5 B)
  /\ (4 < 5 < global_clock (observed conn 5 B))%Z.
Proof.
  intros net A B conn.
  assert (Hvalid : valid_address "10.0.0.2:9002" 9002).
  { exists "10.0.0.2", "9002". repeat split; [discriminate | discriminate]. }
  destruct (request_round_trip net A B "10.0.0.2:9002" 9002 "DL a.txt 0 0" true conn
              "DL" ["a.txt"; "0"; "0"] Hvalid eq_refl eq_refl eq_refl)
    as (_ & Hb & Hc).
  - simpl. lia.
  - reflexivity.
  - reflexivity.
  - reflexivity.
  - split; [exact Hb | exact Hc].
Defined.

(** X6.  A [HELLO] of ASCII text that reaches its receiver in one read.
    The receiver records the
    sender as ONLINE with the very clock value the sender stamped on the
    message, leaves every other record alone, writes no reply, and ends
    with its own clock past the stamp. *)
Theorem hello_registers_sender sid stamp conn B :
  is_token sid = true ->
  ascii_text sid ->
  conn_data conn = request_line sid stamp "HELLO" ->
  (String.length (conn_data conn) <= 4096)%nat ->
  exists B', handle_client conn B = (inr tt, B')
    /\ dict_get sid (peers B') = Some (mkPeer "ONLINE" stamp)
    /\ (forall k, k <> sid -> dict_get k (peers B') = dict_get k (peers B))
    /\ wire B' = (wire B ++ [Close (conn_addr conn)])%list
    /\ global_clock B' = (Z.max (global_clock B) stamp + 1)%Z.
Proof.
  intros Hsid _ Hdata Hlen.
  assert (Hdec : handle_client conn B
                 = guarded conn (dispatch conn sid stamp "HELLO" []) (observed conn stamp B)).
  { apply (handle_client_decoded conn B sid (str stamp)); [|apply int_str].
    unfold recv. rewrite substring_all by assumption.
    rewrite Hdata. now rewrite request_line_fields. }
  rewrite Hdec, dispatch_hello. unfold handle_hello.
  destruct (guarded_run conn (upsert_online sid stamp) (observed conn stamp B) _ _
              (upsert_online_run sid stamp _) I) as (B' & Hg & Hp & _ & Hc & Hw).
  exists B'. split; [exact Hg|]. rewrite Hp, Hc, Hw. simpl.
  repeat split.
  - apply dict_get_set_same.
  - intros k Hk. now apply dict_get_set_other.
Qed.

Lemma hello_registers_sender_witness :
  let conn := mkConn "('10.0.0.1', 40000)" ("10.0.0.1:9001 5 HELLO" ++ nl) true in
  let B := node "10.0.0.2:9002" [("10.0.0.1:9001", mkPeer "OFFLINE" 0)] in
  exists B', handle_client conn B = (inr tt, B')
    /\ dict_get "10.0.0.1:9001" (peers B') = Some (mkPeer "ONLINE" 5)
    /\ global_clock B' = 6%Z.
Proof.
  intros conn B.
  destruct (hello_registers_sender "10.0.0.1:9001" 5 conn B eq_refl eq_refl eq_refl)
    as (B' & Hrun & Hget & _ & _ & Hc).
  - simpl. lia.
  - exists B'. auto.
Defined.

(* ===================================================================== *)
(** ** Lists on the wire *)
(* ===================================================================== *)

Section Lists.

Implicit Types (s t cur : string).

Lemma split_on_aux_cons sep cur c s :
  split_on_aux sep cur (String c s)
  = if Ascii.eqb c sep then cur :: split_on_aux sep "" s
    else split_on_aux sep (cur ++ String c "") s.
Proof. reflexivity. Qed.

Lemma split_on_aux_no_colon cur t s :
  no_colon t = true ->
  split_on_aux ":" cur (t ++ s) = split_on_aux ":" (cur ++ t) s.
Proof.
  revert cur. induction t as [|c t IH]; intros cur H; simpl in *.
  - now rewrite append_nil_r.
  - apply andb_true_iff in H. destruct H as [Hc Ht].
    apply negb_true_iff in Hc. rewrite Hc, IH by assumption.
    now rewrite append_assoc.
Qed.

(** A part followed by a colon is the first part. *)
Lemma split_on_field t s :
  no_colon t = true -> split_on ":" (t ++ String ":" s) = t :: split_on ":" s.
Proof.
  intros H. unfold split_on. now rewrite split_on_aux_no_colon.
Qed.

Lemma split_on_last t : no_colon t = true -> split_on ":" t = [t].
Proof.
  intros H. unfold split_on. rewrite <- (append_nil_r t) at 1.
  now rewrite split_on_aux_no_colon.
Qed.

Lemma no_colon_uint d : no_colon (NilEmpty.string_of_uint d) = true.
Proof. induction d; simpl; auto. Qed.

Lemma no_colon_str z : no_colon (str z) = true.
Proof.
  unfold str. destruct (Z.to_int z) as [d|d].
  - destruct d; [reflexivity | exact (no_colon_uint _) ..].
  - destruct d; [reflexivity | exact (no_colon_uint _) ..].
Qed.

Lemma no_space_str z : no_space (str z) = true.
Proof.
  pose proof (str_is_token z) as H. unfold is_token in H.
  now apply andb_true_iff in H.
Qed.

Lemma plain_no_space s : plain s = true -> no_space s = true.
Proof. unfold plain. intros H. now apply andb_true_iff in H. Qed.

Lemma plain_no_colon s : plain s = true -> no_colon s = true.
Proof. unfold plain. intros H. now apply andb_true_iff in H. Qed.

Lemma is_token_app_l s t :
  s <> "" -> no_space s = true -> no_space t = true -> is_token (s ++ t) = true.
Proof.
  intros Hne Hs Ht. unfold is_token. rewrite no_space_app, Hs, Ht.
  destruct s; [contradiction | reflexivity].
Qed.

(** Fields joined by single spaces and followed by whitespace split back
    into the fields. *)
Lemma split_join l c s :
  Forall (fun t => is_token t = true) l -> is_space c = true ->
  split (join " " l ++ String c s) = (l ++ split s)%list.
Proof.
  intros Hl Hc. induction Hl as [|x l Hx Hl IH].
  - simpl. now apply split_leading_space.
  - destruct l as [|y l].
    + simpl. now apply split_field.
    + change (join " " (x :: y :: l)) with (x ++ String " " (join " " (y :: l))).
      rewrite append_assoc. cbn [String.append].
      rewrite split_field by auto. now rewrite IH.
Qed.

End Lists.

(* ===================================================================== *)
(** ** The peer list from the responder to the requester's registry *)
(* ===================================================================== *)

Lemma peer_entry_parts e :
  listable e ->
  exists ip port,
    fst e = ip ++ ":" ++ port
    /\ split_on ":" (peer_entry e)
       = [ip; port; status (snd e); str (clock (snd e))].
Proof.
  intros ((ip & port & Hk & Hip & Hport) & Hst).
  exists ip, port. split; [exact Hk|].
  unfold peer_entry. rewrite Hk.
  change ((ip ++ ":" ++ port) ++ ":" ++ status (snd e) ++ ":" ++ str (clock (snd e)))
    with ((ip ++ String ":" port)
          ++ String ":" (status (snd e) ++ String ":" (str (clock (snd e))))).
  rewrite append_assoc. cbn [String.append].
  rewrite !split_on_field by auto using plain_no_colon.
  now rewrite split_on_last by apply no_colon_str.
Qed.

Lemma peer_entry_token e : listable e -> is_token (peer_entry e) = true.
Proof.
  intros ((ip & port & Hk & Hip & Hport) & Hst).
  unfold peer_entry. rewrite Hk.
  unfold is_token. rewrite !no_space_app.
  rewrite (plain_no_space _ Hip), (plain_no_space _ Hport), (plain_no_space _ Hst),
    no_space_str. simpl.
  destruct ip; reflexivity.
Qed.

(** A listed entry is parsed back into the key, status and clock it was
    written from. *)
Lemma process_listed e w :
  listable e -> process_peer_info (peer_entry e) w = gossip_merge e w.
Proof.
  intros He. destruct (peer_entry_parts e He) as (ip & port & Hk & Hsplit).
  unfold process_peer_info, gossip_merge, bind, try, py_int, gets, ret.
  rewrite Hsplit, int_str, <- Hk.
  destruct (fst e =? server_id w); [reflexivity|].
  destruct (merge_run (fst e) (status (snd e)) (clock (snd e)) w) as (w' & Hrun & _).
  now rewrite Hrun.
Qed.

Lemma for_each_ext {A} (l : list A) (f g : A -> M unit) :
  (forall x, In x l -> forall w, f x w = g x w) ->
  forall w, for_each l f w = for_each l g w.
Proof.
  induction l as [|x l IH]; intros H w; simpl; [reflexivity|].
  unfold bind. rewrite (H x (or_introl eq_refl)).
  destruct (g x w) as [[e|[]] w']; [reflexivity|].
  apply IH. intros y Hy. apply H. now right.
Qed.

Lemma for_each_map {A B} (h : A -> B) (l : list A) (f : B -> M unit) w :
  for_each (map h l) f w = for_each l (fun x => f (h x)) w.
Proof.
  revert w. induction l as [|x l IH]; intros w; simpl; [reflexivity|].
  unfold bind. destruct (f (h x) w) as [[e|[]] w']; [reflexivity | apply IH].
Qed.

Lemma peer_list_reply_fields sid c snapshot :
  is_token sid = true -> Forall listable snapshot ->
  split (strip (peer_list_reply sid c snapshot))
  = sid :: str c :: "PEER_LIST" :: str (Z.of_nat (List.length snapshot))
        :: map peer_entry snapshot.
Proof.
  intros Hsid Hall. rewrite split_strip. unfold peer_list_reply.
  rewrite length_map.
  assert (Htok : Forall (fun t => is_token t = true) (map peer_entry snapshot)).
  { apply Forall_map. eapply Forall_impl; [|exact Hall]. apply peer_entry_token. }
  set (n := str (Z.of_nat (List.length snapshot))).
  assert (Hn : is_token n = true) by apply str_is_token.
  destruct snapshot as [|e snapshot].
  - cbn [List.length Nat.ltb Nat.leb map].
    change (sid ++ " " ++ str c ++ " PEER_LIST " ++ n ++ "" ++ nl)
      with (sid ++ String " " (str c ++ String " " ("PEER_LIST" ++ String " "
             (n ++ String "010" "")))).
    rewrite !split_field by (auto using str_is_token; reflexivity).
    reflexivity.
  - change (0 <? List.length (e :: snapshot))%nat with true. cbv iota.
    change (sid ++ " " ++ str c ++ " PEER_LIST " ++ n
            ++ (" " ++ join " " (map peer_entry (e :: snapshot))) ++ nl)
      with (sid ++ String " " (str c ++ String " " ("PEER_LIST" ++ String " "
             (n ++ (String " " (join " " (map peer_entry (e :: snapshot))))
                ++ String "010" "")))).
    rewrite !split_field by (auto using str_is_token; reflexivity).
    change (n ++ String " " (join " " (map peer_entry (e :: snapshot))) ++ String "010" "")
      with (n ++ String " " (join " " (map peer_entry (e :: snapshot)) ++ String "010" "")).
    rewrite split_field by (auto; reflexivity).
    rewrite split_join by (auto; reflexivity).
    now rewrite app_nil_r.
Qed.

(** The merges of a list of entries with distinct keys: each entry that
    does not name the node itself ends up in the registry exactly as
    listed, and nothing else changes. *)
Lemma for_each_gossip_merge snapshot :
  NoDup (keys snapshot) ->
  forall w, exists w',
    for_each snapshot gossip_merge w = (inr tt, w')
    /\ server_id w' = server_id w
    /\ (forall e, In e snapshot -> fst e <> server_id w ->
                  dict_get (fst e) (peers w') = Some (snd e))
    /\ (forall k, ~ In k (keys snapshot) -> dict_get k (peers w') = dict_get k (peers w)).
Proof.
  induction snapshot as [|[k info] snapshot IH]; intros Hnd w.
  - exists w. simpl. repeat split; intros; tauto.
  - simpl in Hnd. inversion Hnd as [|? ? Hnotin Hnd']; subst.
    assert (Hstep : exists w1, gossip_merge (k, info) w = (inr tt, w1)
              /\ server_id w1 = server_id w
              /\ (k <> server_id w -> dict_get k (peers w1) = Some info)
              /\ (forall k', k' <> k -> dict_get k' (peers w1) = dict_get k' (peers w))).
    { unfold gossip_merge, bind, gets. cbn [fst snd].
      destruct (String.eqb_spec k (server_id w)) as [Heq|Hne].
      - exists w. repeat split; auto. intros Hk. contradiction.
      - destruct (merge_run k (status info) (clock info) w) as (w1 & Hrun & Hsid & Hp & _).
        exists w1. rewrite Hrun. repeat split; auto.
        + intros _. rewrite Hp.
          destruct (dict_get k (peers w)) as [old|] eqn:Hget.
          * destruct (negb (status old =? status info)
                      || negb (clock old =? clock info)%Z) eqn:Hd.
            -- rewrite dict_get_set_same. now destruct info.
            -- apply same_pair in Hd. rewrite Hget, Hd. now destruct info.
          * rewrite dict_get_set_same. now destruct info.
        + intros k' Hk'. rewrite Hp.
          destruct (dict_get k (peers w)) as [old|];
            [destruct (negb _ || negb _)|]; auto using dict_get_set_other. }
    destruct Hstep as (w1 & Hrun1 & Hsid1 & Hk1 & Hother1).
    destruct (IH Hnd' w1) as (w' & Hrun & Hsid & Hin & Hout).
    exists w'. cbn [for_each]. rewrite (bind_run _ _ _ _ _ Hrun1), Hrun.
    repeat split.
    + congruence.
    + intros e [<-|He] Hne.
      * simpl. rewrite Hout by exact Hnotin. now apply Hk1.
      * apply Hin; [exact He|]. now rewrite Hsid1.
    + intros k' Hk'. simpl in Hk'. rewrite Hout by tauto. apply Hother1.
      intros ->. tauto.
Qed.

(** Ingesting the [PEER_LIST] line built from [snapshot] is merging its
    entries in order and then marking the responder ONLINE. *)
Lemma ingest_listed_peers sid c snapshot peer_addr w :
  is_token sid = true ->
  Forall listable snapshot ->
  NoDup (keys snapshot) ->
  let reply := peer_list_reply sid c snapshot in
  let w' := snd (ingest_peer_list peer_addr reply w) in
  ingest_peer_list peer_addr reply w
  = (for_each snapshot gossip_merge ;; set_status peer_addr "ONLINE") w
  /\ (forall e, In e snapshot -> fst e <> server_id w -> fst e <> peer_addr ->
                dict_get (fst e) (peers w') = Some (snd e))
  /\ (forall k, ~ In k (keys snapshot) -> k <> peer_addr ->
                dict_get k (peers w') = dict_get k (peers w)).
Proof.
  intros Hsid Hall Hnd reply w'.
  assert (Heq : ingest_peer_list peer_addr reply w
                = (for_each snapshot gossip_merge ;; set_status peer_addr "ONLINE") w).
  { unfold ingest_peer_list. subst reply.
    rewrite (peer_list_reply_fields _ _ _ Hsid Hall).
    change ("PEER_LIST" =? "PEER_LIST") with true. cbv iota.
    assert (Hint : py_int (str (Z.of_nat (List.length snapshot))) w
                   = (inr (Z.of_nat (List.length snapshot)), w)).
    { unfold py_int. now rewrite int_str. }
    rewrite (bind_run _ _ _ _ _ Hint).
    assert (Hslice :
      (if (0 <? Z.of_nat (List.length snapshot))%Z
       then slice 4 (Z.to_nat (Z.of_nat (List.length snapshot)))
              (sid :: str c :: "PEER_LIST" :: str (Z.of_nat (List.length snapshot))
                   :: map peer_entry snapshot)
       else []) = map peer_entry snapshot).
    { destruct snapshot as [|e l]; [reflexivity|].
      change (0 <? Z.of_nat (List.length (e :: l)))%Z with true. cbv iota.
      rewrite Nat2Z.id. unfold slice. cbn [skipn].
      rewrite <- (length_map peer_entry). apply firstn_all. }
    rewrite Hslice, length_map, Z.eqb_refl. cbn [negb].
    assert (Hfe : for_each (map peer_entry snapshot) process_peer_info w
                  = for_each snapshot gossip_merge w).
    { rewrite for_each_map. apply for_each_ext.
      intros e He w0. apply process_listed.
      now apply (proj1 (Forall_forall _ _) Hall). }
    unfold bind. unfold ret at 1. now rewrite Hfe. }
  split; [exact Heq|].
  subst w'. rewrite Heq.
  destruct (for_each_gossip_merge snapshot Hnd w) as (w1 & Hrun & Hsid1 & Hin & Hout).
  rewrite (bind_run _ _ _ _ _ Hrun).
  assert (Hstatus : forall k, k <> peer_addr ->
            dict_get k (peers (snd (set_status peer_addr "ONLINE" w1)))
            = dict_get k (peers w1)).
  { intros k Hk. destruct (dict_get peer_addr (peers w1)) as [info|] eqn:Hget.
    - destruct (set_status_run peer_addr "ONLINE" info w1 Hget)
        as (w2 & Hset & _ & Hother & _).
      rewrite Hset. now apply Hother.
    - unfold set_status, bind, gets. now rewrite Hget. }
  split.
  - intros e He Hself Hpeer. rewrite Hstatus by exact Hpeer. now apply Hin.
  - intros k Hk Hpeer. rewrite Hstatus by exact Hpeer. now apply Hout.
Qed.
(* ===================================================================== *)
(** ** The file list from the responder to the searcher's listing *)
(* ===================================================================== *)

(** The fields of a list reply: header, count, and the entries. *)
Lemma list_reply_fields sid c kind entries :
  is_token sid = true -> is_token kind = true ->
  Forall (fun t => is_token t = true) entries ->
  split (strip (sid ++ " " ++ str c ++ " " ++ kind ++ " "
                ++ str (Z.of_nat (List.length entries))
                ++ (if (0 <? List.length entries)%nat
                    then " " ++ join " " entries else "") ++ nl))
  = sid :: str c :: kind :: str (Z.of_nat (List.length entries)) :: entries.
Proof.
  intros Hsid Hkind Htok. rewrite split_strip.
  set (n := str (Z.of_nat (List.length entries))).
  assert (Hn : is_token n = true) by apply str_is_token.
  destruct entries as [|e entries].
  - cbn [List.length Nat.ltb Nat.leb].
    change (sid ++ " " ++ str c ++ " " ++ kind ++ " " ++ n ++ "" ++ nl)
      with (sid ++ String " " (str c ++ String " " (kind ++ String " "
             (n ++ String "010" "")))).
    rewrite !split_field by (auto using str_is_token; reflexivity).
    reflexivity.
  - change (0 <? List.length (e :: entries))%nat with true. cbv iota.
    change (sid ++ " " ++ str c ++ " " ++ kind ++ " " ++ n
            ++ (" " ++ join " " (e :: entries)) ++ nl)
      with (sid ++ String " " (str c ++ String " " (kind ++ String " "
             (n ++ String " " (join " " (e :: entries) ++ String "010" ""))))).
    rewrite !split_field by (auto using str_is_token; reflexivity).
    rewrite split_join by (auto; reflexivity).
    now rewrite app_nil_r.
Qed.

Lemma file_entry_token e : listable_file e -> is_token (file_entry e) = true.
Proof.
  intros He. unfold file_entry, is_token. rewrite !no_space_app.
  rewrite (plain_no_space _ He), no_space_str. simpl.
  destruct (fst e); reflexivity.
Qed.

Lemma file_entry_parts e :
  listable_file e ->
  split_on ":" (file_entry e) = [fst e; str (Z.of_nat (List.length (snd e)))].
Proof.
  intros He. unfold file_entry.
  change (fst e ++ ":" ++ str (Z.of_nat (List.length (snd e))))
    with (fst e ++ String ":" (str (Z.of_nat (List.length (snd e))))).
  rewrite split_on_field by now apply plain_no_colon.
  now rewrite split_on_last by apply no_colon_str.
Qed.

Lemma parse_files_listed peer_addr files acc :
  Forall listable_file files ->
  parse_files peer_addr (map file_entry files) acc
  = ((acc ++ map (tagged peer_addr) files)%list, None).
Proof.
  intros Hall. revert acc. induction Hall as [|e files He Hall IH]; intros acc.
  - simpl. now rewrite app_nil_r.
  - cbn [map parse_files]. rewrite (file_entry_parts e He), int_str, IH.
    now rewrite <- app_assoc.
Qed.

Lemma ls_list_reply_fields sid c files :
  is_token sid = true -> Forall listable_file files ->
  split (strip (ls_list_reply sid c files))
  = sid :: str c :: "LS_LIST" :: str (Z.of_nat (List.length files))
        :: map file_entry files.
Proof.
  intros Hsid Hall.
  assert (Htok : Forall (fun t => is_token t = true) (map file_entry files)).
  { apply Forall_map. eapply Forall_impl; [|exact Hall]. apply file_entry_token. }
  pose proof (list_reply_fields sid c "LS_LIST" _ Hsid eq_refl Htok) as H.
  rewrite length_map in H. unfold ls_list_reply. rewrite length_map. exact H.
Qed.

Lemma ingest_listed sid c files peer_addr acc w :
  is_token sid = true ->
  Forall listable_file files ->
  exists w',
    ingest_ls_list peer_addr (ls_list_reply sid c files) acc w
    = (inr (acc ++ map (tagged peer_addr) files)%list, w')
    /\ (forall info, dict_get peer_addr (peers w) = Some info ->
                     dict_get peer_addr (peers w') = Some (mkPeer "ONLINE" (clock info)))
    /\ (forall k, k <> peer_addr -> dict_get k (peers w') = dict_get k (peers w))
    /\ sockets w' = sockets w /\ wire w' = wire w.
Proof.
  intros Hsid Hall. unfold ingest_ls_list.
  rewrite (ls_list_reply_fields _ _ _ Hsid Hall).
  change ("LS_LIST" =? "LS_LIST") with true. cbv iota. rewrite int_str.
  assert (Hslice :
    (if (0 <? Z.of_nat (List.length files))%Z
     then slice 4 (Z.to_nat (Z.of_nat (List.length files)))
            (sid :: str c :: "LS_LIST" :: str (Z.of_nat (List.length files))
                 :: map file_entry files)
     else []) = map file_entry files).
  { destruct files as [|e l]; [reflexivity|].
    change (0 <? Z.of_nat (List.length (e :: l)))%Z with true. cbv iota.
    rewrite Nat2Z.id. unfold slice. cbn [skipn].
    rewrite <- (length_map file_entry). apply firstn_all. }
  rewrite Hslice, (parse_files_listed _ _ _ Hall).
  destruct (dict_get peer_addr (peers w)) as [info|] eqn:Hget.
  - destruct (set_status_run peer_addr "ONLINE" info w Hget)
      as (w' & Hset & Hst & Hother & _ & _ & _ & Hsock & Hwire).
    exists w'. unfold bind, try. rewrite Hset. repeat split; auto.
    intros info' [= <-]. exact Hst.
  - eexists. unfold bind, try, set_status, bind, gets. rewrite Hget.
    unfold raise. simpl. split; [reflexivity|]. repeat split; auto. discriminate.
Qed.

Section Aggregation.

Variable net : nat -> attempt_outcome.

(** One peer of the file search that takes the request and answers with
    its [LS_LIST] line. *)
Lemma ls_from_answered peer_addr port sid c files acc w :
  valid_address peer_addr port ->
  net (sockets w) = PeerReplies (ls_list_reply sid c files) ->
  (String.length (ls_list_reply sid c files) <= 4096)%nat ->
  is_token sid = true ->
  Forall listable_file files ->
  exists w',
    ls_from net peer_addr acc w = (inr (acc ++ map (tagged peer_addr) files)%list, w')
    /\ (forall info, dict_get peer_addr (peers w) = Some info ->
                     dict_get peer_addr (peers w') = Some (mkPeer "ONLINE" (clock info)))
    /\ (forall k, k <> peer_addr -> dict_get k (peers w') = dict_get k (peers w))
    /\ sockets w' = S (sockets w)
    /\ wire w' = (wire w ++ [Send peer_addr
                               (request_line (server_id w) (global_clock w + 1) "LS");
                             Close peer_addr])%list.
Proof.
  intros Hvalid Hnet Hlen Hsid Hfiles.
  destruct (send_message_succeeds net peer_addr port "LS" true 2 w Hvalid)
    as (w1 & Hrun & Hs1 & Hp1 & _ & _ & _ & Hw1); [lia | now rewrite Hnet |].
  rewrite Hnet in Hrun. unfold sock_reply, recv in Hrun.
  rewrite substring_all in Hrun by assumption.
  destruct (ingest_listed sid c files peer_addr acc w1 Hsid Hfiles)
    as (w2 & Hingest & Hst & Hother & Hs2 & Hw2).
  exists w2. split.
  - unfold ls_from. rewrite (bind_run _ _ _ _ _ Hrun).
    assert (Hne : truthy (Str (ls_list_reply sid c files)) = true).
    { unfold ls_list_reply. destruct sid; [discriminate | reflexivity]. }
    rewrite Hne. exact Hingest.
  - rewrite <- Hp1. repeat split; auto; congruence.
Qed.

(** X8.  The file list survives the wire.  A peer of the file search that
    takes the [LS] request and answers with the [LS_LIST] line a responder
    builds from its files (the line being ASCII text that fits one read,
    the names free of whitespace and colons) adds exactly those files to
    the listing, in order, each with its name, its size in bytes and the
    responder's address, after whatever was found before; the responder
    is marked ONLINE with its clock kept, and no other record changes. *)
Theorem ls_round_trip peer_addr port sid c files acc w :
  valid_address peer_addr port ->
  net (sockets w) = PeerReplies (ls_list_reply sid c files) ->
  (String.length (ls_list_reply sid c files) <= 4096)%nat ->
  ascii_text (ls_list_reply sid c files) ->
  is_token sid = true ->
  Forall listable_file files ->
  exists w',
    ls_from net peer_addr acc w = (inr (acc ++ map (tagged peer_addr) files)%list, w')
    /\ (forall info, dict_get peer_addr (peers w) = Some info ->
                     dict_get peer_addr (peers w') = Some (mkPeer "ONLINE" (clock info)))
    /\ (forall k, k <> peer_addr -> dict_get k (peers w') = dict_get k (peers w))
    /\ sockets w' = S (sockets w)
    /\ wire w' = (wire w ++ [Send peer_addr
                               (request_line (server_id w) (global_clock w + 1) "LS");
                             Close peer_addr])%list.
Proof.
  intros Hvalid Hnet Hlen _ Hsid Hfiles.
  now apply (ls_from_answered peer_addr port sid c files).
Qed.

(** The fan-out over peers that all answer. *)
Lemma ls_fanout_answered answers :
  forall acc w,
  all_answer net (sockets w) answers ->
  exists w',
    ls_fanout net (map fst answers) acc w = (inr (acc ++ all_found answers)%list, w')
    /\ sockets w' = (sockets w + List.length answers)%nat.
Proof.
  induction answers as [|[peer_addr [[sid c] files]] answers IH]; intros acc w Hall.
  - exists w. simpl. rewrite app_nil_r. split; [reflexivity | lia].
  - destruct Hall as ((port & Hvalid) & Hsid & Hfiles & Hlen & _ & Hnet & Hrest).
    destruct (ls_from_answered peer_addr port sid c files acc w Hvalid Hnet Hlen Hsid Hfiles)
      as (w2 & Hfrom & _ & _ & Hs2 & _).
    destruct (IH (acc ++ map (tagged peer_addr) files)%list w2) as (w' & Hfan & Hs').
    { now rewrite Hs2. }
    exists w'. cbn [map fst ls_fanout]. rewrite (bind_run _ _ _ _ _ Hfrom), Hfan.
    split.
    + unfold all_found. cbn [flat_map fst snd]. now rewrite <- app_assoc.
    + rewrite Hs', Hs2. simpl. lia.
Qed.

(** X9.  The file search asks the peers that are ONLINE in the registry,
    in registry order.  When each of them takes the request and answers
    with its [LS_LIST] line, the listing the search prints and offers for
    download is the files of the first peer, then those of the second, and
    so on: every file appears once for each peer that has it, under that
    peer's address, and nothing is merged or dropped; one socket is opened
    per peer. *)
Theorem search_lists_every_file answers escolha w :
  map fst answers = online_peers w ->
  all_answer net (sockets w) answers ->
  exists w1,
    ls_fanout net (online_peers w) [] w = (inr (all_found answers), w1)
    /\ sockets w1 = (sockets w + List.length answers)%nat
    /\ command_search_files net escolha w
       = (print (nl ++ "Arquivos encontrados na rede:") ;;
          print "Nome | Tamanho | Peer" ;;
          print "[ 0] <Cancelar> | |" ;;
          print_found 1 (all_found answers) ;;
          print "Digite o numero do arquivo para fazer o download: " ;;
          choose_and_download net (all_found answers) escolha) w1.
Proof.
  intros Honline Hall.
  destruct (ls_fanout_answered answers [] w Hall) as (w1 & Hfan & Hs1).
  rewrite Honline in Hfan. cbn [app] in Hfan.
  exists w1. split; [exact Hfan|]. split; [exact Hs1|].
  unfold command_search_files.
  assert (Hg : gets (fun w => keys (filter is_online (peers w))) w
               = (inr (online_peers w), w)) by reflexivity.
  rewrite (bind_run _ _ _ _ _ Hg).
  now rewrite (bind_run _ _ _ _ _ Hfan).
Qed.

End Aggregation.

Lemma ls_round_trip_witness :
  let files := [("report.txt", list_byte_of_string "abc"); ("empty.bin", [])] in
  let net := fun _ : nat => PeerReplies (ls_list_reply "10.0.0.2:9002" 9 files) in
  let w := node "10.0.0.1:9001" [("10.0.0.2:9002", mkPeer "OFFLINE" 4)] in
  exists w',
    ls_from net "10.0.0.2:9002" [] w
    = (inr [("report.txt", 3%Z, "10.0.0.2:9002"); ("empty.bin", 0%Z, "10.0.0.2:9002")], w')
    /\ dict_get "10.0.0.2:9002" (peers w') = Some (mkPeer "ONLINE" 4).
Proof.
  intros files net w.
  assert (Hvalid : valid_address "10.0.0.2:9002" 9002).
  { exists "10.0.0.2", "9002". repeat split; discriminate. }
  destruct (ls_round_trip net "10.0.0.2:9002" 9002 "10.0.0.2:9002" 9 files [] w
              Hvalid eq_refl)
    as (w' & Hrun & Hst & _).
  - simpl. lia.
  - reflexivity.
  - reflexivity.
  - repeat constructor.
  - exists w'. split; [exact Hrun|]. exact (Hst (mkPeer "OFFLINE" 4) eq_refl).
Defined.

Lemma search_lists_every_file_witness :
  let x := ls_list_reply "10.0.0.2:9002" 3 [("report.txt", list_byte_of_string "abc")] in
  let y := ls_list_reply "10.0.0.3:9003" 8 [("report.txt", list_byte_of_string "abcde")] in
  let net := fun k : nat => match k with 0%nat => PeerReplies x | _ => PeerReplies y end in
  let w := node "10.0.0.1:9001"
             [("10.0.0.2:9002", mkPeer "ONLINE" 0); ("10.0.0.4:9004", mkPeer "OFFLINE" 0);
              ("10.0.0.3:9003", mkPeer "ONLINE" 0)] in
  exists w1,
    ls_fanout net (online_peers w) [] w
    = (inr [("report.txt", 3%Z, "10.0.0.2:9002"); ("report.txt", 5%Z, "10.0.0.3:9003")], w1).
Proof.
  intros x y net w.
  destruct (search_lists_every_file net
              [("10.0.0.2:9002", ("10.0.0.2:9002", 3%Z, [("report.txt", list_byte_of_string "abc")]));
               ("10.0.0.3:9003", ("10.0.0.3:9003", 8%Z, [("report.txt", list_byte_of_string "abcde")]))]
              "0" w eq_refl) as (w1 & Hrun & _).
  - simpl. repeat split; try (repeat constructor); try lia.
    + exists 9002%Z, "10.0.0.2", "9002". repeat split; discriminate.
    + exists 9003%Z, "10.0.0.3", "9003". repeat split; discriminate.
  - exists w1. exact Hrun.
Defined.
(* ===================================================================== *)
(** ** Serving the shared directory *)
(* ===================================================================== *)

(** X10.  A decoded [LS] request of ASCII text is answered with one
    [LS_LIST] line that counts and lists every file of the shared
    directory with its size in bytes, stamped with the clock after the
    receipt and one tick, the line being ASCII text (so are the names of
    the files and the node's identity); the registry and the directory are
    left as they were.  When the peer no longer reads, the error is logged
    and the connection closed. *)
Theorem ls_reply_lists_every_file conn w origem p1 args R :
  ascii_text (recv 4096 (conn_data conn)) ->
  split (strip (recv 4096 (conn_data conn))) = origem :: p1 :: "LS" :: args ->
  int p1 = Some R ->
  let reply :=
    ls_list_reply (server_id w) (Z.max (global_clock w) R + 2) (shared_dir w) in
  ascii_text reply ->
  exists w', handle_client conn w = (inr tt, w')
    /\ peers w' = peers w
    /\ shared_dir w' = shared_dir w
    /\ global_clock w' = (Z.max (global_clock w) R + 2)%Z
    /\ wire w' = (wire w
                  ++ (if conn_open conn then [Send (conn_addr conn) reply] else [])
                  ++ [Close (conn_addr conn)])%list.
Proof.
  intros _ Hparts Hint reply _.
  rewrite (handle_client_decoded _ _ _ _ _ _ _ Hparts Hint).
  assert (Hd : exists w1,
    dispatch conn origem R "LS" args (observed conn R w) = (inr tt, w1)
    /\ peers w1 = peers w /\ shared_dir w1 = shared_dir w
    /\ global_clock w1 = (Z.max (global_clock w) R + 2)%Z
    /\ wire w1 = (wire w ++ (if conn_open conn
                             then [Send (conn_addr conn) reply] else []))%list).
  { rewrite dispatch_ls.
    unfold handle_ls, bind, gets, update_clock, bind, gets, modify, print,
      modify, try, conn_sendall, ret.
    destruct (conn_open conn); simpl.
    - eexists; repeat split; try (simpl; lia). simpl. subst reply. unfold ls_list_reply.
      rewrite length_map.
      replace (Z.max (global_clock w) R + 1 + 1)%Z
        with (Z.max (global_clock w) R + 2)%Z by lia.
      destruct (0 <? _)%nat; repeat (rewrite append_assoc; simpl); reflexivity.
    - eexists; repeat split; try (simpl; lia). simpl. now rewrite app_nil_r. }
  destruct Hd as (w1 & Hd & Hp1 & Hs1 & Hc1 & Hw1).
  destruct (guarded_run conn _ _ _ _ Hd I) as (w' & Hg & Hp' & Hs' & Hc' & Hw').
  exists w'. repeat split; try congruence.
  rewrite Hw', Hw1. now rewrite <- app_assoc.
Qed.

Lemma ls_reply_lists_every_file_witness :
  let conn := mkConn "('10.0.0.1', 40000)" ("10.0.0.1:9001 4 LS" ++ nl) true in
  let w := mkWorld "10.0.0.2:9002" 0 [] [("a.txt", list_byte_of_string "abc"); ("b", [])]
             [] 0 [] in
  exists w', handle_client conn w = (inr tt, w')
    /\ wire w' = [Send "('10.0.0.1', 40000)" ("10.0.0.2:9002 6 LS_LIST 2 a.txt:3 b:0" ++ nl);
                  Close "('10.0.0.1', 40000)"].
Proof.
  intros conn w.
  destruct (ls_reply_lists_every_file conn w "10.0.0.1:9001" "4" [] 4
              eq_refl eq_refl eq_refl eq_refl)
    as (w' & Hrun & _ & _ & _ & Hw).
  exists w'. split; [exact Hrun | exact Hw].
Defined.

Lemma no_space_encoded bs : no_space (Base64.b64encode bs) = true.
Proof.
  induction bs as [|b0|b0 b1|b0 b1 b2 rest IH] using list_ind3.
  - reflexivity.
  - destruct (sextets_small b0 Base64.zero) as (H0 & H1 & _).
    cbn [Base64.b64encode no_space].
    now rewrite (proj1 (proj2 (proj2 (sextet_char _ H0)))),
                (proj1 (proj2 (proj2 (sextet_char _ H1)))).
  - destruct (sextets_small b0 b1) as (H0 & H1 & _).
    destruct (sextets_small b1 Base64.zero) as (_ & _ & H2 & _).
    cbn [Base64.b64encode no_space].
    now rewrite (proj1 (proj2 (proj2 (sextet_char _ H0)))),
                (proj1 (proj2 (proj2 (sextet_char _ H1)))),
                (proj1 (proj2 (proj2 (sextet_char _ H2)))).
  - destruct (sextets_small b0 b1) as (H0 & H1 & _).
    destruct (sextets_small b1 b2) as (_ & _ & H2 & H3).
    cbn [Base64.b64encode no_space].
    now rewrite (proj1 (proj2 (proj2 (sextet_char _ H0)))),
                (proj1 (proj2 (proj2 (sextet_char _ H1)))),
                (proj1 (proj2 (proj2 (sextet_char _ H2)))),
                (proj1 (proj2 (proj2 (sextet_char _ H3)))), IH.
Qed.

Lemma encoded_token bs : bs <> [] -> is_token (Base64.b64encode bs) = true.
Proof.
  intros Hne. unfold is_token. rewrite no_space_encoded.
  destruct bs as [|b0 [|b1 [|b2 rest]]]; [contradiction | reflexivity ..].
Qed.

(** X11.  A decoded [DL] request of ASCII text for a file the node shares,
    named without [/], is answered with one [FILE] line.  For a file that is not empty the line has seven
    fields and the seventh decodes to exactly the bytes of the file; for
    the empty file the payload is the empty text, so the line has only
    six fields.  Serving a file changes neither the directory nor the
    registry. *)
Theorem dl_reply_carries_the_file conn w origem p1 nome args R bs :
  ascii_text (recv 4096 (conn_data conn)) ->
  split (strip (recv 4096 (conn_data conn))) = origem :: p1 :: "DL" :: nome :: args ->
  int p1 = Some R ->
  no_slash nome = true ->
  dict_get nome (shared_dir w) = Some bs ->
  conn_open conn = true ->
  is_token (server_id w) = true ->
  ascii_text (server_id w) ->
  let reply := file_reply (server_id w) (Z.max (global_clock w) R + 2) nome bs in
  let fields := split (strip reply) in
  (exists w', handle_client conn w = (inr tt, w')
     /\ wire w' = (wire w ++ [Send (conn_addr conn) reply; Close (conn_addr conn)])%list
     /\ shared_dir w' = shared_dir w /\ peers w' = peers w)
  /\ (bs <> [] ->
      List.length fields = 7%nat
      /\ exists payload, nth_error fields 6 = Some payload
                         /\ Base64.b64decode payload = Some bs)
  /\ (bs = [] -> List.length fields = 6%nat).
Proof.
  intros _ Hparts Hint _ Hget Hopen Hsid _ reply fields.
  assert (Hnome : is_token nome = true).
  { pose proof (split_tokens (strip (recv 4096 (conn_data conn)))) as Htok.
    rewrite Hparts in Htok.
    repeat match goal with H : Forall _ (_ :: _) |- _ => inversion H; clear H; subst end.
    assumption. }
  assert (Hfields : fields = server_id w :: str (Z.max (global_clock w) R + 2)
                      :: "FILE" :: nome :: "0" :: "0"
                      :: split (Base64.b64encode bs ++ nl)).
  { subst fields reply. now apply file_reply_fields. }
  repeat split.
  - rewrite (handle_client_decoded _ _ _ _ _ _ _ Hparts Hint), dispatch_dl.
    destruct (handle_dl_reply conn nome args bs (observed conn R w)) as (w1 & Hd & Hw1 & Hs1);
      [exact Hget | exact Hopen |].
    destruct (guarded_run conn _ _ _ _ Hd I) as (w' & Hg & Hp' & Hs' & _ & Hw').
    exists w'. split; [exact Hg|]. repeat split.
    + rewrite Hw', Hw1. simpl. rewrite <- app_assoc. simpl.
      subst reply.
      replace (Z.max (global_clock w) R + 1 + 1)%Z
        with (Z.max (global_clock w) R + 2)%Z by lia.
      reflexivity.
    + now rewrite Hs', Hs1.
    + rewrite Hp'.
      assert (Hpres : preserves (fun x => peers x = peers w) (handle_dl conn (nome :: args))).
      { apply inv_handle_dl; intros; simpl; assumption. }
      specialize (Hpres (observed conn R w) eq_refl). now rewrite Hd in Hpres.
  - rewrite Hfields. unfold nl.
    change (Base64.b64encode bs ++ String "010" "")
      with (Base64.b64encode bs ++ String "010" "").
    rewrite split_field by (auto using encoded_token; reflexivity).
    reflexivity.
  - exists (Base64.b64encode bs). split; [|apply b64decode_b64encode].
    rewrite Hfields. unfold nl.
    rewrite split_field by (auto using encoded_token; reflexivity).
    reflexivity.
  - intros ->. rewrite Hfields. reflexivity.
Qed.

Lemma dl_reply_carries_the_file_witness :
  let conn := mkConn "('10.0.0.1', 40000)" ("10.0.0.1:9001 1 DL hi.txt 0 0" ++ nl) true in
  let w := mkWorld "10.0.0.2:9002" 0 [] [("hi.txt", list_byte_of_string "hi")] [] 0 [] in
  let fields := split (strip (file_reply "10.0.0.2:9002" 3 "hi.txt" (list_byte_of_string "hi"))) in
  List.length fields = 7%nat
  /\ exists payload, nth_error fields 6 = Some payload
                     /\ Base64.b64decode payload = Some (list_byte_of_string "hi").
Proof.
  intros conn w fields.
  destruct (dl_reply_carries_the_file conn w "10.0.0.1:9001" "1" "hi.txt" ["0"; "0"] 1
              (list_byte_of_string "hi") eq_refl eq_refl eq_refl eq_refl eq_refl eq_refl
              eq_refl eq_refl)
    as (_ & Hfull & _).
  apply Hfull. discriminate.
Defined.

(** X12.  A decoded [DL] request of ASCII text that names no file, or,
    by a name without [/], a file that is not in the shared directory,
    gets no reply at all: the connection is closed with
    nothing written, no tick is spent beyond the one of the receipt, and
    the requester is told nothing about the reason. *)
Theorem dl_without_file_gets_no_reply conn w origem p1 args R :
  ascii_text (recv 4096 (conn_data conn)) ->
  split (strip (recv 4096 (conn_data conn))) = origem :: p1 :: "DL" :: args ->
  int p1 = Some R ->
  match args with
  | [] => True
  | nome :: _ => no_slash nome = true /\ dict_get nome (shared_dir w) = None
  end ->
  exists w', handle_client conn w = (inr tt, w')
    /\ wire w' = (wire w ++ [Close (conn_addr conn)])%list
    /\ global_clock w' = (Z.max (global_clock w) R + 1)%Z
    /\ peers w' = peers w /\ shared_dir w' = shared_dir w.
Proof.
  intros _ Hparts Hint Hmissing.
  rewrite (handle_client_decoded _ _ _ _ _ _ _ Hparts Hint), dispatch_dl.
  assert (Hd : exists w1, handle_dl conn args (observed conn R w) = (inr tt, w1)
             /\ wire w1 = wire w /\ global_clock w1 = (Z.max (global_clock w) R + 1)%Z
             /\ peers w1 = peers w /\ shared_dir w1 = shared_dir w).
  { unfold handle_dl. destruct args as [|nome args].
    - eexists; repeat split.
    - unfold bind, gets. change (shared_dir (observed conn R w)) with (shared_dir w).
      rewrite (proj2 Hmissing).
      eexists; repeat split. }
  destruct Hd as (w1 & Hd & Hw1 & Hc1 & Hp1 & Hs1).
  destruct (guarded_run conn _ _ _ _ Hd I) as (w' & Hg & Hp' & Hs' & Hc' & Hw').
  exists w'. repeat split; congruence.
Qed.

Lemma dl_without_file_gets_no_reply_witness :
  let conn := mkConn "('10.0.0.1', 40000)" ("10.0.0.1:9001 1 DL nope.txt 0 0" ++ nl) true in
  let w := mkWorld "10.0.0.2:9002" 0 [] [("hi.txt", list_byte_of_string "hi")] [] 0 [] in
  exists w', handle_client conn w = (inr tt, w')
    /\ wire w' = [Close "('10.0.0.1', 40000)"]
    /\ global_clock w' = 2%Z.
Proof.
  intros conn w.
  destruct (dl_without_file_gets_no_reply conn w "10.0.0.1:9001" "1"
              ["nope.txt"; "0"; "0"] 1 eq_refl eq_refl eq_refl (conj eq_refl eq_refl))
    as (w' & Hrun & Hw & Hc & _).
  exists w'. auto.
Defined.

(* ===================================================================== *)
(** ** The messenger under any network *)
(* ===================================================================== *)

Lemma within_budget_refl peer_addr n w : within_budget peer_addr n w w.
Proof.
  unfold within_budget. repeat split; try lia.
  exists []. rewrite app_nil_r. repeat split; auto. simpl. lia.
Qed.

Lemma within_budget_print peer_addr n w w' line :
  within_budget peer_addr n w w' -> within_budget peer_addr n w (add_stdout line w').
Proof. intros H. exact H. Qed.

Lemma within_budget_step peer_addr n w w1 w2 :
  within_budget peer_addr 1 w w1 -> within_budget peer_addr n w1 w2 ->
  within_budget peer_addr (S n) w w2.
Proof.
  intros (Hs1 & (tr1 & Hw1 & Hd1 & Hc1) & Hk1 & Hp1 & Hf1 & Hi1)
         (Hs2 & (tr2 & Hw2 & Hd2 & Hc2) & Hk2 & Hp2 & Hf2 & Hi2).
  unfold within_budget. repeat split; try lia; try congruence.
  exists (tr1 ++ tr2)%list. repeat split.
  - now rewrite Hw2, Hw1, app_assoc.
  - now apply Forall_app.
  - rewrite count_sends_app. lia.
Qed.

Section AnyNetwork.

Variable net : nat -> attempt_outcome.

Lemma exn_of_is_Exception e : is_Exception (exn_of e) = true.
Proof. now destruct e. Qed.

Ltac close_attempt tr :=
  eexists _, _; split; [reflexivity|];
  split; [first [exact I | apply exn_of_is_Exception | reflexivity]|];
  split; [reflexivity|];
  unfold within_budget;
  cbn [sockets wire global_clock peers shared_dir server_id
       add_wire add_stdout set_clock incr_sockets];
  split; [lia|];
  split; [exists tr; split; [now rewrite <- ?app_assoc|];
          split; [repeat constructor | cbn [count_sends]; lia]|];
  split; [lia|]; auto.

(** One attempt, whatever the network does to it. *)
Lemma attempt_within_budget peer_addr port message expect_reply w :
  exists r w',
    attempt net peer_addr port message expect_reply w = (r, w')
    /\ match r with inl e => is_Exception e = true | inr _ => True end
    /\ sockets w' = S (sockets w)
    /\ within_budget peer_addr 1 w w'.
Proof.
  unfold attempt, bind, gets, modify, finally, sock_connect.
  destruct ((port <? 0)%Z || (65535 <? port)%Z).
  { unfold raise. simpl. close_attempt [Close peer_addr]. }
  cbn [sockets incr_sockets fst snd].
  destruct (net (sockets w)) as [e|e|e|d].
  - unfold raise. simpl. close_attempt [Close peer_addr].
  - unfold ret, update_clock, bind, modify, gets, print, modify, sock_sendall, raise.
    simpl. close_attempt [Close peer_addr].
  - unfold ret, update_clock, bind, modify, gets, print, modify, sock_sendall,
      sock_recv, raise.
    destruct expect_reply; simpl;
      close_attempt [Send peer_addr (request_line (server_id w) (global_clock w + 1) message);
                     Close peer_addr].
  - unfold ret, update_clock, bind, modify, gets, print, modify, sock_sendall, sock_recv.
    destruct expect_reply; simpl;
      close_attempt [Send peer_addr (request_line (server_id w) (global_clock w + 1) message);
                     Close peer_addr].
Qed.

Lemma send_loop_within_budget peer_addr port message expect_reply max_retries attempts :
  forall w, exists r w',
    send_loop net peer_addr port message expect_reply max_retries attempts w
    = (inr r, w')
    /\ within_budget peer_addr (List.length attempts) w w'.
Proof.
  induction attempts as [|n attempts IH]; intros w.
  - exists PyNone, w. split; [reflexivity | apply within_budget_refl].
  - rewrite send_loop_step.
    destruct (attempt_within_budget peer_addr port message expect_reply w)
      as (r & w1 & Hrun & Hexn & Hs & Hb).
    rewrite Hrun. destruct r as [[cls text]|v].
    + destruct cls; try discriminate;
        try (match goal with |- context [send_loop _ _ _ _ _ _ _ ?w2] =>
               destruct (IH w2) as (r2 & w2' & Hloop & Hb2) end;
             exists r2, w2'; split; [exact Hloop|];
             apply (within_budget_step _ _ _ w1); [exact Hb|exact Hb2]).
      exists PyNone. eexists. split; [reflexivity|].
      apply (within_budget_step _ _ _ w1); [exact Hb|].
      apply within_budget_print, within_budget_refl.
    + exists v, w1. split; [reflexivity|].
      apply (within_budget_step _ _ _ w1); [exact Hb | apply within_budget_refl].
Qed.

Lemma send_message_budget peer_addr message expect_reply max_retries w :
  let run := send_message net peer_addr message expect_reply max_retries w in
  within_budget peer_addr (Z.to_nat max_retries) w (snd run)
  /\ match fst run with
     | inl e => is_ValueError e = true /\ snd run = w
     | inr _ => True
     end.
Proof.
  unfold send_message.
  destruct (split_on ":" peer_addr) as [|ip [|port_str [|x rest]]];
    try (simpl; split; [apply within_budget_refl | auto]).
  unfold bind, py_int. destruct (int port_str) as [port|]; simpl.
  - destruct (send_loop_within_budget peer_addr port message expect_reply max_retries
                (seq 0 (Z.to_nat max_retries)) w) as (r & w' & Hrun & Hb).
    rewrite length_seq in Hb. rewrite Hrun. simpl. auto.
  - split; [apply within_budget_refl | auto].
Qed.

(** X13.  Whatever the network does, a call of [send_message] opens at
    most [max_retries] sockets, writes at most one message and spends at
    most one tick per socket, addresses all its traffic to the peer it was
    given, and never touches the registry, the shared directory or the
    node's identity.  The only exception it lets out is the [ValueError]
    of an address that is not [ip:port], raised before anything is done. *)
Theorem send_message_within_budget peer_addr message expect_reply max_retries w :
  let run := send_message net peer_addr message expect_reply max_retries w in
  within_budget peer_addr (Z.to_nat max_retries) w (snd run)
  /\ match fst run with
     | inl e => is_ValueError e = true /\ snd run = w
     | inr _ => True
     end.
Proof. apply send_message_budget. Qed.

(** X14.  An attempt budget that is zero or negative means no attempt:
    [send_message] returns [None] at once and nothing has happened. *)
Theorem send_message_without_budget peer_addr port message expect_reply max_retries w :
  valid_address peer_addr port -> (max_retries <= 0)%Z ->
  send_message net peer_addr message expect_reply max_retries w = (inr PyNone, w).
Proof.
  intros Hvalid Hmax. rewrite (send_message_valid _ _ _ _ _ _ _ Hvalid).
  replace (Z.to_nat max_retries) with 0%nat by lia. reflexivity.
Qed.

(** Failures that are retried, then an attempt that meets no error. *)
Lemma send_loop_eventually peer_addr port message expect_reply max_retries attempts :
  (0 <= port <= 65535)%Z ->
  forall w i,
  (i < List.length attempts)%nat ->
  (forall j, (j < i)%nat -> retried (raised expect_reply (net (sockets w + j)))) ->
  raised expect_reply (net (sockets w + i)) = None ->
  exists w',
    send_loop net peer_addr port message expect_reply max_retries attempts w
    = (inr (if expect_reply then Str (sock_reply (net (sockets w + i))) else PyTrue), w')
    /\ sockets w' = (sockets w + i + 1)%nat.
Proof.
  intros Hport. induction attempts as [|n rest IH]; intros w i Hi Hbefore Hok.
  - simpl in Hi. lia.
  - rewrite send_loop_step. destruct i as [|i].
    + rewrite Nat.add_0_r in *.
      destruct (attempt_succeeds net peer_addr port message expect_reply w Hport Hok)
        as (w1 & Hrun & Hs & _).
      rewrite Hrun. exists w1. split; [reflexivity | lia].
    + assert (H0 : retried (raised expect_reply (net (sockets w)))).
      { specialize (Hbefore 0%nat). rewrite Nat.add_0_r in Hbefore.
        apply Hbefore. lia. }
      assert (Hrest : forall w1, sockets w1 = S (sockets w) ->
                (forall j, (j < i)%nat ->
                           retried (raised expect_reply (net (sockets w1 + j))))
                /\ raised expect_reply (net (sockets w1 + i)) = None
                /\ (sockets w1 + i = sockets w + S i)%nat).
      { intros w1 Hs. rewrite Hs. repeat split.
        - intros j Hj.
          replace (S (sockets w) + j)%nat with (sockets w + S j)%nat by lia.
          apply Hbefore. lia.
        - replace (S (sockets w) + i)%nat with (sockets w + S i)%nat by lia.
          exact Hok.
        - lia. }
      simpl in Hi.
      destruct H0 as [H0|[text H0]];
        destruct (attempt_raises net peer_addr port message expect_reply w _ Hport H0)
          as (w1 & Hrun & Hs & Hp & Hsid);
        rewrite Hrun; simpl exn_of; cbv iota;
        match goal with |- context [send_loop _ _ _ _ _ _ _ ?w2] =>
          destruct (Hrest w2 Hs) as (Hb2 & Hr2 & Hidx);
          destruct (IH w2 i ltac:(lia) Hb2 Hr2) as (w' & Hloop & Hs')
        end;
        exists w'; rewrite Hloop, Hidx; split; first [reflexivity | simpl in *; lia].
Qed.

(** X15.  Transient failures are ridden out.  If the first [i] attempts
    end in timeouts or other errors and the next one, still within the
    budget, meets none and, when a reply is awaited, reads ASCII text,
    [send_message] returns what that attempt got (the reply text, or
    [True] when no reply is awaited), after exactly [i + 1] sockets. *)
Theorem send_message_rides_out_failures peer_addr port message expect_reply
    max_retries w i :
  valid_address peer_addr port ->
  (i < Z.to_nat max_retries)%nat ->
  (forall j, (j < i)%nat -> retried (raised expect_reply (net (sockets w + j)))) ->
  raised expect_reply (net (sockets w + i)) = None ->
  (expect_reply = true -> ascii_text (sock_reply (net (sockets w + i)))) ->
  let run := send_message net peer_addr message expect_reply max_retries w in
  fst run = inr (if expect_reply then Str (sock_reply (net (sockets w + i))) else PyTrue)
  /\ sockets (snd run) = (sockets w + i + 1)%nat.
Proof.
  intros Hvalid Hi Hbefore Hok _ run. subst run.
  rewrite (send_message_valid _ _ _ _ _ _ _ Hvalid).
  destruct Hvalid as (ip & port_str & _ & _ & Hport).
  destruct (send_loop_eventually peer_addr port message expect_reply max_retries
              (seq 0 (Z.to_nat max_retries)) Hport w i) as (w' & Hrun & Hs); auto.
  { now rewrite length_seq. }
  rewrite Hrun. auto.
Qed.

End AnyNetwork.

Lemma send_message_without_budget_witness :
  let w := node "10.0.0.1:9001" [] in
  send_message (fun _ => PeerReplies "x") "10.0.0.2:9002" "HELLO" false 0 w = (inr PyNone, w).
Proof.
  intros w.
  apply (send_message_without_budget _ "10.0.0.2:9002" 9002); [|lia].
  exists "10.0.0.2", "9002". repeat split; discriminate.
Defined.

Lemma send_message_rides_out_failures_witness :
  let net := fun k : nat =>
    match k with 0%nat => RecvFails Timeout | _ => PeerReplies "10.0.0.2:9002 9 LS_LIST 0" end in
  let w := node "10.0.0.1:9001" [] in
  let run := send_message net "10.0.0.2:9002" "LS" true 2 w in
  fst run = inr (Str "10.0.0.2:9002 9 LS_LIST 0") /\ sockets (snd run) = 2%nat.
Proof.
  intros net w run.
  apply (send_message_rides_out_failures net "10.0.0.2:9002" 9002 "LS" true 2 w 1).
  - exists "10.0.0.2", "9002". repeat split; discriminate.
  - simpl. lia.
  - intros j Hj. assert (j = 0)%nat as -> by lia. now left.
  - reflexivity.
  - intros _. reflexivity.
Defined.

(* ===================================================================== *)
(** ** The commands *)
(* ===================================================================== *)

Section Commands.

Variable net : nat -> attempt_outcome.

(** A parseable address never makes [send_message] raise. *)
Lemma send_message_returns peer_addr message expect_reply max_retries w :
  parseable peer_addr ->
  exists r w',
    send_message net peer_addr message expect_reply max_retries w = (inr r, w')
    /\ within_budget peer_addr (Z.to_nat max_retries) w w'.
Proof.
  intros (ip & port_str & port & Hsplit & Hint).
  unfold send_message. rewrite Hsplit. unfold bind, py_int. rewrite Hint.
  destruct (send_loop_within_budget net peer_addr port message expect_reply max_retries
              (seq 0 (Z.to_nat max_retries)) w) as (r & w' & Hrun & Hb).
  rewrite length_seq in Hb. exists r, w'. split; [exact Hrun | exact Hb].
Qed.

Lemma send_message_unparseable peer_addr message expect_reply max_retries w :
  unparseable peer_addr ->
  exists text,
    send_message net peer_addr message expect_reply max_retries w
    = (inl (Exn ValueError text), w).
Proof.
  unfold unparseable, send_message. intros H.
  destruct (split_on ":" peer_addr) as [|ip [|port_str [|x rest]]];
    try (eexists; reflexivity).
  unfold bind, py_int. rewrite H. eexists; reflexivity.
Qed.

(** X16.  The probe of one peer records what the messenger reports.  If
    the first attempt meets no error (a failing read does not count, as no
    reply is awaited) the peer is ONLINE afterwards; if the first attempt
    is refused, or both attempts end in timeouts or other errors, it is
    OFFLINE.  The stored clock and all other records are kept. *)
Theorem hello_probe_records_outcome peer_addr port info w :
  valid_address peer_addr port ->
  dict_get peer_addr (peers w) = Some info ->
  let outcome j := raised false (net (sockets w + j)%nat) in
  let after st :=
    exists w', hello_probe net peer_addr w = (inr tt, w')
      /\ dict_get peer_addr (peers w') = Some (mkPeer st (clock info))
      /\ (forall k, k <> peer_addr -> dict_get k (peers w') = dict_get k (peers w)) in
  (outcome 0%nat = None -> after "ONLINE")
  /\ (outcome 0%nat = Some Refused -> after "OFFLINE")
  /\ (retried (outcome 0%nat) -> retried (outcome 1%nat) -> after "OFFLINE").
Proof.
  intros Hvalid Hget outcome after.
  assert (Hport : (0 <= port <= 65535)%Z) by (destruct Hvalid as (? & ? & ? & ? & ?); auto).
  assert (Hfin : forall r w1 st,
            send_message net peer_addr "HELLO" false 2 w = (inr r, w1) ->
            peers w1 = peers w ->
            match r with PyNone => "OFFLINE" | _ => "ONLINE" end = st ->
            after st).
  { intros r w1 st Hrun Hp Hst. subst after. cbv beta.
    destruct (set_status_run peer_addr st info w1) as (w2 & Hset & Hnew & Hother & _);
      [congruence|].
    exists w2. unfold hello_probe. rewrite (bind_run _ _ _ _ _ Hrun), Hst.
    split; [exact Hset|]. split; [exact Hnew|].
    intros k Hk. rewrite Hother by exact Hk. now rewrite Hp. }
  repeat split.
  - intros Hok.
    destruct (send_message_succeeds net peer_addr port "HELLO" false 2 w Hvalid)
      as (w1 & Hrun & _ & Hp & _); [lia | rewrite <- (Nat.add_0_r (sockets w)); exact Hok |].
    now apply (Hfin _ _ _ Hrun Hp).
  - intros Href. rewrite (send_message_valid _ _ _ _ _ _ _ Hvalid) in Hfin.
    destruct (send_loop_refused net peer_addr port "HELLO" false 2 (seq 0 (Z.to_nat 2))
                Hport w 0%nat) as (w1 & Hrun & _ & Hp & _);
      [simpl; lia | intros j Hj; lia | exact Href |].
    now apply (Hfin _ _ _ Hrun Hp).
  - intros H0 H1. rewrite (send_message_valid _ _ _ _ _ _ _ Hvalid) in Hfin.
    destruct (send_loop_exhausts net peer_addr port "HELLO" false 2 (seq 0 (Z.to_nat 2))
                Hport w) as (w1 & Hrun & _ & Hp & _).
    { intros j Hj. simpl in Hj.
      destruct j as [|[|j]]; [exact H0 | exact H1 | lia]. }
    now apply (Hfin _ _ _ Hrun Hp).
Qed.

Lemma in_online_peers k w :
  In k (online_peers w) ->
  exists info, In (k, info) (peers w) /\ status info = "ONLINE".
Proof.
  unfold online_peers, keys. intros H. apply in_map_iff in H.
  destruct H as ([k' info] & Hk & Hin). simpl in Hk. subst k'.
  apply filter_In in Hin. destruct Hin as [Hin Hon].
  exists info. split; [exact Hin|]. now apply String.eqb_eq.
Qed.

Lemma farewell_loop l :
  forall w, exists w' tr,
    snd (for_each l (fun peer_addr =>
           _ <- send_message net peer_addr "BYE" false 2 ;; ret tt) w) = w'
    /\ wire w' = (wire w ++ tr)%list
    /\ Forall (fun e => In (dest_of e) l) tr
    /\ peers w' = peers w /\ shared_dir w' = shared_dir w.
Proof.
  induction l as [|p l IH]; intros w.
  - exists w, []. simpl. rewrite app_nil_r. repeat split; constructor.
  - cbn [for_each].
    pose proof (send_message_budget net p "BYE" false 2 w) as Hb.
    destruct (send_message net p "BYE" false 2 w) as [[e|r] w1] eqn:Hrun.
    + destruct Hb as ((_ & (tr1 & Hw1 & Hd1 & _) & _ & Hp1 & Hf1 & _) & _).
      cbn [snd] in *.
      exists w1, tr1.
      rewrite (bind_raise _ _ _ _ _ (bind_raise _ _ _ _ _ Hrun)).
      cbn [snd]. repeat split; auto.
      eapply Forall_impl; [|exact Hd1]. intros ev ->. now left.
    + destruct Hb as ((_ & (tr1 & Hw1 & Hd1 & _) & _ & Hp1 & Hf1 & _) & _).
      cbn [snd] in *.
      destruct (IH w1) as (w' & tr & Hrest & Hw & Hd & Hp & Hf).
      exists w', (tr1 ++ tr)%list.
      assert (Hbody : (_ <- send_message net p "BYE" false 2 ;; ret tt) w = (inr tt, w1)).
      { now rewrite (bind_run _ _ _ _ _ Hrun). }
      rewrite (bind_run _ _ _ _ _ Hbody).
      repeat split.
      * exact Hrest.
      * now rewrite Hw, Hw1, app_assoc.
      * apply Forall_app. split.
        -- eapply Forall_impl; [|exact Hd1]. intros ev ->. now left.
        -- eapply Forall_impl; [|exact Hd]. intros ev Hev. now right.
      * congruence.
      * congruence.
Qed.

(** X17.  The farewell of [command_exit] writes only to peers that are
    ONLINE in the registry when it starts, and it records nothing: whether
    the peers take the [BYE] or not, no status changes. *)
Theorem farewell_only_to_online w :
  let w' := snd (bye_fanout net w) in
  peers w' = peers w
  /\ shared_dir w' = shared_dir w
  /\ exists tr, wire w' = (wire w ++ tr)%list
       /\ Forall (fun e => exists info, In (dest_of e, info) (peers w)
                                        /\ status info = "ONLINE") tr.
Proof.
  assert (Hfan : bye_fanout net w
                 = for_each (online_peers w) (fun peer_addr =>
                     _ <- send_message net peer_addr "BYE" false 2 ;; ret tt) w)
    by reflexivity.
  rewrite Hfan.
  destruct (farewell_loop (online_peers w) w) as (w' & tr & Hrun & Hw & Hd & Hp & Hf).
  cbv zeta. rewrite Hrun. repeat split; auto.
  exists tr. split; [exact Hw|].
  eapply Forall_impl; [|exact Hd]. intros e He. now apply in_online_peers.
Qed.

Lemma catchable_set_status peer new_status : catchable (set_status peer new_status).
Proof.
  unfold set_status. apply catchable_bind; [apply catchable_gets|intros ps].
  destruct (dict_get peer ps); [|now apply catchable_raise].
  destruct (negb _); [|apply catchable_ret].
  apply catchable_bind; [apply catchable_modify | intros _; apply catchable_modify].
Qed.

Lemma catchable_for_each {A} (l : list A) body :
  (forall x, catchable (body x)) -> catchable (for_each l body).
Proof.
  intros H. induction l as [|x l IH]; simpl; [apply catchable_ret|].
  apply catchable_bind; auto.
Qed.

Lemma catchable_ingest_peer_list peer_addr reply :
  catchable (ingest_peer_list peer_addr reply).
Proof.
  unfold ingest_peer_list.
  destruct (split (strip reply)) as [|a [|b [|p2 [|p3 rest]]]];
    try apply catchable_modify.
  destruct (p2 =? "PEER_LIST"); [|apply catchable_modify].
  apply catchable_bind; [apply catchable_py_int|intros total].
  apply catchable_bind.
  { destruct (negb _); [apply catchable_modify | apply catchable_ret]. }
  intros _. apply catchable_bind; [|intros _; apply catchable_set_status].
  apply catchable_for_each. intros x. unfold process_peer_info.
  apply (catchable_caught _ (fun e => "Erro ao processar peer " ++ x ++ ": " ++ exn_text e)).
  destruct (split_on ":" x) as [|p0 [|p1 [|q rest']]]; try apply catchable_ret.
  apply catchable_bind.
  - destruct rest'; [now apply catchable_raise | apply catchable_py_int].
  - intros ck. apply catchable_bind; [apply catchable_gets|intros sid].
    destruct (_ =? sid); [apply catchable_ret|].
    intros w. destruct (merge_run (p0 ++ ":" ++ p1) q ck w) as (w' & Hrun & _).
    now rewrite Hrun.
Qed.

Lemma registered_dict_set {V} k k' (v : V) d :
  dict_get k d <> None -> dict_get k (dict_set k' v d) <> None.
Proof.
  intros H. destruct (string_dec k k') as [->|Hne].
  - rewrite dict_get_set_same. discriminate.
  - now rewrite dict_get_set_other.
Qed.

(** One round of the refresh for a parseable, registered peer returns. *)
Lemma get_peers_from_returns peer_addr w :
  parseable peer_addr ->
  dict_get peer_addr (peers w) <> None ->
  fst (get_peers_from net peer_addr w) = inr tt.
Proof.
  intros Hparse Hreg. unfold get_peers_from.
  destruct (update_clock_run w) as (w0 & Hclk & _ & _ & Hp0 & _).
  destruct (send_message_returns peer_addr "GET_PEERS" true 2 w0 Hparse)
    as (r & w1 & Hrun & (_ & _ & _ & Hp1 & _)).
  rewrite (bind_run _ _ _ _ _ Hclk), (bind_run _ _ _ _ _ Hrun).
  destruct (truthy r).
  - destruct r; try reflexivity.
    apply (caught_returns _ (fun e => "Erro ao processar resposta de " ++ peer_addr
                                      ++ ": " ++ exn_text e)).
    apply catchable_ingest_peer_list.
  - destruct (dict_get peer_addr (peers w1)) as [info|] eqn:Hget.
    + destruct (set_status_run peer_addr "OFFLINE" info w1 Hget) as (w2 & Hset & _).
      now rewrite Hset.
    + rewrite Hp1, Hp0 in Hget. contradiction.
Qed.

(** X18.  The refresh of the peer list cannot fail on a registry of
    well-formed addresses: whatever the peers answer, garbage included,
    and whatever the network does, [command_get_peers] returns
    normally. *)
Theorem command_get_peers_completes w :
  Forall parseable (keys (peers w)) ->
  fst (command_get_peers net w) = inr tt.
Proof.
  intros Hall. unfold command_get_peers, bind, gets.
  assert (Hloop : forall l w0,
            Forall parseable l ->
            (forall k, In k l -> dict_get k (peers w0) <> None) ->
            fst (for_each l (get_peers_from net) w0) = inr tt).
  { induction l as [|p l IH]; intros w0 Hl Hreg; [reflexivity|].
    inversion Hl as [|? ? Hp Hl']; subst.
    cbn [for_each]. unfold bind.
    pose proof (get_peers_from_returns p w0 Hp (Hreg p (or_introl eq_refl))) as Hret.
    assert (Hkeep : forall k, In k l ->
              dict_get k (peers (snd (get_peers_from net p w0))) <> None).
    { intros k Hk.
      apply (inv_get_peers_from (fun x => dict_get k (peers x) <> None));
        try (intros; simpl; assumption).
      - intros x k' info Hx. simpl. now apply registered_dict_set.
      - apply Hreg. now right. }
    destruct (get_peers_from net p w0) as [[e|[]] w1]; [discriminate|].
    apply IH; assumption. }
  apply Hloop; [exact Hall|].
  intros k Hk. unfold keys in Hk. apply in_map_iff in Hk.
  destruct Hk as ([k' info] & <- & Hin). simpl.
  clear Hall Hloop. induction (peers w) as [|[k0 v0] d IHd]; [contradiction|].
  simpl. destruct (String.eqb_spec k0 k'); [discriminate|].
  destruct Hin as [[= -> ->]|Hin]; [contradiction | now apply IHd].
Qed.

(** X19.  One registry key of ASCII text that is not [ip:port] with an
    integer port stops a fan-out.  With such a key first in the registry, the refresh
    raises [ValueError] after its own tick, and, when the key is ONLINE,
    so do the farewell and the file search, before any socket is opened:
    no peer behind it is contacted. *)
Theorem unparseable_key_stops_fanouts k info rest escolha w :
  peers w = (k, info) :: rest ->
  ascii_text k ->
  unparseable k ->
  (exists text w', command_get_peers net w = (inl (Exn ValueError text), w')
     /\ wire w' = wire w /\ sockets w' = sockets w
     /\ global_clock w' = (global_clock w + 1)%Z)
  /\ (status info = "ONLINE" ->
      (exists text, bye_fanout net w = (inl (Exn ValueError text), w))
      /\ (exists text, command_search_files net escolha w = (inl (Exn ValueError text), w))).
Proof.
  intros Hpeers _ Hbad.
  assert (Hkeys : keys (peers w) = k :: keys rest) by now rewrite Hpeers.
  split.
  - destruct (update_clock_run w) as (w0 & Hclk & Hc0 & Hs0 & _ & _ & _ & Hw0).
    destruct (send_message_unparseable k "GET_PEERS" true 2 w0 Hbad) as (text & Hrun).
    exists text, w0.
    assert (Hone : get_peers_from net k w = (inl (Exn ValueError text), w0)).
    { unfold get_peers_from. rewrite (bind_run _ _ _ _ _ Hclk).
      now rewrite (bind_raise _ _ _ _ _ Hrun). }
    assert (Hcmd : command_get_peers net w
                   = for_each (keys (peers w)) (get_peers_from net) w) by reflexivity.
    rewrite Hcmd, Hkeys. cbn [for_each].
    rewrite (bind_raise _ _ _ _ _ Hone). auto.
  - intros Hon.
    assert (Honline : online_peers w = k :: keys (filter is_online rest)).
    { unfold online_peers. rewrite Hpeers. cbn [filter]. unfold is_online at 1.
      cbn [snd]. rewrite Hon. reflexivity. }
    split.
    + destruct (send_message_unparseable k "BYE" false 2 w Hbad) as (text & Hrun).
      exists text.
      assert (Hfan : bye_fanout net w
                     = for_each (online_peers w) (fun peer_addr =>
                         _ <- send_message net peer_addr "BYE" false 2 ;; ret tt) w)
        by reflexivity.
      rewrite Hfan, Honline. cbn [for_each].
      now rewrite (bind_raise _ _ _ _ _ (bind_raise _ _ _ _ _ Hrun)).
    + destruct (send_message_unparseable k "LS" true 2 w Hbad) as (text & Hrun).
      exists text.
      assert (Hfan : forall acc, ls_fanout net (online_peers w) acc w
                                 = (inl (Exn ValueError text), w)).
      { intros acc. rewrite Honline. cbn [ls_fanout].
        assert (Hfrom : ls_from net k acc w = (inl (Exn ValueError text), w)).
        { unfold ls_from. now rewrite (bind_raise _ _ _ _ _ Hrun). }
        now rewrite (bind_raise _ _ _ _ _ Hfrom). }
      unfold command_search_files.
      assert (Hg : gets (fun w => keys (filter is_online (peers w))) w
                   = (inr (online_peers w), w)) by reflexivity.
      rewrite (bind_run _ _ _ _ _ Hg).
      now rewrite (bind_raise _ _ _ _ _ (Hfan _)).
Qed.

(** X20.  An answer of ASCII text to the download prompt that is not the
    number of a listed file (text that is no integer, a number out of range, and also
    [0], the entry offered for cancelling) sends nothing and writes
    nothing: a single line is printed and the node is otherwise as it
    was. *)
Theorem invalid_choice_sends_nothing arquivos escolha w :
  ascii_text escolha ->
  match int (strip escolha) with
  | None => True
  | Some n => (n < 1)%Z \/ (Z.of_nat (List.length arquivos) < n)%Z
  end ->
  exists line,
    choose_and_download net arquivos escolha w = (inr tt, add_stdout line w)
    /\ (line = "Opção inválida!" \/ line = "Digite um número válido2!").
Proof.
  intros _ H. unfold choose_and_download, bind, try, py_int.
  destruct (int (strip escolha)) as [n|].
  - unfold ret.
    assert (Hb : (n - 1 <? 0)%Z || (Z.of_nat (List.length arquivos) <=? n - 1)%Z = true).
    { apply orb_true_iff. destruct H; [left; apply Z.ltb_lt | right; apply Z.leb_le]; lia. }
    rewrite Hb. exists "Opção inválida!". split; [reflexivity | now left].
  - exists "Digite um número válido2!". split; [reflexivity | now right].
Qed.

End Commands.

Lemma hello_probe_records_outcome_witness :
  let w := node "10.0.0.1:9001" [("10.0.0.2:9002", mkPeer "OFFLINE" 7)] in
  exists w', hello_probe (fun _ => RecvFails Timeout) "10.0.0.2:9002" w = (inr tt, w')
    /\ dict_get "10.0.0.2:9002" (peers w') = Some (mkPeer "ONLINE" 7).
Proof.
  intros w.
  assert (Hvalid : valid_address "10.0.0.2:9002" 9002).
  { exists "10.0.0.2", "9002". repeat split; discriminate. }
  destruct (hello_probe_records_outcome (fun _ => RecvFails Timeout) _ _ _ w Hvalid eq_refl)
    as (Hon & _).
  destruct (Hon eq_refl) as (w' & Hrun & Hst & _).
  exists w'. auto.
Defined.


Lemma command_get_peers_completes_witness :
  let net := fun _ : nat => PeerReplies ("garbage 1 PEER_LIST x" ++ nl) in
  let w := node "10.0.0.1:9001"
             [("10.0.0.2:9002", mkPeer "ONLINE" 0); ("10.0.0.3:9003", mkPeer "OFFLINE" 0)] in
  fst (command_get_peers net w) = inr tt.
Proof.
  intros net w. apply command_get_peers_completes.
  repeat constructor.
  - now exists "10.0.0.2", "9002", 9002%Z.
  - now exists "10.0.0.3", "9003", 9003%Z.
Defined.

Lemma unparseable_key_stops_fanouts_witness :
  let w := node "10.0.0.1:9001"
             [("nobody", mkPeer "ONLINE" 3); ("10.0.0.3:9003", mkPeer "ONLINE" 0)] in
  exists text, bye_fanout (fun _ => PeerReplies "") w = (inl (Exn ValueError text), w).
Proof.
  intros w.
  destruct (unparseable_key_stops_fanouts (fun _ => PeerReplies "") "nobody"
              (mkPeer "ONLINE" 3) [("10.0.0.3:9003", mkPeer "ONLINE" 0)] "0" w
              eq_refl eq_refl I) as (_ & Hon).
  destruct (Hon eq_refl) as (Hbye & _). exact Hbye.
Defined.

Lemma invalid_choice_sends_nothing_witness :
  let w := node "10.0.0.1:9001" [] in
  exists line,
    choose_and_download (fun _ => PeerReplies "") [("a.txt", 3%Z, "10.0.0.2:9002")] "0" w
    = (inr tt, add_stdout line w)
    /\ (line = "Opção inválida!" \/ line = "Digite um número válido2!").
Proof.
  intros w. apply invalid_choice_sends_nothing; [reflexivity | simpl; lia].
Defined.

(* ===================================================================== *)
(** ** The neighbor file *)
(* ===================================================================== *)

(** What one line of the file does. *)
Lemma load_neighbors_line f line lines w :
  load_neighbors f (Some (line :: lines)) w
  = load_neighbors f (Some lines)
      (if negb (is_empty (strip line)) && negb (strip line =? server_id w)
          && negb (dict_mem (strip line) (peers w))
       then add_stdout ("Adicionando novo peer " ++ strip line
                        ++ " status OFFLINE e relógio 0")
              (set_peers (dict_set (strip line) (mkPeer "OFFLINE" 0) (peers w)) w)
       else w).
Proof.
  unfold load_neighbors. cbn [for_each]. unfold bind at 1. unfold bind at 1.
  unfold gets at 1.
  destruct (is_empty (strip line)); [reflexivity|].
  destruct (strip line =? server_id w); [reflexivity|].
  cbn [negb andb]. unfold bind at 1, gets at 1.
  destruct (dict_mem (strip line) (peers w)); reflexivity.
Qed.

Lemma named_in_cons line lines sid k :
  named_in (line :: lines) sid k
  = ((strip line =? k) && negb (is_empty k) && negb (k =? sid)) || named_in lines sid k.
Proof.
  unfold named_in. cbn [existsb].
  destruct (strip line =? k), (existsb _ lines), (is_empty k), (k =? sid); reflexivity.
Qed.

Lemma dict_mem_get {V} k (d : dict V) : dict_mem k d = false <-> dict_get k d = None.
Proof. unfold dict_mem. destruct (dict_get k d); split; congruence. Qed.

(** The whole file. *)
Lemma load_neighbors_run f lines :
  forall w, exists w',
    load_neighbors f (Some lines) w = (inr tt, w')
    /\ (forall k info, dict_get k (peers w) = Some info ->
                       dict_get k (peers w') = Some info)
    /\ (forall k, dict_get k (peers w) = None ->
                  dict_get k (peers w')
                  = if named_in lines (server_id w) k
                    then Some (mkPeer "OFFLINE" 0) else None)
    /\ server_id w' = server_id w /\ global_clock w' = global_clock w
    /\ shared_dir w' = shared_dir w /\ sockets w' = sockets w /\ wire w' = wire w.
Proof.
  induction lines as [|line lines IH]; intros w.
  - exists w. split; [reflexivity|]. repeat split; auto.
  - rewrite load_neighbors_line.
    destruct (is_empty (strip line)) eqn:Hempty;
      [|destruct (String.eqb_spec (strip line) (server_id w)) as [Hself|Hself];
        [|destruct (dict_mem (strip line) (peers w)) eqn:Hmem]];
      cbn [negb andb].
    + destruct (IH w) as (w' & Hrun & Hold & Hnew & Hrest).
      exists w'. split; [exact Hrun|]. split; [exact Hold|]. split; [|exact Hrest].
      intros k Hk. rewrite (Hnew k Hk), named_in_cons.
      destruct (String.eqb_spec (strip line) k) as [<-|_]; [|reflexivity].
      now rewrite Hempty.
    + destruct (IH w) as (w' & Hrun & Hold & Hnew & Hrest).
      exists w'. split; [exact Hrun|]. split; [exact Hold|]. split; [|exact Hrest].
      intros k Hk. rewrite (Hnew k Hk), named_in_cons.
      destruct (String.eqb_spec (strip line) k) as [<-|_]; [|reflexivity].
      rewrite Hself, String.eqb_refl. destruct (is_empty (server_id w)); reflexivity.
    + destruct (IH w) as (w' & Hrun & Hold & Hnew & Hrest).
      exists w'. split; [exact Hrun|]. split; [exact Hold|]. split; [|exact Hrest].
      intros k Hk. rewrite (Hnew k Hk), named_in_cons.
      destruct (String.eqb_spec (strip line) k) as [<-|_]; [|reflexivity].
      unfold dict_mem in Hmem. now rewrite Hk in Hmem.
    + apply dict_mem_get in Hmem.
      destruct (IH (add_stdout ("Adicionando novo peer " ++ strip line
                                ++ " status OFFLINE e relógio 0")
                      (set_peers (dict_set (strip line) (mkPeer "OFFLINE" 0) (peers w)) w)))
        as (w' & Hrun & Hold & Hnew & Hrest).
      cbn [peers server_id global_clock shared_dir sockets wire add_stdout set_peers]
        in Hold, Hnew, Hrest.
      exists w'. split; [exact Hrun|]. split; [|split; [|exact Hrest]].
      * intros k info Hk. apply Hold.
        rewrite dict_get_set_other; [exact Hk|]. intros ->. congruence.
      * intros k Hk. rewrite named_in_cons.
        destruct (String.eqb_spec (strip line) k) as [<-|Hne].
        -- rewrite Hempty. apply String.eqb_neq in Hself. rewrite Hself. cbn [negb andb orb].
           apply Hold. apply dict_get_set_same.
        -- cbn [andb orb]. apply Hnew. rewrite dict_get_set_other; [exact Hk|].
           congruence.
Qed.

(** A file that names only registered peers changes nothing. *)
Lemma load_neighbors_known f lines w :
  (forall k, named_in lines (server_id w) k = true -> dict_get k (peers w) <> None) ->
  load_neighbors f (Some lines) w = (inr tt, w).
Proof.
  induction lines as [|line lines IH]; intros Hknown; [reflexivity|].
  rewrite load_neighbors_line.
  assert (Hrest : forall k, named_in lines (server_id w) k = true ->
                            dict_get k (peers w) <> None).
  { intros k Hk. apply Hknown. rewrite named_in_cons, Hk. apply orb_true_r. }
  destruct (is_empty (strip line)) eqn:Hempty; [now apply IH|].
  destruct (strip line =? server_id w) eqn:Hself; [now apply IH|].
  destruct (dict_mem (strip line) (peers w)) eqn:Hmem; [now apply IH|].
  exfalso. apply dict_mem_get in Hmem. revert Hmem. apply Hknown.
  rewrite named_in_cons, String.eqb_refl, Hempty, Hself. reflexivity.
Qed.

(** X21.  Loading a neighbor file that reads as lines of ASCII text never
    touches a peer the node already knows, whatever its status and clock; every other address the file
    names (a stripped line that is not blank and not the node's own
    address) is registered OFFLINE with clock 0, and nothing else is.  The
    clock, the network and the shared directory are left alone. *)
Theorem load_neighbors_adds_only_new f lines w :
  Forall ascii_text lines ->
  exists w',
    load_neighbors f (Some lines) w = (inr tt, w')
    /\ (forall k info, dict_get k (peers w) = Some info ->
                       dict_get k (peers w') = Some info)
    /\ (forall k, dict_get k (peers w) = None ->
                  dict_get k (peers w')
                  = if named_in lines (server_id w) k
                    then Some (mkPeer "OFFLINE" 0) else None)
    /\ server_id w' = server_id w /\ global_clock w' = global_clock w
    /\ shared_dir w' = shared_dir w /\ sockets w' = sockets w /\ wire w' = wire w.
Proof. intros _. apply load_neighbors_run. Qed.

Lemma load_neighbors_adds_only_new_witness :
  let lines := ["10.0.0.2:9002" ++ nl; "  " ++ nl; "10.0.0.1:9001" ++ nl; "10.0.0.3:9003"] in
  let w := node "10.0.0.1:9001" [("10.0.0.2:9002", mkPeer "ONLINE" 7)] in
  exists w',
    load_neighbors "peers.txt" (Some lines) w = (inr tt, w')
    /\ dict_get "10.0.0.2:9002" (peers w') = Some (mkPeer "ONLINE" 7)
    /\ dict_get "10.0.0.3:9003" (peers w') = Some (mkPeer "OFFLINE" 0)
    /\ dict_get "10.0.0.1:9001" (peers w') = None.
Proof.
  intros lines w.
  destruct (load_neighbors_adds_only_new "peers.txt" lines w) as (w' & Hrun & Hold & Hnew & _).
  - repeat constructor.
  - exists w'. split; [exact Hrun|]. split; [now apply Hold|].
    split; now rewrite Hnew.
Defined.

(** X22.  Loading the same neighbor file, which reads as lines of ASCII
    text, a second time changes nothing and prints nothing: the node is exactly as the first load left it. *)
Theorem load_neighbors_twice f lines w :
  Forall ascii_text lines ->
  let w1 := snd (load_neighbors f (Some lines) w) in
  load_neighbors f (Some lines) w1 = (inr tt, w1).
Proof.
  intros _.
  destruct (load_neighbors_run f lines w) as (w1 & Hrun & Hold & Hnew & Hsid & _).
  rewrite Hrun. cbn [snd]. apply load_neighbors_known.
  intros k Hk. rewrite Hsid in Hk.
  destruct (dict_get k (peers w)) as [info|] eqn:Hget.
  - rewrite (Hold k info Hget). discriminate.
  - rewrite (Hnew k Hget), Hk. discriminate.
Qed.

Lemma load_neighbors_twice_witness :
  let lines := ["10.0.0.2:9002" ++ nl; "10.0.0.3:9003" ++ nl] in
  let w := node "10.0.0.1:9001" [("10.0.0.2:9002", mkPeer "ONLINE" 7)] in
  let w1 := snd (load_neighbors "peers.txt" (Some lines) w) in
  load_neighbors "peers.txt" (Some lines) w1 = (inr tt, w1).
Proof.
  intros lines w.
  apply (load_neighbors_twice "peers.txt" lines w). repeat constructor.
Defined.
(* ===================================================================== *)
(** ** The peer list of the operator *)
(* ===================================================================== *)

Lemma only_printed_refl w : only_printed w w.
Proof. repeat split. exists []. now rewrite app_nil_r. Qed.

Lemma only_printed_print line w w' :
  only_printed w w' -> only_printed w (add_stdout line w').
Proof.
  intros (H1 & H2 & H3 & H4 & H5 & H6 & out & H7). repeat split; auto.
  exists (out ++ [line])%list. cbn [stdout add_stdout]. now rewrite H7, app_assoc.
Qed.

Lemma print_peers_only_prints l :
  forall idx w w0, only_printed w w0 ->
  exists w', print_peers idx l w0 = (inr tt, w') /\ only_printed w w'.
Proof.
  induction l as [|[peer info] l IH]; intros idx w w0 H.
  - exists w0. split; [reflexivity | exact H].
  - cbn [print_peers].
    destruct (IH (idx + 1)%Z w _ (only_printed_print
                ("[" ++ str idx ++ "] " ++ peer ++ " " ++ status info ++ " "
                 ++ str (clock info)) w w0 H)) as (w' & Hrun & Hw').
    exists w'. split; [|exact Hw']. unfold bind at 1, print at 1, modify at 1.
    exact Hrun.
Qed.

Lemma set_status_keys peer new_status info w :
  dict_get peer (peers w) = Some info ->
  keys (peers (snd (set_status peer new_status w))) = keys (peers w).
Proof.
  intros Hget. unfold set_status, bind, gets. rewrite Hget.
  destruct (negb (status info =? new_status)); [|reflexivity].
  unfold modify, print, modify. cbn [snd peers set_peers add_stdout].
  eapply keys_dict_set_present; eauto.
Qed.

Lemma nth_error_registered {V} (d : dict V) i k v :
  nth_error d i = Some (k, v) -> dict_get k d <> None.
Proof.
  intros H. apply nth_error_In in H.
  induction d as [|[k0 v0] d IH]; [contradiction|].
  simpl. destruct (String.eqb_spec k0 k); [discriminate|].
  destruct H as [[= -> ->]|H]; [contradiction | now apply IH].
Qed.

Section ListPeers.

Variable net : nat -> attempt_outcome.

(** The round shows the list and then acts on the answer. *)
Lemma list_peers_round_menu escolha w :
  peers w <> [] ->
  exists w0, only_printed w w0
    /\ list_peers_round net escolha w = probe_choice net (peers w) escolha w0.
Proof.
  intros Hne. unfold list_peers_round. unfold bind at 1, gets at 1.
  destruct (peers w) as [|e l] eqn:Hp; [contradiction|].
  destruct (print_peers_only_prints (e :: l) 1 w
              (add_stdout "[0] Voltar para o menu anterior"
                 (add_stdout (nl ++ "Lista de peers:") w)))
    as (w1 & Hrun & Hw1).
  { apply only_printed_print, only_printed_print, only_printed_refl. }
  exists (add_stdout "> " w1). split; [now apply only_printed_print|].
  unfold bind at 1, print at 1, modify at 1.
  unfold bind at 1, print at 1, modify at 1.
  rewrite (bind_run _ _ _ _ _ Hrun).
  unfold bind at 1, print at 1, modify at 1. reflexivity.
Qed.

(** The probe of a registered peer: either the address cannot be parsed
    and nothing happens, or the peer alone is written to and its record
    alone may change, in its status only. *)
Lemma hello_probe_run peer_addr info w :
  dict_get peer_addr (peers w) = Some info ->
  (unparseable peer_addr
   /\ exists text, hello_probe net peer_addr w = (inl (Exn ValueError text), w))
  \/ (parseable peer_addr
      /\ exists w' st tr,
        hello_probe net peer_addr w = (inr tt, w')
        /\ wire w' = (wire w ++ tr)%list
        /\ Forall (fun e => dest_of e = peer_addr) tr
        /\ dict_get peer_addr (peers w') = Some (mkPeer st (clock info))
        /\ (forall k, k <> peer_addr -> dict_get k (peers w') = dict_get k (peers w))
        /\ keys (peers w') = keys (peers w)
        /\ shared_dir w' = shared_dir w).
Proof.
  intros Hget.
  destruct (split_on ":" peer_addr) as [|ip [|port_str [|x rest]]] eqn:Hsplit.
  1,2,4: left; assert (Hbad : unparseable peer_addr)
           by (unfold unparseable; now rewrite Hsplit);
         split; [exact Hbad|];
         destruct (send_message_unparseable net peer_addr "HELLO" false 2 w Hbad)
           as (text & Hrun);
         exists text; unfold hello_probe; now rewrite (bind_raise _ _ _ _ _ Hrun).
  destruct (int port_str) as [port|] eqn:Hint.
  - right.
    assert (Hok : parseable peer_addr) by now exists ip, port_str, port.
    split; [exact Hok|].
    destruct (send_message_returns net peer_addr "HELLO" false 2 w Hok)
      as (r & w1 & Hrun & _ & (tr & Hw & Hd & _) & _ & Hp & Hf & _).
    rewrite <- Hp in Hget.
    set (st := match r with PyNone => "OFFLINE" | _ => "ONLINE" end).
    pose proof (set_status_keys peer_addr st info w1 Hget) as Hkeys.
    destruct (set_status_run peer_addr st info w1 Hget)
      as (w2 & Hset & Hnew & Hother & _ & Hf2 & _ & _ & Hw2).
    rewrite Hset in Hkeys. cbn [snd] in Hkeys.
    exists w2, st, tr. unfold hello_probe. rewrite (bind_run _ _ _ _ _ Hrun).
    fold st. rewrite Hset. repeat split; try congruence.
    intros k Hk. rewrite (Hother k Hk). now rewrite Hp.
  - left.
    assert (Hbad : unparseable peer_addr) by (unfold unparseable; now rewrite Hsplit).
    split; [exact Hbad|].
    destruct (send_message_unparseable net peer_addr "HELLO" false 2 w Hbad)
      as (text & Hrun).
    exists text. unfold hello_probe. now rewrite (bind_raise _ _ _ _ _ Hrun).
Qed.

Lemma probe_choice_zero pl escolha w :
  strip escolha = "0" -> probe_choice net pl escolha w = (inr false, w).
Proof. intros H. unfold probe_choice. now rewrite H. Qed.

Lemma probe_choice_invalid pl escolha w :
  strip escolha <> "0" ->
  match int (strip escolha) with
  | None => True
  | Some n => (n < 1)%Z \/ (Z.of_nat (List.length pl) < n)%Z
  end ->
  exists line, probe_choice net pl escolha w = (inr true, add_stdout line w).
Proof.
  intros Hz H. unfold probe_choice.
  apply String.eqb_neq in Hz. rewrite Hz.
  unfold bind, try, py_int.
  destruct (int (strip escolha)) as [n|].
  - unfold ret.
    assert (Hb : (n - 1 <? 0)%Z || (Z.of_nat (List.length pl) <=? n - 1)%Z = true).
    { apply orb_true_iff. destruct H; [left; apply Z.ltb_lt | right; apply Z.leb_le]; lia. }
    rewrite Hb. now exists "Opção inválida!".
  - now exists "Digite um número válido1!".
Qed.

Lemma probe_choice_listed pl escolha n peer_addr info w :
  int (strip escolha) = Some n ->
  (1 <= n)%Z ->
  nth_error pl (Z.to_nat (n - 1)) = Some (peer_addr, info) ->
  probe_choice net pl escolha w
  = match hello_probe net peer_addr w with
    | (inr _, w') => (inr true, w')
    | (inl e, w') =>
        if is_ValueError e then (inr true, add_stdout "Digite um número válido1!" w')
        else (inl e, w')
    end.
Proof.
  intros Hint Hn Hnth. unfold probe_choice.
  destruct (String.eqb_spec (strip escolha) "0") as [Hz|_].
  { rewrite Hz in Hint. vm_compute in Hint. injection Hint as <-. lia. }
  assert (Hlen : (Z.to_nat (n - 1) < List.length pl)%nat).
  { apply nth_error_Some. now rewrite Hnth. }
  assert (Hb : (n - 1 <? 0)%Z || (Z.of_nat (List.length pl) <=? n - 1)%Z = false).
  { apply orb_false_iff. split; [apply Z.ltb_ge | apply Z.leb_gt]; lia. }
  unfold bind at 1, try at 1, bind at 1, py_int. rewrite Hint. unfold ret at 1.
  rewrite Hb, Hnth.
  destruct (hello_probe net peer_addr w) as [[e|[]] w']; [|reflexivity].
  destruct (is_ValueError e); reflexivity.
Qed.

(** X23.  A turn of the peer list never fails and never adds or removes
    a peer, whatever ASCII text the operator types and whatever the
    network does.
    It ends the loop only when the registry is empty or the answer is
    [0]; every other answer, valid or not, brings the list back. *)
Theorem list_peers_round_returns escolha w :
  ascii_text escolha ->
  exists b w',
    list_peers_round net escolha w = (inr b, w')
    /\ keys (peers w') = keys (peers w)
    /\ shared_dir w' = shared_dir w
    /\ (b = false <-> peers w = [] \/ strip escolha = "0").
Proof.
  intros _.
  destruct (peers w) as [|e0 l0] eqn:Hp.
  { exists false, (add_stdout "Nenhum peer conhecido." w).
    unfold list_peers_round, bind at 1, gets at 1. rewrite Hp.
    split; [reflexivity|]. cbn [peers shared_dir add_stdout]. rewrite Hp.
    repeat split; auto. }
  destruct (list_peers_round_menu escolha w) as (w0 & Hw0 & Hrun);
    [now rewrite Hp|].
  rewrite Hrun, Hp.
  destruct Hw0 as (_ & _ & Hp0 & Hf0 & _). rewrite Hp in Hp0.
  destruct (String.eqb_spec (strip escolha) "0") as [Hz|Hz].
  { exists false, w0. rewrite (probe_choice_zero _ _ _ Hz), Hp0.
    repeat split; auto. }
  assert (Hgoes : forall w', keys (peers w') = keys (e0 :: l0) ->
            shared_dir w' = shared_dir w ->
            keys (peers w') = keys (e0 :: l0) /\ shared_dir w' = shared_dir w
            /\ (true = false <-> e0 :: l0 = [] \/ strip escolha = "0")).
  { intros w' Hk Hf. repeat split; auto; try discriminate. intros [H|H]; congruence. }
  destruct (int (strip escolha)) as [n|] eqn:Hint.
  - destruct (Z_lt_le_dec n 1) as [Hlow|Hlow].
    { destruct (probe_choice_invalid (e0 :: l0) escolha w0 Hz) as (line & Hbad).
      { rewrite Hint. now left. }
      exists true, (add_stdout line w0). rewrite Hbad. split; [reflexivity|].
      apply Hgoes; cbn [peers shared_dir add_stdout]; congruence. }
    destruct (Z_lt_le_dec (Z.of_nat (List.length (e0 :: l0))) n) as [Hhigh|Hhigh].
    { destruct (probe_choice_invalid (e0 :: l0) escolha w0 Hz) as (line & Hbad).
      { rewrite Hint. now right. }
      exists true, (add_stdout line w0). rewrite Hbad. split; [reflexivity|].
      apply Hgoes; cbn [peers shared_dir add_stdout]; congruence. }
    destruct (nth_error (e0 :: l0) (Z.to_nat (n - 1))) as [[peer_addr info]|] eqn:Hnth.
    2: { apply nth_error_None in Hnth. lia. }
    rewrite (probe_choice_listed _ _ _ _ _ w0 Hint Hlow Hnth).
    destruct (dict_get peer_addr (peers w0)) as [info0|] eqn:Hget.
    2: { exfalso. revert Hget. rewrite Hp0. eapply nth_error_registered; eauto. }
    destruct (hello_probe_run peer_addr info0 w0 Hget)
      as [(_ & text & Hrun')|(_ & w' & st & tr & Hrun' & _ & _ & _ & _ & Hk & Hf)];
      rewrite Hrun'.
    + exists true, (add_stdout "Digite um número válido1!" w0). split; [reflexivity|].
      apply Hgoes; cbn [peers shared_dir add_stdout]; congruence.
    + exists true, w'. split; [reflexivity|]. apply Hgoes; congruence.
  - destruct (probe_choice_invalid (e0 :: l0) escolha w0 Hz) as (line & Hbad).
    { now rewrite Hint. }
    exists true, (add_stdout line w0). rewrite Hbad. split; [reflexivity|].
    apply Hgoes; cbn [peers shared_dir add_stdout]; congruence.
Qed.

(** X24.  Answering with the number of a listed peer contacts that peer
    and no other: everything the turn writes to the network goes to the
    peer shown under that number, only that peer's record can change, and
    of it only the status. *)
Theorem list_peers_choice_probes_that_peer escolha n peer_addr info w :
  int (strip escolha) = Some n ->
  (1 <= n)%Z ->
  nth_error (peers w) (Z.to_nat (n - 1)) = Some (peer_addr, info) ->
  dict_get peer_addr (peers w) = Some info ->
  exists w' st tr,
    list_peers_round net escolha w = (inr true, w')
    /\ wire w' = (wire w ++ tr)%list
    /\ Forall (fun e => dest_of e = peer_addr) tr
    /\ dict_get peer_addr (peers w') = Some (mkPeer st (clock info))
    /\ (forall k, k <> peer_addr -> dict_get k (peers w') = dict_get k (peers w)).
Proof.
  intros Hint Hn Hnth Hget.
  destruct (list_peers_round_menu escolha w) as (w0 & Hw0 & Hrun).
  { intros Hp. rewrite Hp in Hnth. now destruct (Z.to_nat (n - 1)). }
  destruct Hw0 as (_ & _ & Hp0 & _ & _ & Hwire0 & _).
  rewrite Hrun, (probe_choice_listed _ _ _ _ _ w0 Hint Hn Hnth).
  rewrite <- Hp0 in Hget.
  destruct (hello_probe_run peer_addr info w0 Hget)
    as [(_ & text & Hrun')|(_ & w' & st & tr & Hrun' & Hw & Hd & Hnew & Hother & _)];
    rewrite Hrun'.
  - exists (add_stdout "Digite um número válido1!" w0), (status info), [].
    cbn [is_ValueError peers wire add_stdout]. rewrite app_nil_r, Hp0 in *.
    repeat split; auto. rewrite Hget. now destruct info.
  - exists w', st, tr. rewrite Hp0, Hwire0 in *. repeat split; auto.
Qed.

(** X25.  A registry key of ASCII text that is not [ip:port] with an
    integer port is blamed on the operator.  Choosing such a peer sends nothing and
    changes nothing; the turn prints its message for an answer that is no
    number, although the answer was the number of a listed peer, and the
    list comes back. *)
Theorem list_peers_bad_key_blamed_on_answer escolha n peer_addr info w :
  int (strip escolha) = Some n ->
  (1 <= n)%Z ->
  nth_error (peers w) (Z.to_nat (n - 1)) = Some (peer_addr, info) ->
  ascii_text escolha ->
  ascii_text peer_addr ->
  unparseable peer_addr ->
  exists w0,
    list_peers_round net escolha w
    = (inr true, add_stdout "Digite um número válido1!" w0)
    /\ only_printed w w0.
Proof.
  intros Hint Hn Hnth _ _ Hbad.
  destruct (list_peers_round_menu escolha w) as (w0 & Hw0 & Hrun).
  { intros Hp. rewrite Hp in Hnth. now destruct (Z.to_nat (n - 1)). }
  exists w0. split; [|exact Hw0].
  rewrite Hrun, (probe_choice_listed _ _ _ _ _ w0 Hint Hn Hnth).
  destruct (send_message_unparseable net peer_addr "HELLO" false 2 w0 Hbad)
    as (text & Hsend).
  unfold hello_probe. now rewrite (bind_raise _ _ _ _ _ Hsend).
Qed.

(** X26.  An answer of ASCII text that is not the number of a listed
    peer (no integer, or out of range) sends nothing and changes nothing: the turn only
    prints, and the list comes back unless the answer was [0]. *)
Theorem list_peers_invalid_answer_only_prints escolha w :
  ascii_text escolha ->
  match int (strip escolha) with
  | None => True
  | Some n => (n < 1)%Z \/ (Z.of_nat (List.length (peers w)) < n)%Z
  end ->
  exists b w',
    list_peers_round net escolha w = (inr b, w')
    /\ only_printed w w'
    /\ (b = true <-> peers w <> [] /\ strip escolha <> "0").
Proof.
  intros _ H.
  destruct (peers w) as [|e0 l0] eqn:Hp.
  { exists false, (add_stdout "Nenhum peer conhecido." w).
    unfold list_peers_round, bind at 1, gets at 1. rewrite Hp.
    split; [reflexivity|]. split; [apply only_printed_print, only_printed_refl|].
    split; [discriminate | now intros [? _]]. }
  destruct (list_peers_round_menu escolha w) as (w0 & Hw0 & Hrun);
    [now rewrite Hp|].
  rewrite Hrun, Hp.
  destruct (String.eqb_spec (strip escolha) "0") as [Hz|Hz].
  - exists false, w0. rewrite (probe_choice_zero _ _ _ Hz).
    split; [reflexivity|]. split; [exact Hw0|].
    split; [discriminate | now intros [_ ?]].
  - destruct (probe_choice_invalid (e0 :: l0) escolha w0 Hz H) as (line & Hbad).
    exists true, (add_stdout line w0). rewrite Hbad.
    split; [reflexivity|]. split; [now apply only_printed_print|].
    split; [|reflexivity]. intros _. split; [discriminate | exact Hz].
Qed.

End ListPeers.

Lemma list_peers_choice_probes_that_peer_witness :
  let w := node "10.0.0.1:9001"
             [("10.0.0.2:9002", mkPeer "OFFLINE" 4); ("10.0.0.3:9003", mkPeer "ONLINE" 6)] in
  exists w' st tr,
    list_peers_round (fun _ => PeerReplies "") " 2 " w = (inr true, w')
    /\ wire w' = (wire w ++ tr)%list
    /\ Forall (fun e => dest_of e = "10.0.0.3:9003") tr
    /\ dict_get "10.0.0.3:9003" (peers w') = Some (mkPeer st 6)
    /\ dict_get "10.0.0.2:9002" (peers w') = Some (mkPeer "OFFLINE" 4).
Proof.
  intros w.
  destruct (list_peers_choice_probes_that_peer (fun _ => PeerReplies "") " 2 " 2
              "10.0.0.3:9003" (mkPeer "ONLINE" 6) w eq_refl)
    as (w' & st & tr & Hrun & Hw & Hd & Hnew & Hother);
    [lia | reflexivity | reflexivity |].
  exists w', st, tr. repeat split; auto.
  rewrite Hother; [reflexivity | discriminate].
Defined.

Lemma list_peers_bad_key_blamed_on_answer_witness :
  let w := node "10.0.0.1:9001" [("nobody", mkPeer "OFFLINE" 0)] in
  exists w0,
    list_peers_round (fun _ => PeerReplies "") "1" w
    = (inr true, add_stdout "Digite um número válido1!" w0)
    /\ only_printed w w0.
Proof.
  intros w.
  apply (list_peers_bad_key_blamed_on_answer (fun _ => PeerReplies "") "1" 1
           "nobody" (mkPeer "OFFLINE" 0) w eq_refl);
    [lia | reflexivity | reflexivity | reflexivity | exact I].
Defined.

Lemma list_peers_invalid_answer_only_prints_witness :
  let w := node "10.0.0.1:9001" [("10.0.0.2:9002", mkPeer "OFFLINE" 4)] in
  exists b w',
    list_peers_round (fun _ => PeerReplies "") "two" w = (inr b, w')
    /\ only_printed w w'
    /\ (b = true <-> peers w <> [] /\ strip "two" <> "0").
Proof.
  intros w.
  apply (list_peers_invalid_answer_only_prints (fun _ => PeerReplies "") "two" w);
    [reflexivity | exact I].
Defined.

Lemma list_peers_round_returns_witness :
  let w := node "10.0.0.1:9001" [("10.0.0.2:9002", mkPeer "OFFLINE" 4)] in
  exists b w',
    list_peers_round (fun _ => ConnectFails Refused) " 0 " w = (inr b, w')
    /\ keys (peers w') = ["10.0.0.2:9002"]
    /\ b = false.
Proof.
  intros w.
  destruct (list_peers_round_returns (fun _ => ConnectFails Refused) " 0 " w eq_refl)
    as (b & w' & Hrun & Hkeys & _ & Hb).
  exists b, w'. split; [exact Hrun|]. split; [exact Hkeys|].
  apply Hb. now right.
Defined.
(* ===================================================================== *)
(** ** Startup *)
(* ===================================================================== *)

Lemma split_on_aux_nonempty sep cur s :
  (1 <= List.length (split_on_aux sep cur s))%nat.
Proof.
  revert cur. induction s as [|c s IH]; intros cur; cbn [split_on_aux].
  - simpl. lia.
  - destruct (Ascii.eqb c sep); [simpl; lia | apply IH].
Qed.

Lemma split_on_aux_colon cur s :
  no_colon s = false -> (2 <= List.length (split_on_aux ":" cur s))%nat.
Proof.
  revert cur. induction s as [|c s IH]; intros cur H; [discriminate|].
  cbn [no_colon] in H. rewrite split_on_aux_cons.
  destruct (Ascii.eqb c ":") eqn:Hc.
  - cbn [List.length]. pose proof (split_on_aux_nonempty ":" "" s). lia.
  - now apply IH.
Qed.

Lemma no_colon_one_part s ip port_str :
  split_on ":" s = [ip; port_str] -> no_colon s = false.
Proof.
  intros H. destruct (no_colon s) eqn:Hs; [|reflexivity].
  rewrite (split_on_last _ Hs) in H. discriminate.
Qed.

(** X27.  A node started with an address [ip:port] of ASCII text and a
    neighbor file that reads as lines of ASCII text takes as its identity
    the address with the port rewritten as a plain decimal number, and
    from an empty registry it ends up knowing exactly the peers the
    neighbor file names, each OFFLINE with clock 0, itself not among
    them.  Its clock is untouched and nothing is sent. *)
Theorem startup_sets_identity_and_neighbors
    prog id_param neighbors_file dir ip port_str port lines w :
  ascii_text id_param ->
  Forall ascii_text lines ->
  split_on ":" id_param = [ip; port_str] ->
  int port_str = Some port ->
  peers w = [] ->
  exists w',
    startup [prog; id_param; neighbors_file; dir] (Some lines) true true w = (inr tt, w')
    /\ server_id w' = ip ++ ":" ++ str port
    /\ (forall k, dict_get k (peers w')
                  = if named_in lines (server_id w') k
                    then Some (mkPeer "OFFLINE" 0) else None)
    /\ dict_get (server_id w') (peers w') = None
    /\ global_clock w' = global_clock w /\ wire w' = wire w /\ sockets w' = sockets w.
Proof.
  intros _ _ Hsplit Hint Hp. unfold startup.
  rewrite (no_colon_one_part _ _ _ Hsplit), Hsplit.
  unfold bind at 1, try at 1, py_int. rewrite Hint. unfold ret at 1.
  unfold bind at 1, modify at 1.
  destruct (load_neighbors_run neighbors_file lines
              (set_server_id (ip ++ ":" ++ str port) w))
    as (w' & Hrun & _ & Hnew & Hsid & Hc & _ & Hs & Hw).
  cbn [server_id peers global_clock wire sockets set_server_id] in Hnew, Hsid, Hc, Hs, Hw.
  rewrite (bind_run _ _ _ _ _ Hrun). cbn [negb]. exists w'.
  assert (Hall : forall k, dict_get k (peers w')
                           = if named_in lines (server_id w') k
                             then Some (mkPeer "OFFLINE" 0) else None).
  { intros k. rewrite Hsid. apply Hnew. now rewrite Hp. }
  repeat split; auto.
  rewrite Hall. unfold named_in. rewrite String.eqb_refl.
  now rewrite andb_false_r.
Qed.

(** How startup ends. *)
Lemma startup_outcome prog id_param neighbors_file dir content is_dir readable w :
  fst (startup [prog; id_param; neighbors_file; dir] content is_dir readable w)
  = if no_colon id_param then inl (Exn SystemExit "1")
    else match split_on ":" id_param with
         | [ip; port_str] =>
             match int port_str, content with
             | Some _, Some _ =>
                 if is_dir && readable then inr tt else inl (Exn SystemExit "1")
             | _, _ => inl (Exn SystemExit "1")
             end
         | _ :: _ :: _ :: _ =>
             inl (Exn ValueError "too many values to unpack (expected 2)")
         | _ =>
             inl (Exn ValueError "not enough values to unpack (expected 2, got 1)")
         end.
Proof.
  unfold startup. destruct (no_colon id_param); [reflexivity|].
  destruct (split_on ":" id_param) as [|ip [|port_str [|x rest]]]; try reflexivity.
  unfold bind at 1, try at 1, py_int.
  destruct (int port_str) as [port|]; [|reflexivity].
  unfold ret at 1, bind at 1, modify at 1.
  destruct content as [lines|]; [|reflexivity].
  destruct (load_neighbors_run neighbors_file lines
              (set_server_id (ip ++ ":" ++ str port) w)) as (w' & Hrun & _).
  rewrite (bind_run _ _ _ _ _ Hrun).
  destruct is_dir, readable; reflexivity.
Qed.

(** X28.  Startup with four arguments, an address of ASCII text and a
    neighbor file that is either missing or reads as lines of ASCII text,
    succeeds exactly when the address is [ip:port] with an integer port,
    the neighbor file exists and the shared directory is a readable
    directory.  Every other case ends the
    program through [sys.exit], except an address with more than one
    colon, which escapes as a [ValueError]. *)
Theorem startup_succeeds_iff prog id_param neighbors_file dir content is_dir readable w :
  ascii_text id_param ->
  match content with Some lines => Forall ascii_text lines | None => True end ->
  let run := startup [prog; id_param; neighbors_file; dir] content is_dir readable w in
  (fst run = inr tt
   <-> parseable id_param /\ content <> None /\ is_dir = true /\ readable = true)
  /\ (forall e, fst run = inl e ->
        (is_Exception e = true <-> (3 <= List.length (split_on ":" id_param))%nat)).
Proof.
  intros _ _ run. subst run. rewrite startup_outcome. unfold parseable.
  destruct (no_colon id_param) eqn:Hcolon.
  { rewrite (split_on_last _ Hcolon). split.
    - split; [discriminate|]. intros ((ip & port_str & port & Hsplit & _) & _).
      discriminate.
    - intros e [= <-]. cbn. split; [discriminate | lia]. }
  pose proof (split_on_aux_colon "" id_param Hcolon) as Hlen.
  fold (split_on ":" id_param) in Hlen.
  destruct (split_on ":" id_param) as [|ip [|port_str [|x rest]]];
    cbn [List.length] in Hlen; try lia.
  - destruct (int port_str) as [port|] eqn:Hint;
      [destruct content as [lines|]; [destruct is_dir; [destruct readable|]|]|];
      cbn [andb].
    + split; [|discriminate]. split; [|reflexivity].
      intros _. split; [now exists ip, port_str, port|]. repeat split; discriminate.
    + split; [|intros e [= <-]; cbn; split; [discriminate | lia]].
      split; [discriminate|]. now intros (_ & _ & _ & H).
    + split; [|intros e [= <-]; cbn; split; [discriminate | lia]].
      split; [discriminate|]. now intros (_ & _ & H & _).
    + split; [|intros e [= <-]; cbn; split; [discriminate | lia]].
      split; [discriminate|]. now intros (_ & H & _).
    + split; [|intros e [= <-]; cbn; split; [discriminate | lia]].
      split; [discriminate|].
      intros ((ip' & port_str' & port' & [= <- <-] & Hint') & _). congruence.
  - split.
    + split; [discriminate|]. intros ((ip' & port_str' & port' & Hsplit & _) & _).
      discriminate.
    + intros e [= <-]. split; [intros _; simpl; lia | reflexivity].
Qed.

Lemma startup_sets_identity_and_neighbors_witness :
  let w := node "" [] in
  let lines := ["10.0.0.2:9002" ++ nl; nl; "10.0.0.1:9001" ++ nl; "10.0.0.1:+9001"] in
  exists w',
    startup ["eachare"; "10.0.0.1:+9001"; "peers.txt"; "shared"] (Some lines) true true w
    = (inr tt, w')
    /\ server_id w' = "10.0.0.1:9001"
    /\ dict_get "10.0.0.2:9002" (peers w') = Some (mkPeer "OFFLINE" 0)
    /\ dict_get "10.0.0.1:9001" (peers w') = None
    /\ dict_get "10.0.0.1:+9001" (peers w') = Some (mkPeer "OFFLINE" 0).
Proof.
  intros w lines.
  destruct (startup_sets_identity_and_neighbors "eachare" "10.0.0.1:+9001" "peers.txt"
              "shared" "10.0.0.1" "+9001" 9001 lines w eq_refl)
    as (w' & Hrun & Hsid & Hall & _); [repeat constructor | reflexivity ..|].
  exists w'. split; [exact Hrun|]. split; [exact Hsid|].
  rewrite !Hall, Hsid. repeat split; reflexivity.
Defined.

Lemma startup_succeeds_iff_witness :
  let run := startup ["eachare"; "10.0.0.1:90:01"; "peers.txt"; "shared"]
               (Some ["10.0.0.2:9002" ++ nl]) true true (node "" []) in
  fst run <> inr tt
  /\ forall e, fst run = inl e -> is_Exception e = true.
Proof.
  intros run.
  destruct (startup_succeeds_iff "eachare" "10.0.0.1:90:01" "peers.txt" "shared"
              (Some ["10.0.0.2:9002" ++ nl]) true true (node "" []) eq_refl)
    as (Hiff & Hexn); [repeat constructor|].
  split.
  - intros Hok. apply Hiff in Hok. destruct Hok as ((ip & port_str & port & Hsplit & _) & _).
    discriminate.
  - intros e He. apply (Hexn e He). simpl. lia.
Defined.
(* ===================================================================== *)
(** ** The local listing *)
(* ===================================================================== *)






(* ===================================================================== *)
(** ** The peer list from the responder to the asker's registry *)
(* ===================================================================== *)

Section Refresh.

Variable net : nat -> attempt_outcome.

(** X7.  The peer list survives the wire.  When the refresh asks a peer
    and the peer takes the request and answers with the [PEER_LIST] line a
    responder builds from the entries [snapshot] (the line being ASCII
    text that fits one read, the keys [ip:port] and the statuses free of
    whitespace and colons, the keys distinct), every listed peer other
    than the node itself and the responder is afterwards in the registry
    with exactly the status and clock listed, and peers that were not
    listed keep their records.  The round returns normally after one
    socket. *)
Theorem gossip_round_trip sid c snapshot peer_addr port w :
  let reply := peer_list_reply sid c snapshot in
  valid_address peer_addr port ->
  net (sockets w) = PeerReplies reply ->
  (String.length reply <= 4096)%nat ->
  ascii_text reply ->
  is_token sid = true ->
  Forall listable snapshot ->
  NoDup (keys snapshot) ->
  exists w',
    get_peers_from net peer_addr w = (inr tt, w')
    /\ sockets w' = S (sockets w)
    /\ (forall e, In e snapshot -> fst e <> server_id w -> fst e <> peer_addr ->
                  dict_get (fst e) (peers w') = Some (snd e))
    /\ (forall k, ~ In k (keys snapshot) -> k <> peer_addr ->
                  dict_get k (peers w') = dict_get k (peers w)).
Proof.
  intros reply Hvalid Hnet Hlen _ Hsid Hall Hnd.
  destruct (update_clock_run w) as (w0 & Hclk & _ & Hs0 & Hp0 & Hsid0 & _).
  destruct (send_message_succeeds net peer_addr port "GET_PEERS" true 2 w0 Hvalid)
    as (w1 & Hrun & Hs1 & Hp1 & Hsid1 & _); [lia | now rewrite Hs0, Hnet |].
  rewrite Hs0, Hnet in Hrun. unfold sock_reply, recv in Hrun.
  rewrite substring_all in Hrun by assumption.
  destruct (ingest_listed_peers sid c snapshot peer_addr w1 Hsid Hall Hnd)
    as (Heq & Hin & Hout).
  fold reply in Heq, Hin, Hout.
  assert (Hne : truthy (Str reply) = true).
  { subst reply. unfold peer_list_reply. destruct sid; [discriminate | reflexivity]. }
  assert (Hsock : sockets (snd (ingest_peer_list peer_addr reply w1)) = sockets w1).
  { apply (inv_ingest_peer_list (fun x => sockets x = sockets w1));
      try (intros; simpl; assumption). reflexivity. }
  assert (Hfrom : get_peers_from net peer_addr w
                  = (r <- try (ingest_peer_list peer_addr reply) ;;
                     match r with
                     | inr _ => ret tt
                     | inl e =>
                         if is_Exception e
                         then print ("Erro ao processar resposta de " ++ peer_addr
                                     ++ ": " ++ exn_text e)
                         else raise e
                     end) w1).
  { unfold get_peers_from. rewrite (bind_run _ _ _ _ _ Hclk).
    rewrite (bind_run _ _ _ _ _ Hrun). now rewrite Hne. }
  pose proof (catchable_ingest_peer_list peer_addr reply w1) as Hcatch.
  rewrite Hfrom. unfold bind, try.
  rewrite Hp1, Hp0, Hsid1, Hsid0 in *.
  destruct (ingest_peer_list peer_addr reply w1) as [[e|[]] w2];
    cbn [fst snd] in *.
  - rewrite Hcatch. eexists. split; [reflexivity|].
    cbn [peers sockets add_stdout]. repeat split; auto; congruence.
  - eexists. split; [reflexivity|]. repeat split; auto; congruence.
Qed.

End Refresh.

Lemma gossip_round_trip_witness :
  let snapshot := [("10.0.0.3:9003", mkPeer "ONLINE" 5); ("10.0.0.4:9004", mkPeer "OFFLINE" 3)] in
  let net := fun _ : nat => PeerReplies (peer_list_reply "10.0.0.2:9002" 7 snapshot) in
  let w := node "10.0.0.1:9001"
             [("10.0.0.2:9002", mkPeer "OFFLINE" 0); ("10.0.0.3:9003", mkPeer "ONLINE" 1)] in
  exists w',
    get_peers_from net "10.0.0.2:9002" w = (inr tt, w')
    /\ dict_get "10.0.0.3:9003" (peers w') = Some (mkPeer "ONLINE" 5)
    /\ dict_get "10.0.0.4:9004" (peers w') = Some (mkPeer "OFFLINE" 3).
Proof.
  intros snapshot net w.
  assert (Hvalid : valid_address "10.0.0.2:9002" 9002).
  { exists "10.0.0.2", "9002". repeat split; discriminate. }
  assert (Hall : Forall listable snapshot).
  { repeat constructor; simpl.
    - now exists "10.0.0.3", "9003".
    - now exists "10.0.0.4", "9004". }
  assert (Hnd : NoDup (keys snapshot)).
  { repeat constructor; simpl; intuition discriminate. }
  destruct (gossip_round_trip net "10.0.0.2:9002" 7 snapshot "10.0.0.2:9002" 9002 w
              Hvalid eq_refl) as (w' & Hrun & _ & Hin & _);
    [simpl; lia | reflexivity | reflexivity | exact Hall | exact Hnd |].
  exists w'. split; [exact Hrun|]. split.
  - apply (Hin ("10.0.0.3:9003", mkPeer "ONLINE" 5)); simpl; auto; discriminate.
  - apply (Hin ("10.0.0.4:9004", mkPeer "OFFLINE" 3)); simpl; auto; discriminate.
Defined.
